(** * The FLWA animation container reader of [scripts/view_animation.py]

    A shallow embedding of the decoder half of the viewer: [read_header],
    [read_frame_indices], [read_frame] and the loading block of [main].

    Modelling conventions.
    - A Python [int] is a [Z]; nothing wraps around.
    - A [bytes] value is a [list byte].
    - A binary file object opened with mode "rb" is a [File]: its contents,
      its cursor, and a log of the [read] calls served so far.  The contents
      never change (the file is opened read-only).
    - A raised exception is a value of [PyError]; a computation on the file is
      a function [File -> File * Result A], so that the cursor movement made
      before an exception is raised stays visible.
    - A float32 is kept as its 32-bit pattern (a [Z] in [0, 2^32)):
      [np.frombuffer] and the copy into a float32 array move bits, they do not
      compute.  [binary32_decode] gives the value a pattern stands for.
      The Python float [header.dt] is kept as the binary32 pattern it packs
      back to; unpacking quiets a signalling NaN ([quiet_nan32]).
    - A numpy array is its shape and its C-contiguous buffer.
    - What depends on the machine is a [Platform]: which allocations succeed
      and how far the file system lets a cursor go.  [f.read(n)] allocates
      its [n] bytes before it reads and [np.zeros] allocates the array; both
      raise when that fails.  Allocations of at most 16 bytes (the fixed-size
      fields of the format) are taken to succeed. *)

From Stdlib Require Import ZArith List Lia Bool.
From Stdlib Require Import Strings.Byte.
From Stdlib Require Import Floats.SpecFloat.
Import ListNotations.
Open Scope Z_scope.

(** ** Bytes and struct.unpack *)

Definition byte_val (b : byte) : Z := Z.of_N (Byte.to_N b).

(** Little-endian value of a byte string (least significant byte first). *)
Fixpoint le_decode (bs : list byte) : Z :=
  match bs with
  | [] => 0
  | b :: rest => byte_val b + 256 * le_decode rest
  end.

(** Python slicing [data[start:end]] for non-negative [start] and [end]:
    both ends are clamped to the length of [data]. *)
Definition slice {A : Type} (data : list A) (start stop : Z) : list A :=
  firstn (Z.to_nat stop - Z.to_nat start) (skipn (Z.to_nat start) data).

(** ** Exceptions *)

Inductive PyError : Type :=
  (* read_header: raise ValueError(f"Invalid magic bytes: {magic}") *)
  | ValueError_InvalidMagic (magic : list byte)
  (* read_header: raise ValueError(f"Unsupported version: {version}") *)
  | ValueError_UnsupportedVersion (version : Z)
  (* struct.unpack on a buffer of the wrong length: struct.error *)
  | StructError (expected : Z) (got : Z)
  (* f.seek to a negative offset, or to one beyond what the file system
     supports: OSError(EINVAL) *)
  | OSError_InvalidArgument
  (* f.seek to an offset that does not fit the platform's off_t *)
  | ValueError_OffsetOverflow
  (* f.read of a size that does not fit the platform's ssize_t *)
  | OverflowError_ReadSize
  (* f.read of a negative size other than -1 *)
  | ValueError_ReadLength
  (* f.read of a size no bytes object can have: OverflowError("byte string
     is too large") *)
  | OverflowError_BytesTooLarge
  (* an allocation that fails: MemoryError *)
  | MemoryError
  (* np.zeros: ValueError("negative dimensions are not allowed") *)
  | ValueError_NegativeDimensions
  (* np.zeros: ValueError("array is too big; `arr.size * arr.dtype.itemsize`
     is larger than the maximum possible size.") *)
  | ValueError_ArrayTooBig
  (* read_frame: raise ValueError("Compression not supported in viewer (yet)") *)
  | ValueError_CompressionNotSupported
  (* np.frombuffer: buffer size must be a multiple of element size *)
  | ValueError_BufferSize (nbytes : Z)
  (* ndarray.reshape: cannot reshape array of size n into shape s *)
  | ValueError_Reshape (size : Z) (shape : list Z).

Inductive Result (A : Type) : Type :=
  | Ok (a : A)
  | Raise (e : PyError).
Arguments Ok {A} a.
Arguments Raise {A} e.

Definition is_ok {A : Type} (r : Result A) : bool :=
  match r with Ok _ => true | Raise _ => false end.

(** ** The file object *)

Record File : Type := mkFile {
  contents : list byte;      (* the bytes of the file, never modified *)
  pos : Z;                   (* the cursor *)
  reads : list (Z * Z)       (* log: (offset, bytes returned) of each read *)
}.

Definition open_rb (bs : list byte) : File :=
  {| contents := bs; pos := 0; reads := [] |}.

Definition file_len (f : File) : Z := Z.of_nat (length (contents f)).

(** Computations on the open file that may raise. *)
Definition M (A : Type) : Type := File -> File * Result A.

Definition ret {A : Type} (a : A) : M A := fun f => (f, Ok a).
Definition raise {A : Type} (e : PyError) : M A := fun f => (f, Raise e).
Definition bind {A B : Type} (c : M A) (k : A -> M B) : M B :=
  fun f =>
    match c f with
    | (f', Ok a) => k a f'
    | (f', Raise e) => (f', Raise e)
    end.

Declare Scope py_scope.
Delimit Scope py_scope with py.
Notation "x <- c ;; k" := (bind c (fun x => k))
  (at level 61, c at next level, right associativity) : py_scope.
Notation "c ;;; k" := (bind c (fun _ => k))
  (at level 61, right associativity) : py_scope.
Open Scope py_scope.

Definition lift {A : Type} (r : Result A) : M A := fun f => (f, r).

Definition ssize_max : Z := 2 ^ 63 - 1.

(** ** The platform

    What the interpreter's answers depend on besides the bytes of the file. *)
Class Platform : Type := {
  (* whether an allocation of [n] bytes succeeds *)
  alloc_ok : Z -> bool;
  (* the largest offset the file system lets a cursor be set to *)
  fs_limit : Z;
  (* the fixed-size fields of the format can always be allocated *)
  alloc_small : forall n : Z, n <= 16 -> alloc_ok n = true
}.

(** The largest size of a [bytes] object: its 33 bytes of header and
    terminator count against the limit of a size. *)
Definition bytes_max : Z := ssize_max - 33.

(** [f.read(n)]: the bytes from the cursor on, at most [n] of them; fewer at
    the end of the file, none when the cursor is at or past the end.  The
    buffer of [n] bytes is allocated before anything is read; [f.read(-1)]
    reads, and allocates, what is left of the file. *)
Definition f_read {plat : Platform} (n : Z) : M (list byte) :=
  fun f =>
    if n >? ssize_max then (f, Raise OverflowError_ReadSize)
    else if n <? -1 then (f, Raise ValueError_ReadLength)
    else
      let avail := skipn (Z.to_nat (pos f)) (contents f) in
      let wanted := if n =? -1 then Z.of_nat (length avail) else n in
      if wanted >? bytes_max then (f, Raise OverflowError_BytesTooLarge)
      else if negb (alloc_ok wanted) then (f, Raise MemoryError)
      else
        let bs := if n =? -1 then avail else firstn (Z.to_nat n) avail in
        let got := Z.of_nat (length bs) in
        ({| contents := contents f;
            pos := pos f + got;
            reads := reads f ++ [(pos f, got)] |}, Ok bs).

(** [f.seek(offset)] (whence 0).  Seeking past the end is allowed, up to the
    limit of the file system; a file is never longer than that limit, so an
    offset inside the file is always accepted. *)
Definition f_seek {plat : Platform} (offset : Z) : M Z :=
  fun f =>
    if (offset >? ssize_max) || (offset <? - ssize_max - 1)
    then (f, Raise ValueError_OffsetOverflow)
    else if offset <? 0 then (f, Raise OSError_InvalidArgument)
    else if offset >? Z.max fs_limit (file_len f)
    then (f, Raise OSError_InvalidArgument)
    else ({| contents := contents f; pos := offset; reads := reads f |},
          Ok offset).

(** [f.seek(0, 2)]: the cursor goes to the end of the file. *)
Definition f_seek_end : M Z :=
  fun f => ({| contents := contents f; pos := file_len f; reads := reads f |},
            Ok (file_len f)).

(** [f.tell()] *)
Definition f_tell : M Z := fun f => (f, Ok (pos f)).

(** [struct.unpack("<H" | "<I" | "<Q", b)[0]]: the buffer must have exactly
    the size of the format. *)
Definition unpack_le (size : Z) (b : list byte) : Result Z :=
  if Z.of_nat (length b) =? size then Ok (le_decode b)
  else Raise (StructError size (Z.of_nat (length b))).

Definition unpack_H := unpack_le 2.
Definition unpack_I := unpack_le 4.
Definition unpack_Q := unpack_le 8.

(** A binary32 pattern is a NaN when its exponent bits are all ones and its
    fraction is not zero. *)
Definition is_nan32 (bits : Z) : bool :=
  (Z.land (Z.shiftr bits 23) 255 =? 255) &&
  negb (Z.land bits (2 ^ 23 - 1) =? 0).

(** Widening a C float to a double sets the quiet bit (bit 22) of a NaN and
    keeps every other pattern as it is. *)
Definition quiet_nan32 (bits : Z) : Z :=
  if is_nan32 bits then Z.lor bits (2 ^ 22) else bits.

(** [struct.unpack("<f", b)[0]]: the C float is widened to a Python float;
    the result is kept as the binary32 pattern it packs back to. *)
Definition unpack_f (b : list byte) : Result Z :=
  match unpack_le 4 b with
  | Ok bits => Ok (quiet_nan32 bits)
  | Raise e => Raise e
  end.

(** ** The data model *)

Record AnimationHeader : Type := mkHeader {
  width : Z;
  height : Z;
  depth : Z;
  channels : Z;
  frame_count : Z;
  dt : Z;
  compression : Z;
  delta_encoding : bool
}.

Record FrameIndex : Type := mkIndex {
  offset : Z;
  size : Z
}.

(** b"FLWA" *)
Definition FLWA : list byte := [x46; x4c; x57; x41].

(** ** read_header *)

Definition read_header {plat : Platform} : M AnimationHeader :=
  magic <- f_read 4 ;;
  if list_eq_dec byte_eq_dec magic FLWA then
    version <- (b <- f_read 2 ;; lift (unpack_H b)) ;;
    if version =? 1 then
      flags <- (b <- f_read 2 ;; lift (unpack_H b)) ;;
      let compression := Z.land flags 15 in
      let delta_encoding := negb (Z.land flags (Z.shiftl 1 4) =? 0) in
      width <- (b <- f_read 4 ;; lift (unpack_I b)) ;;
      height <- (b <- f_read 4 ;; lift (unpack_I b)) ;;
      depth <- (b <- f_read 4 ;; lift (unpack_I b)) ;;
      channels <- (b <- f_read 4 ;; lift (unpack_I b)) ;;
      frame_count <- (b <- f_read 8 ;; lift (unpack_Q b)) ;;
      dt <- (b <- f_read 4 ;; lift (unpack_f b)) ;;
      f_read 16 ;;;
      ret {| width := width; height := height; depth := depth;
             channels := channels; frame_count := frame_count; dt := dt;
             compression := compression; delta_encoding := delta_encoding |}
    else raise (ValueError_UnsupportedVersion version)
  else raise (ValueError_InvalidMagic magic).

(** ** read_frame_indices *)

(** The body of [for _ in range(header.frame_count)], run [n] more times. *)
Fixpoint read_entries {plat : Platform} (n : nat)
    (indices : list FrameIndex) : M (list FrameIndex) :=
  match n with
  | O => ret indices
  | S n' =>
      offset <- (b <- f_read 8 ;; lift (unpack_Q b)) ;;
      size <- (b <- f_read 8 ;; lift (unpack_Q b)) ;;
      read_entries n' (indices ++ [{| offset := offset; size := size |}])
  end.

Definition read_frame_indices {plat : Platform} (header : AnimationHeader)
  : M (list FrameIndex) :=
  f_seek_end ;;;
  file_len <- f_tell ;;
  let index_start := file_len - frame_count header * 16 in
  f_seek index_start ;;;
  read_entries (Z.to_nat (frame_count header)) [].

(** ** numpy arrays of float32 *)

Record ndarray : Type := mkArray {
  shape : list Z;
  buf : list Z      (* C-contiguous elements, as binary32 bit patterns *)
}.

Definition prod_shape (s : list Z) : Z := fold_right Z.mul 1 s.

(** The product of the dimensions that are not zero. *)
Definition prod_nonzero (s : list Z) : Z :=
  prod_shape (filter (fun d => negb (d =? 0)) s).

(** [np.zeros(shape, dtype=np.float32)] for dimensions that fit a signed
    64-bit integer (those of a parsed header are below 2^32).  The size in
    bytes is computed over the dimensions that are not zero and must fit a
    signed 64-bit integer, also when the array has no element; then the
    array is allocated.  No dimension may be negative. *)
Definition np_zeros {plat : Platform} (s : list Z) : Result ndarray :=
  if existsb (fun d => d <? 0) s then Raise ValueError_NegativeDimensions
  else if 4 * prod_nonzero s >? ssize_max then Raise ValueError_ArrayTooBig
  else if negb (alloc_ok (4 * prod_shape s)) then Raise MemoryError
  else Ok {| shape := s; buf := repeat 0 (Z.to_nat (prod_shape s)) |}.

(** The float32 items of a buffer whose length is a multiple of 4. *)
Fixpoint decode_f32s (b : list byte) : list Z :=
  match b with
  | b0 :: b1 :: b2 :: b3 :: rest => le_decode [b0; b1; b2; b3] :: decode_f32s rest
  | _ => []
  end.

(** [np.frombuffer(b, dtype=np.float32)]: a 1-d array over the buffer. *)
Definition np_frombuffer (b : list byte) : Result (list Z) :=
  let nbytes := Z.of_nat (length b) in
  if nbytes mod 4 =? 0 then Ok (decode_f32s b)
  else Raise (ValueError_BufferSize nbytes).

(** [a.reshape(shape)] of a 1-d array.  (numpy also refuses a shape whose
    running product overflows; [read_frame] reshapes to three of the four
    dimensions [np.zeros] has accepted, where that cannot happen.) *)
Definition np_reshape (a : list Z) (s : list Z) : Result ndarray :=
  let n := Z.of_nat (length a) in
  if n =? prod_shape s then Ok {| shape := s; buf := a |}
  else Raise (ValueError_Reshape n s).

(** [a[c] = v] for [v] of the shape of [a[c]] and [c] within the first axis:
    the [c]-th block of the buffer is overwritten. *)
Definition np_setitem (a : ndarray) (c : Z) (v : ndarray) : ndarray :=
  let n := Z.to_nat (prod_shape (tl (shape a))) in
  let k := Z.to_nat c in
  {| shape := shape a;
     buf := firstn (k * n) (buf a) ++ buf v ++ skipn ((k + 1) * n) (buf a) |}.

(** [a[c, z, y, x]] of a 4-d array. *)
Definition np_item4 (a : ndarray) (c z y x : Z) : option Z :=
  match shape a with
  | [_; d; h; w] => nth_error (buf a) (Z.to_nat (((c * d + z) * h + y) * w + x))
  | _ => None
  end.

(** ** read_frame *)

(** The body of [for c in range(header.channels)], from channel [c] on, [n]
    more times. *)
Fixpoint decode_channels (n : nat) (c : Z) (header : AnimationHeader)
    (data : list byte) (grid_size : Z) (frame_data : ndarray)
  : Result ndarray :=
  match n with
  | O => Ok frame_data
  | S n' =>
      let start := c * grid_size * 4 in
      let stop := start + grid_size * 4 in
      match np_frombuffer (slice data start stop) with
      | Raise e => Raise e
      | Ok channel_data =>
          match np_reshape channel_data
                  [depth header; height header; width header] with
          | Raise e => Raise e
          | Ok block =>
              decode_channels n' (c + 1) header data grid_size
                (np_setitem frame_data c block)
          end
      end
  end.

(** The part of [read_frame] after the bytes were read. *)
Definition decode_frame {plat : Platform} (header : AnimationHeader)
    (data : list byte) : Result ndarray :=
  if negb (compression header =? 0) then
    Raise ValueError_CompressionNotSupported
  else
    let grid_size := width header * height header * depth header in
    match
      np_zeros [channels header; depth header; height header; width header]
    with
    | Raise e => Raise e
    | Ok frame_data =>
        decode_channels (Z.to_nat (channels header)) 0 header data grid_size
          frame_data
    end.

Definition read_frame {plat : Platform} (header : AnimationHeader)
    (index : FrameIndex) : M ndarray :=
  f_seek (offset index) ;;;
  data <- f_read (size index) ;;
  lift (decode_frame header data).

(** ** The loading block of main *)

(** [[read_frame(f, header, idx) for idx in indices]] *)
Fixpoint read_frames {plat : Platform} (header : AnimationHeader)
    (indices : list FrameIndex) : M (list ndarray) :=
  match indices with
  | [] => ret []
  | idx :: rest =>
      frame <- read_frame header idx ;;
      frames <- read_frames header rest ;;
      ret (frame :: frames)
  end.

(** What [main] holds once the [with open(...)] block is over. *)
Record Animation : Type := mkAnimation {
  a_header : AnimationHeader;
  a_indices : list FrameIndex;
  a_frames : list ndarray
}.

Definition load_animation {plat : Platform} : M Animation :=
  header <- read_header ;;
  indices <- read_frame_indices header ;;
  frames <- read_frames header indices ;;
  ret {| a_header := header; a_indices := indices; a_frames := frames |}.

(** [with open(animation_path, "rb") as f: ...] on a file with bytes [bs]. *)
Definition main_load {plat : Platform} (bs : list byte)
  : File * Result Animation :=
  load_animation (open_rb bs).

(** ** The value of a binary32 bit pattern *)

Definition binary32_decode (bits : Z) : spec_float :=
  let s := Z.testbit bits 31 in
  let e := Z.land (Z.shiftr bits 23) 255 in
  let m := Z.land bits (2 ^ 23 - 1) in
  if e =? 255 then
    if m =? 0 then S754_infinity s else S754_nan
  else if e =? 0 then
    match m with
    | Zpos p => S754_finite s p (-149)
    | _ => S754_zero s
    end
  else
    match m + 2 ^ 23 with
    | Zpos p => S754_finite s p (e - 150)
    | _ => S754_nan
    end.

(** float32 addition (round to nearest even), on decoded values. *)
Definition binary32_add : spec_float -> spec_float -> spec_float :=
  SFadd 24 128.

(** ** Sample containers *)

(** The [n] little-endian bytes of [v] (what [struct.pack] would write). *)
Definition le_encode (n : nat) (v : Z) : list byte :=
  map (fun i =>
         match Byte.of_N (Z.to_N ((v / 256 ^ Z.of_nat i) mod 256)) with
         | Some b => b
         | None => x00
         end) (seq 0 n).

(** A 52-byte version-1 header with the given flags and fields, [dt] = 0 and
    a zeroed reserved region. *)
Definition header_bytes (flags w h d c fc : Z) : list byte :=
  FLWA ++ le_encode 2 1 ++ le_encode 2 flags ++
  le_encode 4 w ++ le_encode 4 h ++ le_encode 4 d ++ le_encode 4 c ++
  le_encode 8 fc ++ le_encode 4 0 ++ repeat x00 16.

(** A container of two frames of two floats each (width 2, height 1, depth 1,
    one channel): payloads at offsets 52 and 60, index table at 68. *)
Definition two_frame_file (flags : Z) (a0 a1 b0 b1 : Z) : list byte :=
  header_bytes flags 2 1 1 1 2 ++
  le_encode 4 a0 ++ le_encode 4 a1 ++ le_encode 4 b0 ++ le_encode 4 b1 ++
  le_encode 8 52 ++ le_encode 8 8 ++ le_encode 8 60 ++ le_encode 8 8.

(** Bit patterns of a few float32 constants. *)
Definition f32_one : Z := 0x3F800000.        (* 1.0 *)
Definition f32_half : Z := 0x3F000000.       (* 0.5 *)
Definition f32_neg_half : Z := 0xBF000000.   (* -0.5 *)
Definition f32_one_half : Z := 0x3FC00000.   (* 1.5 *)

(** ** Delta reconstruction as the specification words it

    Frame 0 is absolute; with [delta_encoding] set, frame i > 0 is the stored
    grid added element-wise to the reconstruction of frame i-1. *)

Fixpoint spec_reconstruct (prev : list spec_float) (stored : list (list Z))
  : list (list spec_float) :=
  match stored with
  | [] => []
  | g :: rest =>
      let cur :=
        map (fun p => binary32_add (fst p) (binary32_decode (snd p)))
            (combine prev g) in
      cur :: spec_reconstruct cur rest
  end.

Definition spec_frames (delta : bool) (stored : list (list Z))
  : list (list spec_float) :=
  match stored with
  | [] => []
  | g0 :: rest =>
      let f0 := map binary32_decode g0 in
      if delta then f0 :: spec_reconstruct f0 rest
      else map (map binary32_decode) stored
  end.

(** ** Auxiliary notions used in the statements *)

(** The exceptions a computation can raise all satisfy [P]. *)
Definition raises_only {A : Type} (P : PyError -> Prop) (c : M A) : Prop :=
  forall f e, snd (c f) = Raise e -> P e.

(** The only read made when the magic tag is wrong. *)
Definition after_magic_read (bs : list byte) : File :=
  {| contents := bs;
     pos := Z.of_nat (Nat.min 4 (length bs));
     reads := [(0, Z.of_nat (Nat.min 4 (length bs)))] |}.

(** The first two statements of the [with] block of [main]: what opening a
    container parses. *)
Definition open_container {plat : Platform}
  : M (AnimationHeader * list FrameIndex) :=
  header <- read_header ;;
  indices <- read_frame_indices header ;;
  ret (header, indices).

(** The index entry stored at byte [off] of [bs]. *)
Definition entry_at (bs : list byte) (off : Z) : FrameIndex :=
  {| offset := le_decode (slice bs off (off + 8));
     size := le_decode (slice bs (off + 8) (off + 16)) |}.

(** [n] consecutive entries from byte [start] on. *)
Definition entries_from (bs : list byte) (start : Z) (n : nat)
  : list FrameIndex :=
  map (fun i => entry_at bs (start + 16 * Z.of_nat i)) (seq 0 n).

(** The reads that fetch them: two reads of 8 bytes per entry, in order. *)
Definition entry_reads (start : Z) (n : nat) : list (Z * Z) :=
  flat_map (fun i => [(start + 16 * Z.of_nat i, 8);
                      (start + 16 * Z.of_nat i + 8, 8)]) (seq 0 n).

(** A computation leaves the bytes of the file alone. *)
Definition keeps_contents {A : Type} (c : M A) : Prop :=
  forall f, contents (fst (c f)) = contents f.

(** [index_start] as [read_frame_indices] computes it. *)
Definition index_start (h : AnimationHeader) (f : File) : Z :=
  file_len f - frame_count h * 16.

(** The part of [read_header] that follows the flags field. *)
Definition read_header_fields {plat : Platform} (compression : Z)
    (delta_encoding : bool) : M AnimationHeader :=
  width <- (b <- f_read 4 ;; lift (unpack_I b)) ;;
  height <- (b <- f_read 4 ;; lift (unpack_I b)) ;;
  depth <- (b <- f_read 4 ;; lift (unpack_I b)) ;;
  channels <- (b <- f_read 4 ;; lift (unpack_I b)) ;;
  frame_count <- (b <- f_read 8 ;; lift (unpack_Q b)) ;;
  dt <- (b <- f_read 4 ;; lift (unpack_f b)) ;;
  f_read 16 ;;;
  ret {| width := width; height := height; depth := depth;
         channels := channels; frame_count := frame_count; dt := dt;
         compression := compression; delta_encoding := delta_encoding |}.

(** Two files look the same from the cursor on. *)
Definition same_rest (f f' : File) : Prop :=
  pos f = pos f' /\ 0 <= pos f /\ reads f = reads f' /\
  skipn (Z.to_nat (pos f)) (contents f) =
  skipn (Z.to_nat (pos f')) (contents f').

(** A computation that only looks at the file from the cursor on. *)
Definition sequential {A : Type} (c : M A) : Prop :=
  forall f f', same_rest f f' ->
    same_rest (fst (c f)) (fst (c f')) /\ snd (c f) = snd (c f').

(** A container of one frame of a single float (all four dimensions 1) whose
    index entry gives the frame 8 bytes instead of 4. *)
Definition oversized_frame_file : list byte :=
  header_bytes 0 1 1 1 1 1 ++
  le_encode 4 f32_one ++ le_encode 4 f32_half ++
  le_encode 8 52 ++ le_encode 8 8.

(** Two file objects over the same bytes with the cursor at the same place
    (their read logs may differ). *)
Definition same_file (f f' : File) : Prop :=
  contents f = contents f' /\ pos f = pos f'.

(** A computation whose result and cursor movement do not depend on what was
    read before. *)
Definition oblivious {A : Type} (c : M A) : Prop :=
  forall f f', same_file f f' ->
    same_file (fst (c f)) (fst (c f')) /\ snd (c f) = snd (c f').

(** The header [h] with another value of the delta flag. *)
Definition set_delta (h : AnimationHeader) (b : bool) : AnimationHeader :=
  {| width := width h; height := height h; depth := depth h;
     channels := channels h; frame_count := frame_count h; dt := dt h;
     compression := compression h; delta_encoding := b |}.

(** The header [h] with another codec id. *)
Definition set_compression (h : AnimationHeader) (c : Z) : AnimationHeader :=
  {| width := width h; height := height h; depth := depth h;
     channels := channels h; frame_count := frame_count h; dt := dt h;
     compression := c; delta_encoding := delta_encoding h |}.

(** [f.seek(0)] followed by [read_header]: parsing the header again. *)
Definition reread_header {plat : Platform} : M AnimationHeader :=
  f_seek 0 ;;; read_header.

(** * The rest of the viewer *)

(** ** The layout of a container, written out

    The source has no writer; these functions produce the bytes that the
    reader's layout describes, for round trips. *)

(** The flags field for a codec id, a delta flag and the reserved bits. *)
Definition flags_of (compression : Z) (delta_encoding : bool)
    (reserved_bits : Z) : Z :=
  compression + (if delta_encoding then 16 else 0) + 32 * reserved_bits.

(** The 36 bytes of a header up to, and without, the reserved region. *)
Definition encode_header (h : AnimationHeader) (reserved_bits : Z)
  : list byte :=
  FLWA ++ le_encode 2 1 ++
  le_encode 2 (flags_of (compression h) (delta_encoding h) reserved_bits) ++
  le_encode 4 (width h) ++ le_encode 4 (height h) ++ le_encode 4 (depth h) ++
  le_encode 4 (channels h) ++ le_encode 8 (frame_count h) ++
  le_encode 4 (dt h).

(** The payload of a raw frame: its floats, 4 bytes each. *)
Definition encode_frame (values : list Z) : list byte :=
  flat_map (le_encode 4) values.

(** An index table. *)
Definition encode_index (entries : list FrameIndex) : list byte :=
  flat_map (fun e => le_encode 8 (offset e) ++ le_encode 8 (size e)) entries.

(** The entries of [n] frames of [fsz] bytes stored back to back from byte
    [start] on. *)
Definition frame_entries (start fsz : Z) (n : nat) : list FrameIndex :=
  map (fun i => {| offset := start + Z.of_nat i * fsz; size := fsz |})
      (seq 0 n).

(** The number of bytes of a raw frame. *)
Definition frame_size (h : AnimationHeader) : Z :=
  width h * height h * depth h * channels h * 4.

(** Header, reserved region, the frames back to back, index table. *)
Definition encode_container (h : AnimationHeader) (reserved_bits : Z)
    (reserved : list byte) (frames : list (list Z)) : list byte :=
  encode_header h reserved_bits ++ reserved ++
  flat_map encode_frame frames ++
  encode_index (frame_entries 52 (frame_size h) (length frames)).

(** A header whose fields fit the widths of the format. *)
Definition header_in_range (h : AnimationHeader) : Prop :=
  0 <= width h < 2 ^ 32 /\ 0 <= height h < 2 ^ 32 /\
  0 <= depth h < 2 ^ 32 /\ 0 <= channels h < 2 ^ 32 /\
  0 <= frame_count h < 2 ^ 64 /\ 0 <= dt h < 2 ^ 32 /\
  0 <= compression h < 16.

(** ** The figures and the callbacks of main *)

(** The exceptions of this part of the program. *)
Inductive ViewError : Type :=
  | IndexError          (* an index out of bounds *)
  | ZeroDivisionError.  (* integer modulo by zero *)

Inductive Outcome (A : Type) : Type :=
  | Done (a : A)
  | Failed (e : ViewError).
Arguments Done {A} a.
Arguments Failed {A} e.

(** An integer index [i] into an axis of length [n]: negative indices count
    from the end, anything outside [-n, n) is an IndexError. *)
Definition np_axis_index (i n : Z) : Outcome Z :=
  if (0 <=? i) && (i <? n) then Done i
  else if (- n <=? i) && (i <? 0) then Done (i + n)
  else Failed IndexError.

(** [range(0, n, step)] for a positive [step]. *)
Definition py_range_step (n step : Z) : list Z :=
  map (fun i => Z.of_nat i * step) (seq 0 (Z.to_nat ((n + step - 1) / step))).

(** [range(n)] *)
Definition py_range (n : Z) : list Z :=
  map Z.of_nat (seq 0 (Z.to_nat n)).

(** [create_2d_figure]: the [z] data of the heatmap, row by row (the rest of
    the figure is constant layout).
    [z_slice = frame.shape[1] // 2; data = frame[channel, z_slice, :, :]] *)
Definition create_2d_figure (frame : ndarray) (channel : Z)
  : Outcome (list (list Z)) :=
  match shape frame with
  | [nc; nd; nh; nw] =>
      let z_slice := nd / 2 in
      match np_axis_index channel nc with
      | Failed e => Failed e
      | Done c =>
          match np_axis_index z_slice nd with
          | Failed e => Failed e
          | Done z =>
              Done (map (fun y =>
                           let row := ((c * nd + z) * nh + y) * nw in
                           slice (buf frame) row (row + nw))
                        (py_range nh))
          end
      end
  | _ => Failed IndexError
  end.

(** [frame[channel]] of a 4-d array: the 3-d block of the channel. *)
Definition np_getitem (frame : ndarray) (channel : Z) : Outcome ndarray :=
  match shape frame with
  | nc :: rest =>
      match np_axis_index channel nc with
      | Failed e => Failed e
      | Done c =>
          let n := prod_shape rest in
          Done {| shape := rest; buf := slice (buf frame) (c * n) (c * n + n) |}
      end
  | [] => Failed IndexError
  end.

(** [data[::step, ::step, ::step]] of a 3-d array, for a positive [step]. *)
Definition np_stride3 (data : ndarray) (step : Z) : ndarray :=
  match shape data with
  | [nd; nh; nw] =>
      let zs := py_range_step nd step in
      let ys := py_range_step nh step in
      let xs := py_range_step nw step in
      {| shape := [Z.of_nat (length zs); Z.of_nat (length ys);
                   Z.of_nat (length xs)];
         buf := flat_map (fun z =>
                  flat_map (fun y =>
                    map (fun x => nth (Z.to_nat ((z * nh + y) * nw + x))
                                      (buf data) 0) xs) ys) zs |}
  | _ => data
  end.

(** [np.meshgrid(np.arange(w), np.arange(h), np.arange(d), indexing="xy")],
    each output flattened: the outputs have shape [(h, w, d)], the first
    varies along axis 1, the second along axis 0, the third along axis 2. *)
Definition meshgrid_xy_flat (w h d : Z) : list Z * list Z * list Z :=
  let grid (f : Z -> Z -> Z -> Z) :=
    flat_map (fun i => flat_map (fun j => map (fun k => f i j k) (py_range d))
                         (py_range w)) (py_range h) in
  (grid (fun i j k => j), grid (fun i j k => i), grid (fun i j k => k)).

(** The data arguments of [go.Volume]. *)
Record Volume : Type := mkVolume {
  vol_x : list Z;
  vol_y : list Z;
  vol_z : list Z;
  vol_value : list Z
}.

(** The sampling step of [create_3d_figure]:
    [max(1, max(depth, height, width) // max_size)] with [max_size = 32]. *)
Definition downsample_step (nd nh nw : Z) : Z :=
  Z.max 1 (Z.max nd (Z.max nh nw) / 32).

(** [create_3d_figure]: the data of the volume plot. *)
Definition create_3d_figure (frame : ndarray) (channel : Z)
  : Outcome Volume :=
  match np_getitem frame channel with
  | Failed e => Failed e
  | Done data =>
      match shape data with
      | [nd; nh; nw] =>
          let step := downsample_step nd nh nw in
          let data := if step >? 1 then np_stride3 data step else data in
          match shape data with
          | [nd; nh; nw] =>
              let '(x, y, z) := meshgrid_xy_flat nw nh nd in
              Done {| vol_x := x; vol_y := y; vol_z := z;
                      vol_value := buf data |}
          | _ => Failed IndexError
          end
      | _ => Failed IndexError
      end
  end.

(** [advance_frame], with [triggered] telling whether the callback was
    triggered by the interval and [n_frames = len(frames)]. *)
Definition advance_frame (triggered : bool) (current_frame n_frames : Z)
  : Outcome Z :=
  if triggered then
    if n_frames =? 0 then Failed ZeroDivisionError
    else Done ((current_frame + 1) mod n_frames)
  else Done current_frame.

(** The keys of the marks of the frame slider:
    [range(0, len(frames), max(1, len(frames) // 10))]. *)
Definition slider_marks (n_frames : Z) : list Z :=
  py_range_step n_frames (Z.max 1 (n_frames / 10)).

(** [advance_frame] triggered [k] times in a row by the interval. *)
Fixpoint play (k : nat) (current_frame n_frames : Z) : Outcome Z :=
  match k with
  | O => Done current_frame
  | S k' =>
      match advance_frame true current_frame n_frames with
      | Failed e => Failed e
      | Done next => play k' next n_frames
      end
  end.

(** A value that fits an unsigned 64-bit field. *)
Definition u64 (v : Z) : Prop := 0 <= v < 2 ^ 64.

(** The floats of one raw frame of a container with header [h]: as many as
    the grid has cells, each a 32-bit pattern. *)
Definition frame_ok (h : AnimationHeader) (values : list Z) : Prop :=
  Z.of_nat (length values) = width h * height h * depth h * channels h /\
  Forall (fun v => 0 <= v < 2 ^ 32) values.

(** The array that [read_frame] makes of the floats of a frame. *)
Definition frame_array (h : AnimationHeader) (values : list Z) : ndarray :=
  {| shape := [channels h; depth h; height h; width h]; buf := values |}.

(** The number of samples that [data[::step]] takes out of [n]. *)
Definition strided_count (n step : Z) : Z := (n + step - 1) / step.

(** ** Conditions on the platform used in the statements *)

(** [f.read(n)] gets its buffer: [n] is a size a bytes object can have and
    the allocation succeeds. *)
Definition can_read {plat : Platform} (n : Z) : Prop :=
  0 <= n <= bytes_max /\ alloc_ok n = true.

(** The first two statements of [read_frame]: the seek to the frame and the
    read of its payload. *)
Definition read_payload {plat : Platform} (index : FrameIndex)
  : M (list byte) :=
  f_seek (offset index) ;;; f_read (size index).

(** The shape [read_frame] passes to [np.zeros]. *)
Definition frame_shape (h : AnimationHeader) : list Z :=
  [channels h; depth h; height h; width h].

(** A header whose [dt] is not a signalling NaN: what [struct.unpack] can
    return. *)
Definition dt_quiet (h : AnimationHeader) : Prop :=
  quiet_nan32 (dt h) = dt h.

(** A platform for the examples: allocations of up to 2^30 bytes succeed and
    the file system accepts offsets up to 2^40. *)
Definition example_platform : Platform :=
  {| alloc_ok := fun n => n <=? 2 ^ 30;
     fs_limit := 2 ^ 40;
     alloc_small := fun n H =>
       proj2 (Z.leb_le n (2 ^ 30))
             (Z.le_trans n 16 (2 ^ 30) H ltac:(discriminate)) |}.

(** * Properties of the reader

    Everything in this section holds on every platform. *)

Section Reader.

Context {plat : Platform}.

(** ** Running the monad *)

Lemma bind_ok_inv {A B : Type} (c : M A) (k : A -> M B) f f' b :
  bind c k f = (f', Ok b) ->
  exists a f1, c f = (f1, Ok a) /\ k a f1 = (f', Ok b).
Proof.
  unfold bind. destruct (c f) as [f1 [a | e]]; intros H.
  - exists a, f1. split; [reflexivity | exact H].
  - discriminate H.
Qed.

Lemma bind_step {A B : Type} (c : M A) (k : A -> M B) f f1 a :
  c f = (f1, Ok a) -> bind c k f = k a f1.
Proof. unfold bind. intros ->. reflexivity. Qed.

Lemma bind_raise {A B : Type} (c : M A) (k : A -> M B) f f1 e :
  c f = (f1, Raise e) -> bind c k f = (f1, Raise e).
Proof. unfold bind. intros ->. reflexivity. Qed.

(** Comparisons on [Z] turned into facts for [lia]. *)
Ltac zcases :=
  repeat match goal with
  | |- context [Z.gtb ?a ?b] => rewrite (Z.gtb_ltb a b)
  | |- context [Z.ltb ?a ?b] => destruct (Z.ltb_spec a b)
  | |- context [Z.eqb ?a ?b] => destruct (Z.eqb_spec a b)
  | |- context [Z.leb ?a ?b] => destruct (Z.leb_spec a b)
  end; simpl; try lia.

Lemma gtb_false a b : a <= b -> (a >? b) = false.
Proof. intros H. rewrite Z.gtb_ltb. apply Z.ltb_ge. exact H. Qed.

(** A read whose buffer can be allocated never raises. *)
Lemma f_read_spec n f :
  can_read n ->
  let bs := firstn (Z.to_nat n) (skipn (Z.to_nat (pos f)) (contents f)) in
  f_read n f =
  ({| contents := contents f;
      pos := pos f + Z.of_nat (length bs);
      reads := reads f ++ [(pos f, Z.of_nat (length bs))] |}, Ok bs).
Proof.
  intros [Hn Ha] bs. unfold f_read. subst bs.
  unfold bytes_max, ssize_max in *.
  rewrite (gtb_false n (2 ^ 63 - 1)) by lia.
  replace (n <? -1) with false by (symmetry; apply Z.ltb_ge; lia).
  replace (n =? -1) with false by (symmetry; apply Z.eqb_neq; lia).
  rewrite (gtb_false n (2 ^ 63 - 1 - 33)) by lia.
  rewrite Ha. reflexivity.
Qed.

(** The fixed-size fields of the format can always be read. *)
Lemma small_size n : 0 <= n <= 16 -> can_read n.
Proof.
  intros Hn. split.
  - unfold bytes_max, ssize_max. lia.
  - apply alloc_small. lia.
Qed.

(** What a read that returns has returned. *)
Lemma f_read_ok_inv n f f' bs :
  f_read n f = (f', Ok bs) -> 0 <= n ->
  can_read n /\
  bs = firstn (Z.to_nat n) (skipn (Z.to_nat (pos f)) (contents f)) /\
  f' = {| contents := contents f;
          pos := pos f + Z.of_nat (length bs);
          reads := reads f ++ [(pos f, Z.of_nat (length bs))] |}.
Proof.
  intros H Hn. unfold f_read in H.
  destruct (n >? ssize_max); [discriminate H |].
  destruct (n <? -1); [discriminate H |].
  replace (n =? -1) with false in H by (symmetry; apply Z.eqb_neq; lia).
  destruct (Z.gtb_spec n bytes_max) as [Hb | Hb]; [discriminate H |].
  destruct (alloc_ok n) eqn:Ha; cbn [negb] in H; [| discriminate H].
  injection H as <- <-. repeat split; try assumption; lia.
Qed.

(** A seek to an offset the file system accepts. *)
Lemma f_seek_spec k f :
  0 <= k <= ssize_max -> k <= Z.max fs_limit (file_len f) ->
  f_seek k f =
  ({| contents := contents f; pos := k; reads := reads f |}, Ok k).
Proof.
  intros Hk Hl. unfold f_seek.
  rewrite (gtb_false k ssize_max) by lia.
  replace (k <? - ssize_max - 1) with false
    by (symmetry; apply Z.ltb_ge; unfold ssize_max; lia).
  replace (k <? 0) with false by (symmetry; apply Z.ltb_ge; lia).
  rewrite (gtb_false k (Z.max fs_limit (file_len f))) by lia.
  reflexivity.
Qed.

(** What a seek that returns has done. *)
Lemma f_seek_ok_inv k f f' o :
  f_seek k f = (f', Ok o) ->
  0 <= k <= ssize_max /\ k <= Z.max fs_limit (file_len f) /\ o = k /\
  f' = {| contents := contents f; pos := k; reads := reads f |}.
Proof.
  unfold f_seek. intros H.
  destruct (Z.gtb_spec k ssize_max); cbn [orb] in H; [discriminate H |].
  destruct (k <? - ssize_max - 1); [discriminate H |].
  destruct (Z.ltb_spec k 0); [discriminate H |].
  destruct (Z.gtb_spec k (Z.max fs_limit (file_len f))); [discriminate H |].
  injection H as <- <-. repeat split; lia.
Qed.

(** A read inside the file returns exactly [n] bytes. *)
Lemma f_read_inside n f :
  can_read n -> 0 <= pos f -> pos f + n <= file_len f ->
  f_read n f =
  ({| contents := contents f; pos := pos f + n;
      reads := reads f ++ [(pos f, n)] |},
   Ok (slice (contents f) (pos f) (pos f + n)))
  /\ Z.of_nat (length (slice (contents f) (pos f) (pos f + n))) = n.
Proof.
  intros Hn Hp Hl. unfold file_len in Hl. pose proof (proj1 Hn) as Hn0.
  assert (Hs : slice (contents f) (pos f) (pos f + n) =
               firstn (Z.to_nat n) (skipn (Z.to_nat (pos f)) (contents f))).
  { unfold slice. f_equal. lia. }
  assert (Hlen : Z.of_nat (length (slice (contents f) (pos f) (pos f + n))) = n).
  { rewrite Hs, length_firstn, length_skipn. lia. }
  split; [| exact Hlen].
  rewrite (f_read_spec n f Hn). cbv zeta. rewrite <- Hs, Hlen. reflexivity.
Qed.

(** ** Which exceptions a computation can raise *)

Lemma raises_only_ret {A : Type} P (a : A) : raises_only P (ret a).
Proof. intros f e H. discriminate H. Qed.

Lemma raises_only_raise {A : Type} (P : PyError -> Prop) e :
  P e -> raises_only P (@raise A e).
Proof. intros He f e' H. simpl in H. congruence. Qed.

Lemma raises_only_bind {A B : Type} P (c : M A) (k : A -> M B) :
  raises_only P c -> (forall a, raises_only P (k a)) ->
  raises_only P (bind c k).
Proof.
  intros Hc Hk f e. unfold bind. specialize (Hc f).
  destruct (c f) as [f1 [a | e1]]; simpl in *.
  - apply Hk.
  - intros H. apply Hc. injection H as ->. reflexivity.
Qed.

Lemma raises_only_read P n :
  can_read n -> raises_only P (f_read n).
Proof. intros Hn f e. rewrite (f_read_spec n f Hn). discriminate. Qed.

Lemma raises_only_unpack (P : PyError -> Prop) sz b :
  (forall got, P (StructError sz got)) -> raises_only P (lift (unpack_le sz b)).
Proof.
  intros HP f e. unfold lift, unpack_le. simpl.
  destruct (Z.of_nat (length b) =? sz); [discriminate |].
  intros H. injection H as <-. apply HP.
Qed.

Lemma raises_only_unpack_f (P : PyError -> Prop) b :
  (forall got, P (StructError 4 got)) -> raises_only P (lift (unpack_f b)).
Proof.
  intros HP f e. unfold lift, unpack_f, unpack_le. simpl.
  destruct (Z.of_nat (length b) =? 4); [discriminate |].
  intros H. injection H as <-. apply HP.
Qed.

(** ** C7: the magic tag *)

Lemma read_magic bs :
  f_read 4 (open_rb bs) = (after_magic_read bs, Ok (firstn 4 bs)).
Proof.
  rewrite f_read_spec by (apply small_size; lia).
  cbv zeta. unfold open_rb, after_magic_read. cbn [pos contents reads].
  change (Z.to_nat 0) with 0%nat. change (Z.to_nat 4) with 4%nat.
  cbn [skipn]. rewrite length_firstn. reflexivity.
Qed.

(** C7. When the first 4 bytes of the file are not b"FLWA", [read_header]
    raises the invalid-magic ValueError (the specification's BadMagic), and so
    does the whole loading block of [main]; the single read served is the one
    of the magic tag (at most 4 bytes from offset 0).  When the first 4 bytes
    are b"FLWA", [read_header] raises no invalid-magic error. *)
Theorem read_header_magic (bs : list byte) :
  (firstn 4 bs <> FLWA ->
   read_header (open_rb bs) =
     (after_magic_read bs, Raise (ValueError_InvalidMagic (firstn 4 bs))) /\
   main_load bs =
     (after_magic_read bs, Raise (ValueError_InvalidMagic (firstn 4 bs)))) /\
  (firstn 4 bs = FLWA ->
   forall m, snd (read_header (open_rb bs)) <> Raise (ValueError_InvalidMagic m)).
Proof.
  split.
  - intros Hbad.
    assert (H : read_header (open_rb bs) =
      (after_magic_read bs, Raise (ValueError_InvalidMagic (firstn 4 bs)))).
    { unfold read_header. rewrite (bind_step _ _ _ _ _ (read_magic bs)).
      destruct (list_eq_dec byte_eq_dec (firstn 4 bs) FLWA) as [E | _];
        [contradiction | reflexivity]. }
    split; [exact H |].
    unfold main_load, load_animation. apply bind_raise. exact H.
  - intros Hgood m Hr.
    unfold read_header in Hr.
    rewrite (bind_step _ _ _ _ _ (read_magic bs)) in Hr.
    destruct (list_eq_dec byte_eq_dec (firstn 4 bs) FLWA) as [_ | N];
      [| contradiction].
    revert Hr.
    match goal with |- snd (?c ?f) = _ -> _ =>
      assert (Hc : raises_only
                (fun e => forall m', e <> ValueError_InvalidMagic m') c)
    end.
    { repeat first
        [ apply raises_only_bind; [| intros ?]
        | apply raises_only_unpack; intros; discriminate
        | apply raises_only_unpack_f; intros; discriminate
        | apply raises_only_read; apply small_size; lia
        | apply raises_only_ret
        | match goal with |- raises_only _ (if ?b then _ else _) =>
            destruct b end
        | apply raises_only_raise; intros; discriminate ]. }
    intros Hr. exact (Hc _ _ Hr m eq_refl).
Qed.

(** ** The bytes of the file are never changed *)

Lemma keeps_ret {A : Type} (a : A) : keeps_contents (ret a).
Proof. intros f. reflexivity. Qed.

Lemma keeps_raise {A : Type} e : keeps_contents (@raise A e).
Proof. intros f. reflexivity. Qed.

Lemma keeps_lift {A : Type} (r : Result A) : keeps_contents (lift r).
Proof. intros f. reflexivity. Qed.

Lemma keeps_bind {A B : Type} (c : M A) (k : A -> M B) :
  keeps_contents c -> (forall a, keeps_contents (k a)) ->
  keeps_contents (bind c k).
Proof.
  intros Hc Hk f. unfold bind. specialize (Hc f).
  destruct (c f) as [f1 [a | e]]; simpl in *.
  - rewrite Hk. exact Hc.
  - exact Hc.
Qed.

Lemma keeps_read n : keeps_contents (f_read n).
Proof.
  intros f. unfold f_read. cbv zeta.
  repeat match goal with
         | |- contents (fst (if ?b then _ else _)) = _ => destruct b
         end; reflexivity.
Qed.

Lemma keeps_seek k : keeps_contents (f_seek k).
Proof.
  intros f. unfold f_seek.
  repeat match goal with
         | |- contents (fst (if ?b then _ else _)) = _ => destruct b
         end; reflexivity.
Qed.

Lemma keeps_seek_end : keeps_contents f_seek_end.
Proof. intros f. reflexivity. Qed.

Lemma keeps_tell : keeps_contents f_tell.
Proof. intros f. reflexivity. Qed.

Create HintDb keeps discriminated.
#[local] Hint Resolve keeps_ret keeps_raise keeps_lift keeps_read keeps_seek
  keeps_seek_end keeps_tell : keeps.

Ltac keeps_tac :=
  repeat first
    [ apply keeps_bind; [| intros ?]
    | match goal with |- keeps_contents (if ?b then _ else _) => destruct b end
    | solve [auto with keeps] ].

Lemma keeps_read_header : keeps_contents read_header.
Proof. unfold read_header. keeps_tac. Qed.

Lemma keeps_read_entries n acc : keeps_contents (read_entries n acc).
Proof.
  revert acc. induction n as [| n IH]; intros acc; simpl.
  - apply keeps_ret.
  - keeps_tac.
Qed.

Lemma keeps_read_frame_indices h : keeps_contents (read_frame_indices h).
Proof. unfold read_frame_indices. keeps_tac. apply keeps_read_entries. Qed.

Lemma keeps_read_frame h idx : keeps_contents (read_frame h idx).
Proof. unfold read_frame. keeps_tac. Qed.

Lemma keeps_read_frames h idxs : keeps_contents (read_frames h idxs).
Proof.
  induction idxs as [| idx rest IH]; simpl.
  - apply keeps_ret.
  - apply keeps_bind; [apply keeps_read_frame | intros fr].
    apply keeps_bind; [exact IH | intros frs; apply keeps_ret].
Qed.

(** ** The index table *)

Lemma read_unpack_inside sz f :
  0 <= sz <= 16 -> 0 <= pos f -> pos f + sz <= file_len f ->
  (b <- f_read sz ;; lift (unpack_le sz b)) f =
  ({| contents := contents f; pos := pos f + sz;
      reads := reads f ++ [(pos f, sz)] |},
   Ok (le_decode (slice (contents f) (pos f) (pos f + sz)))).
Proof.
  intros Hs Hp Hl.
  destruct (f_read_inside sz f (small_size sz Hs) Hp Hl) as [Hr Hlen].
  rewrite (bind_step _ _ _ _ _ Hr). unfold lift, unpack_le.
  rewrite Hlen, Z.eqb_refl. reflexivity.
Qed.

Lemma entries_from_S bs start n :
  entries_from bs start (S n) =
  entry_at bs start :: entries_from bs (start + 16) n.
Proof.
  unfold entries_from. rewrite <- cons_seq, <- seq_shift. cbn [map].
  rewrite map_map. f_equal.
  - f_equal. lia.
  - apply map_ext. intros i. f_equal. lia.
Qed.

Lemma entry_reads_S start n :
  entry_reads start (S n) =
  (start, 8) :: (start + 8, 8) :: entry_reads (start + 16) n.
Proof.
  unfold entry_reads. rewrite <- cons_seq, <- seq_shift. cbn [flat_map app].
  change (Z.of_nat 0) with 0. rewrite Z.mul_0_r, Z.add_0_r. do 2 f_equal.
  rewrite !flat_map_concat_map, map_map. f_equal.
  apply map_ext. intros i.
  replace (start + 16 * Z.of_nat (S i)) with (start + 16 + 16 * Z.of_nat i)
    by lia.
  reflexivity.
Qed.

Lemma length_entries_from bs start n : length (entries_from bs start n) = n.
Proof. unfold entries_from. rewrite length_map, length_seq. reflexivity. Qed.

Lemma nth_entries_from bs start n i :
  (i < n)%nat ->
  nth_error (entries_from bs start n) i =
  Some (entry_at bs (start + 16 * Z.of_nat i)).
Proof.
  intros Hi. unfold entries_from.
  rewrite nth_error_map, nth_error_nth' with (d := 0%nat)
    by (rewrite length_seq; exact Hi).
  rewrite seq_nth by exact Hi. reflexivity.
Qed.

(** The loop of [read_frame_indices] when the entries lie inside the file. *)
Lemma read_entries_inside n : forall f acc,
  0 <= pos f -> pos f + 16 * Z.of_nat n <= file_len f ->
  read_entries n acc f =
  ({| contents := contents f; pos := pos f + 16 * Z.of_nat n;
      reads := reads f ++ entry_reads (pos f) n |},
   Ok (acc ++ entries_from (contents f) (pos f) n)).
Proof.
  induction n as [| n IH]; intros f acc Hp Hl.
  - cbn [read_entries]. unfold ret, entry_reads, entries_from.
    cbn [seq map flat_map]. change (Z.of_nat 0) with 0.
    rewrite !app_nil_r, Z.mul_0_r, Z.add_0_r. destruct f; reflexivity.
  - cbn [read_entries]. unfold unpack_Q.
    assert (H16 : pos f + 16 <= file_len f) by lia.
    rewrite (bind_step _ _ _ _ _
               (read_unpack_inside 8 f ltac:(lia) Hp ltac:(lia))).
    rewrite (bind_step _ _ _ _ _
               (read_unpack_inside 8
                  {| contents := contents f; pos := pos f + 8;
                     reads := reads f ++ [(pos f, 8)] |}
                  ltac:(lia) ltac:(cbn [pos]; lia)
                  ltac:(unfold file_len in *; cbn [pos contents]; lia))).
    cbn [contents pos reads].
    rewrite IH
      by (unfold file_len in *; cbn [pos contents]; lia).
    cbn [contents pos reads].
    rewrite entries_from_S, entry_reads_S.
    f_equal.
    + f_equal; [lia |].
      rewrite <- !app_assoc. cbn [app].
      replace (pos f + 8 + 8) with (pos f + 16) by lia. reflexivity.
    + rewrite <- app_assoc. cbn [app]. unfold entry_at.
      replace (pos f + 8 + 8) with (pos f + 16) by lia. reflexivity.
Qed.

Lemma read_frame_indices_inside h f :
  0 <= frame_count h -> 0 <= index_start h f -> file_len f <= ssize_max ->
  read_frame_indices h f =
  ({| contents := contents f; pos := file_len f;
      reads := reads f ++ entry_reads (index_start h f)
                            (Z.to_nat (frame_count h)) |},
   Ok (entries_from (contents f) (index_start h f)
         (Z.to_nat (frame_count h)))).
Proof.
  unfold index_start. intros Hc Hs Hm. unfold read_frame_indices.
  unfold bind at 1. cbn [f_seek_end].
  unfold bind at 1. cbn [f_tell pos].
  unfold bind at 1.
  rewrite f_seek_spec by (unfold file_len in *; cbn [contents]; lia).
  cbn [contents reads].
  rewrite read_entries_inside by (cbn [pos contents file_len]; unfold file_len in *; cbn [contents]; lia).
  cbn [contents pos reads app]. f_equal. f_equal. lia.
Qed.

Lemma read_frame_indices_negative h f :
  index_start h f < 0 ->
  read_frame_indices h f =
  ({| contents := contents f; pos := file_len f; reads := reads f |},
   Raise (if index_start h f <? - ssize_max - 1
          then ValueError_OffsetOverflow else OSError_InvalidArgument)).
Proof.
  unfold index_start. intros Hs. unfold read_frame_indices.
  unfold bind at 1. cbn [f_seek_end].
  unfold bind at 1. cbn [f_tell pos].
  unfold bind at 1. unfold f_seek at 1.
  replace (file_len f - frame_count h * 16 >? ssize_max) with false
    by (symmetry; rewrite Z.gtb_ltb; apply Z.ltb_ge; unfold ssize_max; lia).
  cbn [orb].
  destruct (file_len f - frame_count h * 16 <? - ssize_max - 1);
    [reflexivity |].
  replace (file_len f - frame_count h * 16 <? 0) with true
    by (symmetry; apply Z.ltb_lt; lia).
  reflexivity.
Qed.

(** ** What a successful [read_header] has read *)

Lemma byte_val_range b : 0 <= byte_val b < 256.
Proof.
  unfold byte_val. pose proof (Byte.to_N_bounded b) as H. lia.
Qed.

Lemma le_decode_range bs : 0 <= le_decode bs < 256 ^ Z.of_nat (length bs).
Proof.
  induction bs as [| b rest IH]; cbn [le_decode length].
  - simpl. lia.
  - rewrite Nat2Z.inj_succ, Z.pow_succ_r by lia.
    pose proof (byte_val_range b). lia.
Qed.

Lemma read_unpack_inv sz f f1 v :
  0 <= sz <= 16 ->
  (b <- f_read sz ;; lift (unpack_le sz b)) f = (f1, Ok v) ->
  let b := firstn (Z.to_nat sz) (skipn (Z.to_nat (pos f)) (contents f)) in
  Z.of_nat (length b) = sz /\ v = le_decode b /\
  f1 = {| contents := contents f; pos := pos f + sz;
          reads := reads f ++ [(pos f, sz)] |}.
Proof.
  intros Hs H b.
  rewrite (bind_step _ _ _ _ _ (f_read_spec sz f (small_size sz Hs))) in H.
  cbv zeta in H. fold b in H. unfold lift, unpack_le in H.
  destruct (Z.eqb_spec (Z.of_nat (length b)) sz) as [E | N];
    [| discriminate H].
  rewrite E in H. injection H as <- <-. auto.
Qed.

Lemma read_unpack_f_inv f f1 v :
  (b <- f_read 4 ;; lift (unpack_f b)) f = (f1, Ok v) ->
  let b := firstn 4 (skipn (Z.to_nat (pos f)) (contents f)) in
  Z.of_nat (length b) = 4 /\ v = quiet_nan32 (le_decode b) /\
  f1 = {| contents := contents f; pos := pos f + 4;
          reads := reads f ++ [(pos f, 4)] |}.
Proof.
  intros H b.
  rewrite (bind_step _ _ _ _ _ (f_read_spec 4 f (small_size 4 ltac:(lia))))
    in H.
  cbv zeta in H. change (Z.to_nat 4) with 4%nat in H. fold b in H.
  unfold lift, unpack_f, unpack_le in H.
  destruct (Z.eqb_spec (Z.of_nat (length b)) 4) as [E | N];
    [| discriminate H].
  rewrite E in H. injection H as <- <-. auto.
Qed.

(** The fields of a header that [read_header] returned, in terms of the bytes
    at the cursor where the call started. *)
Lemma read_header_inv f f' h :
  read_header f = (f', Ok h) ->
  let field (at_ : Z) (n : nat) :=
    firstn n (skipn (Z.to_nat (pos f + at_)) (contents f)) in
  firstn 4 (skipn (Z.to_nat (pos f)) (contents f)) = FLWA /\
  le_decode (field 4 2%nat) = 1 /\
  compression h = Z.land (le_decode (field 6 2%nat)) 15 /\
  delta_encoding h = negb (Z.land (le_decode (field 6 2%nat)) 16 =? 0) /\
  width h = le_decode (field 8 4%nat) /\
  height h = le_decode (field 12 4%nat) /\
  depth h = le_decode (field 16 4%nat) /\
  channels h = le_decode (field 20 4%nat) /\
  frame_count h = le_decode (field 24 8%nat) /\
  dt h = quiet_nan32 (le_decode (field 32 4%nat)).
Proof.
  intros H field. unfold read_header in H.
  rewrite (bind_step _ _ _ _ _ (f_read_spec 4 f (small_size 4 ltac:(lia)))) in H.
  cbv zeta in H. change (Z.to_nat 4) with 4%nat in H.
  destruct (list_eq_dec byte_eq_dec
              (firstn 4 (skipn (Z.to_nat (pos f)) (contents f))) FLWA)
    as [Emagic | _]; [| discriminate H].
  rewrite Emagic in H. change (Z.of_nat (length FLWA)) with 4 in H.
  unfold unpack_H, unpack_I, unpack_Q in H.
  apply bind_ok_inv in H. destruct H as (version & f1 & Hv & H).
  apply read_unpack_inv in Hv; [| lia]. cbn [pos contents] in Hv.
  destruct Hv as (_ & Ev & ->).
  destruct (Z.eqb_spec version 1) as [E1 | _]; [| discriminate H].
  apply bind_ok_inv in H. destruct H as (flags & f2 & Hf & H).
  apply read_unpack_inv in Hf; [| lia]. cbn [pos contents] in Hf.
  destruct Hf as (_ & Ef & ->).
  apply bind_ok_inv in H. destruct H as (w & f3 & Hw & H).
  apply read_unpack_inv in Hw; [| lia]. cbn [pos contents] in Hw.
  destruct Hw as (_ & Ew & ->).
  apply bind_ok_inv in H. destruct H as (hh & f4 & Hh & H).
  apply read_unpack_inv in Hh; [| lia]. cbn [pos contents] in Hh.
  destruct Hh as (_ & Eh & ->).
  apply bind_ok_inv in H. destruct H as (d & f5 & Hd & H).
  apply read_unpack_inv in Hd; [| lia]. cbn [pos contents] in Hd.
  destruct Hd as (_ & Ed & ->).
  apply bind_ok_inv in H. destruct H as (c & f6 & Hc & H).
  apply read_unpack_inv in Hc; [| lia]. cbn [pos contents] in Hc.
  destruct Hc as (_ & Ec & ->).
  apply bind_ok_inv in H. destruct H as (n & f7 & Hn & H).
  apply read_unpack_inv in Hn; [| lia]. cbn [pos contents] in Hn.
  destruct Hn as (_ & En & ->).
  apply bind_ok_inv in H. destruct H as (t & f8 & Ht & H).
  apply read_unpack_f_inv in Ht. cbn [pos contents] in Ht.
  destruct Ht as (_ & Et & ->).
  apply bind_ok_inv in H. destruct H as (r & f9 & _ & H).
  unfold ret in H. injection H as _ <-. cbn [compression delta_encoding
    width height depth channels frame_count dt].
  unfold field.
  replace (pos f + 4 + 2) with (pos f + 6) in * by lia.
  replace (pos f + 6 + 2) with (pos f + 8) in * by lia.
  replace (pos f + 8 + 4) with (pos f + 12) in * by lia.
  replace (pos f + 12 + 4) with (pos f + 16) in * by lia.
  replace (pos f + 16 + 4) with (pos f + 20) in * by lia.
  replace (pos f + 20 + 4) with (pos f + 24) in * by lia.
  replace (pos f + 24 + 8) with (pos f + 32) in * by lia.
  change (Z.shiftl 1 4) with 16.
  change (Z.to_nat 2) with 2%nat in *. change (Z.to_nat 4) with 4%nat in *.
  change (Z.to_nat 8) with 8%nat in *.
  subst. repeat split; try reflexivity; try assumption.
Qed.

Lemma le_decode_firstn_range n bs :
  0 <= le_decode (firstn n bs) < 256 ^ Z.of_nat n.
Proof.
  pose proof (le_decode_range (firstn n bs)) as H.
  pose proof (length_firstn n bs) as L.
  assert (256 ^ Z.of_nat (length (firstn n bs)) <= 256 ^ Z.of_nat n)
    by (apply Z.pow_le_mono_r; lia).
  lia.
Qed.

(** Every parsed header has unsigned fields of the widths of the format. *)
Lemma read_header_ranges f f' h :
  read_header f = (f', Ok h) ->
  0 <= width h < 2 ^ 32 /\ 0 <= height h < 2 ^ 32 /\
  0 <= depth h < 2 ^ 32 /\ 0 <= channels h < 2 ^ 32 /\
  0 <= frame_count h < 2 ^ 64 /\ 0 <= compression h < 16.
Proof.
  intros H. apply read_header_inv in H. cbv zeta in H.
  destruct H as (_ & _ & Hc & _ & Hw & Hh & Hd & Hch & Hn & _).
  rewrite Hw, Hh, Hd, Hch, Hn, Hc.
  repeat split;
    try (apply (le_decode_firstn_range 4));
    try (apply (le_decode_firstn_range 8)).
  - apply Z.land_nonneg. right. lia.
  - change 15 with (Z.ones 4). rewrite Z.land_ones by lia.
    apply Z.mod_pos_bound. lia.
Qed.

(** ** C3: where the index table is read from *)

(** C3. For a header with a non-negative [frame_count] (every parsed header
    has one) and a file that holds [frame_count * 16] bytes,
    [read_frame_indices] seeks to [file_len - frame_count * 16] and reads
    exactly [frame_count] entries from there on, in file order, two reads of
    8 bytes per entry; entry [i] of the result is the little-endian u64 offset
    and the little-endian u64 size stored at byte [start + 16 * i]. *)
Theorem read_frame_indices_table (h : AnimationHeader) (f : File) :
  0 <= frame_count h ->
  frame_count h * 16 <= file_len f ->
  file_len f <= ssize_max ->
  let start := file_len f - frame_count h * 16 in
  let n := Z.to_nat (frame_count h) in
  exists f' indices,
    read_frame_indices h f = (f', Ok indices) /\
    contents f' = contents f /\
    reads f' = reads f ++ entry_reads start n /\
    length indices = n /\
    forall i, (i < n)%nat ->
      nth_error indices i =
      Some {| offset := le_decode (slice (contents f) (start + 16 * Z.of_nat i)
                                     (start + 16 * Z.of_nat i + 8));
              size := le_decode (slice (contents f)
                                   (start + 16 * Z.of_nat i + 8)
                                   (start + 16 * Z.of_nat i + 16)) |}.
Proof.
  intros Hc Hl Hm start n.
  assert (Hs : 0 <= index_start h f) by (unfold index_start; lia).
  eexists. eexists. split.
  - apply (read_frame_indices_inside h f Hc Hs Hm).
  - cbn [contents reads]. repeat split.
    + apply length_entries_from.
    + intros i Hi. exact (nth_entries_from _ _ _ i Hi).
Qed.

(** ** C6: a short file *)

(** C6, as the code has it.  Index parsing fails exactly when the computed
    start offset [file_len - frame_count * 16] is negative; the failure is the
    error of [f.seek] on a negative offset and no entry byte is read.  Every
    non-negative start offset is accepted, also one that lies inside the
    header region. *)
Theorem read_frame_indices_fails_iff_negative_start
    (h : AnimationHeader) (f : File) :
  0 <= frame_count h ->
  file_len f <= ssize_max ->
  (index_start h f < 0 ->
   read_frame_indices h f =
   ({| contents := contents f; pos := file_len f; reads := reads f |},
    Raise (if index_start h f <? - ssize_max - 1
           then ValueError_OffsetOverflow else OSError_InvalidArgument))) /\
  (0 <= index_start h f ->
   is_ok (snd (read_frame_indices h f)) = true).
Proof.
  intros Hc Hm. split.
  - apply read_frame_indices_negative.
  - intros Hs. rewrite (read_frame_indices_inside h f Hc Hs Hm). reflexivity.
Qed.

(** ** C10: no frames *)

(** C10. With [frame_count] = 0 the index start is the file length, the loop
    body never runs: [read_frame_indices] returns the empty list and reads no
    byte.  Nothing else checks the count: whenever [read_header] accepts a
    file and returns [frame_count] = 0, the whole loading block of [main]
    succeeds, with no index entry and no frame, having read nothing after the
    header. *)
Theorem zero_frames_accepted :
  (forall h f,
     frame_count h = 0 -> file_len f <= ssize_max ->
     read_frame_indices h f =
     ({| contents := contents f; pos := file_len f; reads := reads f |},
      Ok [])) /\
  (forall bs f1 h,
     Z.of_nat (length bs) <= ssize_max ->
     read_header (open_rb bs) = (f1, Ok h) ->
     frame_count h = 0 ->
     main_load bs =
     ({| contents := bs; pos := Z.of_nat (length bs); reads := reads f1 |},
      Ok {| a_header := h; a_indices := []; a_frames := [] |})).
Proof.
  assert (H0 : forall h f,
     frame_count h = 0 -> file_len f <= ssize_max ->
     read_frame_indices h f =
     ({| contents := contents f; pos := file_len f; reads := reads f |},
      Ok [])).
  { intros h f E Hm.
    assert (Hl : 0 <= file_len f) by (unfold file_len; lia).
    rewrite read_frame_indices_inside by (unfold index_start; lia).
    rewrite E. cbn [Z.to_nat entry_reads entries_from seq map flat_map].
    rewrite app_nil_r. reflexivity. }
  split; [exact H0 |].
  intros bs f1 h Hm Hh E.
  pose proof (keeps_read_header (open_rb bs)) as Hk.
  rewrite Hh in Hk. cbn [fst open_rb contents] in Hk.
  unfold main_load, load_animation.
  rewrite (bind_step _ _ _ _ _ Hh).
  rewrite (bind_step _ _ _ _ _
             (H0 h f1 E ltac:(unfold file_len; rewrite Hk; exact Hm))).
  cbn [read_frames]. unfold bind, ret. unfold file_len. rewrite Hk.
  reflexivity.
Qed.

(** ** C8: the flags field *)

Lemma read_header_unfold :
  read_header =
  (magic <- f_read 4 ;;
   if list_eq_dec byte_eq_dec magic FLWA then
     version <- (b <- f_read 2 ;; lift (unpack_H b)) ;;
     if version =? 1 then
       flags <- (b <- f_read 2 ;; lift (unpack_H b)) ;;
       read_header_fields (Z.land flags 15)
         (negb (Z.land flags (Z.shiftl 1 4) =? 0))
     else raise (ValueError_UnsupportedVersion version)
   else raise (ValueError_InvalidMagic magic)).
Proof. reflexivity. Qed.

Lemma sequential_ret {A : Type} (a : A) : sequential (ret a).
Proof. intros f f' H. split; [exact H | reflexivity]. Qed.

Lemma sequential_lift {A : Type} (r : Result A) : sequential (lift r).
Proof. intros f f' H. split; [exact H | reflexivity]. Qed.

Lemma sequential_bind {A B : Type} (c : M A) (k : A -> M B) :
  sequential c -> (forall a, sequential (k a)) -> sequential (bind c k).
Proof.
  intros Hc Hk f f' H. unfold bind. destruct (Hc f f' H) as [Hs Hr].
  destruct (c f) as [f1 [a | e]], (c f') as [f1' [a' | e']];
    cbn [fst snd] in *; try discriminate Hr.
  - injection Hr as <-. apply Hk. exact Hs.
  - injection Hr as <-. split; [exact Hs | reflexivity].
Qed.

Lemma sequential_read n : can_read n -> sequential (f_read n).
Proof.
  intros Hn f f' (Hp & H0 & Hr & Hs).
  rewrite (f_read_spec n f Hn), (f_read_spec n f' Hn). cbv zeta.
  cbn [fst snd]. rewrite <- Hs, <- Hp, <- Hr. split; [| reflexivity].
  unfold same_rest. cbn [pos reads contents].
  set (k := length (firstn (Z.to_nat n) (skipn (Z.to_nat (pos f)) (contents f)))).
  repeat split; try lia.
  replace (Z.to_nat (pos f + Z.of_nat k)) with (k + Z.to_nat (pos f))%nat
    by lia.
  rewrite <- !skipn_skipn, Hs, Hp. reflexivity.
Qed.

Lemma sequential_read_header_fields c d : sequential (read_header_fields c d).
Proof.
  unfold read_header_fields.
  repeat first
    [ apply sequential_bind; [| intros ?]
    | apply sequential_read; apply small_size; lia
    | apply sequential_lift
    | apply sequential_ret ].
Qed.

Lemma read_unpack_at sz bs p rd :
  0 <= sz <= 16 -> 0 <= p -> p + sz <= Z.of_nat (length bs) ->
  (b <- f_read sz ;; lift (unpack_le sz b))
    {| contents := bs; pos := p; reads := rd |} =
  ({| contents := bs; pos := p + sz; reads := rd ++ [(p, sz)] |},
   Ok (le_decode (slice bs p (p + sz)))).
Proof.
  intros Hs Hp Hl.
  apply (read_unpack_inside sz {| contents := bs; pos := p; reads := rd |} Hs Hp Hl).
Qed.

Lemma read_unpack_f_at bs p rd :
  0 <= p -> p + 4 <= Z.of_nat (length bs) ->
  (b <- f_read 4 ;; lift (unpack_f b))
    {| contents := bs; pos := p; reads := rd |} =
  ({| contents := bs; pos := p + 4; reads := rd ++ [(p, 4)] |},
   Ok (quiet_nan32 (le_decode (slice bs p (p + 4))))).
Proof.
  intros Hp Hl.
  pose proof (read_unpack_at 4 bs p rd ltac:(lia) Hp Hl) as H.
  unfold bind in *.
  destruct (f_read 4 {| contents := bs; pos := p; reads := rd |})
    as [f1 [b | e]]; [| discriminate H].
  unfold lift in *. unfold unpack_f. injection H as -> Hu.
  rewrite Hu. reflexivity.
Qed.

Ltac step_read :=
  erewrite bind_step
    by (first [apply read_unpack_at | apply read_unpack_f_at];
        [lia .. | cbn [length]; lia]).

Lemma land_16_testbit x : negb (Z.land x 16 =? 0) = Z.testbit x 4.
Proof.
  destruct (Z.testbit x 4) eqn:E.
  - destruct (Z.eqb_spec (Z.land x 16) 0) as [H0 | _]; [| reflexivity].
    assert (Hb : Z.testbit (Z.land x 16) 4 = true)
      by (rewrite Z.land_spec, E; reflexivity).
    rewrite H0 in Hb. discriminate Hb.
  - destruct (Z.eqb_spec (Z.land x 16) 0) as [_ | N]; [reflexivity |].
    exfalso. apply N. apply Z.bits_inj'. intros n Hn.
    rewrite Z.land_spec, Z.bits_0.
    change 16 with (2 ^ 4). rewrite Z.pow2_bits_eqb by lia.
    destruct (Z.eqb_spec 4 n) as [<- | _].
    + rewrite E. reflexivity.
    + apply andb_false_r.
Qed.

Lemma land_low_bits x y m k :
  Z.land x m = Z.land y m -> Z.land m k = k -> Z.land x k = Z.land y k.
Proof.
  intros H Hk. rewrite <- Hk, !Z.land_assoc, H. reflexivity.
Qed.

(** What [read_header] does on a file that starts with the magic tag and
    version 1 and holds the 36 bytes of the fields. *)
Lemma read_header_ok bs :
  firstn 4 bs = FLWA -> le_decode (slice bs 4 6) = 1 ->
  36 <= Z.of_nat (length bs) ->
  let got := Z.of_nat (length (firstn 16 (skipn 36 bs))) in
  read_header (open_rb bs) =
  ({| contents := bs; pos := 36 + got;
      reads := [(0, 4); (4, 2); (6, 2); (8, 4); (12, 4); (16, 4); (20, 4);
                (24, 8); (32, 4); (36, got)] |},
   Ok {| width := le_decode (slice bs 8 12);
         height := le_decode (slice bs 12 16);
         depth := le_decode (slice bs 16 20);
         channels := le_decode (slice bs 20 24);
         frame_count := le_decode (slice bs 24 32);
         dt := quiet_nan32 (le_decode (slice bs 32 36));
         compression := Z.land (le_decode (slice bs 6 8)) 15;
         delta_encoding :=
           negb (Z.land (le_decode (slice bs 6 8)) 16 =? 0) |}).
Proof.
  intros Hmagic Hversion Hlen got.
  rewrite read_header_unfold.
  rewrite (bind_step _ _ _ _ _ (read_magic bs)).
  destruct (list_eq_dec byte_eq_dec (firstn 4 bs) FLWA) as [_ | N];
    [| contradiction].
  unfold after_magic_read, unpack_H.
  replace (Nat.min 4 (length bs)) with 4%nat by lia.
  change (Z.of_nat 4) with 4.
  erewrite bind_step by (apply read_unpack_at; lia).
  change (4 + 2) with 6. rewrite Hversion. cbn [Z.eqb Pos.eqb].
  erewrite bind_step by (apply read_unpack_at; lia).
  change (6 + 2) with 8. change (Z.shiftl 1 4) with 16.
  unfold read_header_fields, unpack_I, unpack_Q.
  do 5 (erewrite bind_step by (apply read_unpack_at; lia)).
  erewrite bind_step by (apply read_unpack_f_at; lia).
  cbn [app].
  change (8 + 4) with 12. change (12 + 4) with 16. change (16 + 4) with 20.
  change (20 + 4) with 24. change (24 + 8) with 32. change (32 + 4) with 36.
  rewrite (bind_step _ _ _ _ _ (f_read_spec 16 _ (small_size 16 ltac:(lia)))).
  cbv zeta. cbn [pos contents reads app]. unfold ret.
  change (Z.to_nat 16) with 16%nat. change (Z.to_nat 36) with 36%nat.
  fold got. reflexivity.
Qed.

(** C8. In every header that [read_header] returns, the codec id is the low
    4 bits of the u16 at bytes 6..7 ([flags & 0x0F], that is [flags mod 16])
    and the delta flag is bit 4 of it.  Bits 5..15 play no role: two files
    that differ only in the two flag bytes, and there only above bit 4, get
    the same outcome from [read_header] (the same header, or the same
    error).  And no value of the flags is rejected: when such files start
    with the magic tag and version 1 and hold the 28 bytes of the remaining
    fields, both are parsed, to one and the same header, whose codec id and
    delta flag are the low 5 bits they share. *)
Theorem read_header_flags :
  (forall bs f' h,
     read_header (open_rb bs) = (f', Ok h) ->
     let flags := le_decode (slice bs 6 8) in
     compression h = Z.land flags 15 /\
     compression h = flags mod 16 /\
     delta_encoding h = Z.testbit flags 4) /\
  (forall pre fl fl' rest,
     length pre = 6%nat -> length fl = 2%nat -> length fl' = 2%nat ->
     Z.land (le_decode fl) 31 = Z.land (le_decode fl') 31 ->
     snd (read_header (open_rb (pre ++ fl ++ rest))) =
     snd (read_header (open_rb (pre ++ fl' ++ rest)))) /\
  (forall pre fl fl' rest,
     length pre = 6%nat -> length fl = 2%nat -> length fl' = 2%nat ->
     Z.land (le_decode fl) 31 = Z.land (le_decode fl') 31 ->
     firstn 4 pre = FLWA -> le_decode (skipn 4 pre) = 1 ->
     (28 <= length rest)%nat ->
     exists h,
       snd (read_header (open_rb (pre ++ fl ++ rest))) = Ok h /\
       snd (read_header (open_rb (pre ++ fl' ++ rest))) = Ok h /\
       compression h = Z.land (le_decode fl) 15 /\
       delta_encoding h = Z.testbit (le_decode fl) 4).
Proof.
  split; [| split].
  - intros bs f' h H flags.
    apply read_header_inv in H. cbv zeta in H.
    destruct H as (_ & _ & Hc & Hd & _).
    change (firstn 2 (skipn (Z.to_nat (pos (open_rb bs) + 6))
                        (contents (open_rb bs))))
      with (slice bs 6 8) in Hc, Hd.
    fold flags in Hc, Hd. repeat split.
    + exact Hc.
    + rewrite Hc. change 15 with (Z.ones 4). apply Z.land_ones. lia.
    + rewrite Hd. apply land_16_testbit.
  - intros pre fl fl' rest Hpre Hfl Hfl' Hbits.
    destruct pre as [| a0 [| a1 [| a2 [| a3 [| a4 [| a5 [| ? ?]]]]]]];
      try discriminate Hpre.
    destruct fl as [| b0 [| b1 [| ? ?]]]; try discriminate Hfl.
    destruct fl' as [| c0 [| c1 [| ? ?]]]; try discriminate Hfl'.
    cbn [app]. rewrite read_header_unfold.
    rewrite !(bind_step _ _ _ _ _ (read_magic _)).
    cbn [firstn].
    destruct (list_eq_dec byte_eq_dec [a0; a1; a2; a3] FLWA) as [_ | _];
      [| reflexivity].
    unfold unpack_H, after_magic_read. cbn [length Nat.min].
    change (Z.of_nat 4) with 4.
    do 2 step_read.
    cbn [pos contents reads app]. change (4 + 2) with 6.
    change (slice (a0 :: a1 :: a2 :: a3 :: a4 :: a5 :: b0 :: b1 :: rest) 4 6)
      with [a4; a5].
    change (slice (a0 :: a1 :: a2 :: a3 :: a4 :: a5 :: c0 :: c1 :: rest) 4 6)
      with [a4; a5].
    destruct (le_decode [a4; a5] =? 1); [| reflexivity].
    do 2 step_read.
    cbn [pos contents reads app]. change (6 + 2) with 8.
    change (slice (a0 :: a1 :: a2 :: a3 :: a4 :: a5 :: b0 :: b1 :: rest) 6 8)
      with [b0; b1].
    change (slice (a0 :: a1 :: a2 :: a3 :: a4 :: a5 :: c0 :: c1 :: rest) 6 8)
      with [c0; c1].
    change (Z.shiftl 1 4) with 16.
    rewrite (land_low_bits _ _ 31 15 Hbits eq_refl).
    rewrite (land_low_bits _ _ 31 16 Hbits eq_refl).
    apply sequential_read_header_fields.
    unfold same_rest. cbn [pos contents reads]. repeat split. lia.
  - intros pre fl fl' rest Hpre Hfl Hfl' Hbits Hmagic Hversion Hrest.
    destruct pre as [| a0 [| a1 [| a2 [| a3 [| a4 [| a5 [| ? ?]]]]]]];
      try discriminate Hpre.
    destruct fl as [| b0 [| b1 [| ? ?]]]; try discriminate Hfl.
    destruct fl' as [| c0 [| c1 [| ? ?]]]; try discriminate Hfl'.
    cbn [app firstn skipn] in *.
    rewrite (read_header_ok (a0 :: a1 :: a2 :: a3 :: a4 :: a5 :: b0 :: b1 :: rest))
      by (try assumption; cbn [length]; lia).
    rewrite (read_header_ok (a0 :: a1 :: a2 :: a3 :: a4 :: a5 :: c0 :: c1 :: rest))
      by (try assumption; cbn [length]; lia).
    cbv zeta. cbn [snd].
    change (slice (a0 :: a1 :: a2 :: a3 :: a4 :: a5 :: b0 :: b1 :: rest) 6 8)
      with [b0; b1].
    change (slice (a0 :: a1 :: a2 :: a3 :: a4 :: a5 :: c0 :: c1 :: rest) 6 8)
      with [c0; c1].
    eexists. split; [reflexivity |]. split; [| split].
    + rewrite <- (land_low_bits _ _ 31 15 Hbits eq_refl).
      rewrite <- (land_low_bits _ _ 31 16 Hbits eq_refl).
      reflexivity.
    + reflexivity.
    + cbn [delta_encoding]. apply land_16_testbit.
Qed.

(** ** float32 buffers *)

(** Induction on byte strings four bytes at a time. *)
Lemma bytes_ind4 (P : list byte -> Prop) :
  (forall b, (length b < 4)%nat -> P b) ->
  (forall b0 b1 b2 b3 rest, P rest -> P (b0 :: b1 :: b2 :: b3 :: rest)) ->
  forall b, P b.
Proof.
  intros Hshort Hstep.
  fix IH 1. intros b.
  destruct b as [| b0 [| b1 [| b2 [| b3 rest]]]];
    try (apply Hshort; cbn [length]; lia).
  apply Hstep. apply IH.
Qed.

Lemma decode_f32s_short b : (length b < 4)%nat -> decode_f32s b = [].
Proof.
  intros H. destruct b as [| b0 [| b1 [| b2 [| b3 rest]]]];
    try reflexivity. cbn [length] in H. lia.
Qed.

Lemma length_decode_f32s b : length (decode_f32s b) = (length b / 4)%nat.
Proof.
  induction b as [b Hb | b0 b1 b2 b3 rest IH] using bytes_ind4.
  - rewrite decode_f32s_short by exact Hb.
    symmetry. apply Nat.div_small. exact Hb.
  - cbn [decode_f32s length]. rewrite IH.
    change (S (S (S (S (length rest))))) with (4 + length rest)%nat.
    replace (4 + length rest)%nat with (length rest + 1 * 4)%nat by lia.
    rewrite Nat.div_add by lia. lia.
Qed.

Lemma decode_f32s_skipn k : forall b,
  decode_f32s (skipn (4 * k) b) = skipn k (decode_f32s b).
Proof.
  induction k as [| k IH]; intros b.
  - reflexivity.
  - replace (4 * S k)%nat with (4 + 4 * k)%nat by lia.
    destruct b as [| b0 [| b1 [| b2 [| b3 rest]]]];
      try (rewrite skipn_all2 by (cbn [length]; lia);
           cbn [decode_f32s]; rewrite skipn_nil; reflexivity).
    cbn [decode_f32s skipn Nat.add]. apply IH.
Qed.

Lemma decode_f32s_firstn k : forall b,
  decode_f32s (firstn (4 * k) b) = firstn k (decode_f32s b).
Proof.
  induction k as [| k IH]; intros b.
  - reflexivity.
  - replace (4 * S k)%nat with (4 + 4 * k)%nat by lia.
    destruct b as [| b0 [| b1 [| b2 [| b3 rest]]]];
      try (rewrite firstn_all2 by (cbn [length]; lia);
           cbn [decode_f32s]; rewrite firstn_nil; reflexivity).
    cbn [decode_f32s firstn Nat.add]. f_equal. apply IH.
Qed.

(** Item [k] of a float32 buffer is made of bytes [4k .. 4k+3]. *)
Lemma nth_decode_f32s k : forall b,
  (4 * k + 4 <= length b)%nat ->
  nth_error (decode_f32s b) k = Some (le_decode (firstn 4 (skipn (4 * k) b))).
Proof.
  induction k as [| k IH]; intros b Hb.
  - destruct b as [| b0 [| b1 [| b2 [| b3 rest]]]];
      cbn [length] in Hb; try lia. reflexivity.
  - replace (4 * S k)%nat with (4 + 4 * k)%nat by lia.
    destruct b as [| b0 [| b1 [| b2 [| b3 rest]]]];
      cbn [length] in Hb; try lia.
    cbn [decode_f32s nth_error skipn Nat.add]. apply IH. lia.
Qed.

(** ** Decoding one frame *)

(** [np.zeros] on a shape it accepts. *)
Lemma np_zeros_spec s :
  Forall (fun d => 0 <= d) s ->
  4 * prod_nonzero s <= ssize_max ->
  alloc_ok (4 * prod_shape s) = true ->
  np_zeros s =
  Ok {| shape := s; buf := repeat 0 (Z.to_nat (prod_shape s)) |}.
Proof.
  intros Hs Hp Ha. unfold np_zeros.
  replace (existsb (fun d => d <? 0) s) with false.
  - rewrite (gtb_false _ _ Hp), Ha. reflexivity.
  - symmetry. clear Hp Ha. induction Hs as [| d s Hd Hs IH]; [reflexivity |].
    cbn [existsb]. rewrite IH.
    replace (d <? 0) with false by (symmetry; apply Z.ltb_ge; exact Hd).
    reflexivity.
Qed.

(** What a call of [np.zeros] that returns has checked and returned. *)
Lemma np_zeros_ok_inv s :
  is_ok (np_zeros s) = true ->
  np_zeros s =
    Ok {| shape := s; buf := repeat 0 (Z.to_nat (prod_shape s)) |} /\
  Forall (fun d => 0 <= d) s /\
  4 * prod_nonzero s <= ssize_max /\
  alloc_ok (4 * prod_shape s) = true.
Proof.
  unfold np_zeros. intros H.
  destruct (existsb (fun d => d <? 0) s) eqn:Hneg; [discriminate H |].
  destruct (Z.gtb_spec (4 * prod_nonzero s) ssize_max) as [Hbig | Hfit];
    [discriminate H |].
  destruct (alloc_ok (4 * prod_shape s)) eqn:Ha; [| discriminate H].
  repeat split; try assumption.
  apply Forall_forall. intros d Hd.
  destruct (Z.ltb_spec d 0) as [Hlt | Hge]; [| exact Hge].
  exfalso. assert (E : existsb (fun d => d <? 0) s = true).
  { apply existsb_exists. exists d. split; [exact Hd |].
    apply Z.ltb_lt. exact Hlt. }
  rewrite E in Hneg. discriminate Hneg.
Qed.

Section DecodeFrame.

Variable header : AnimationHeader.
Hypothesis width_nonneg : 0 <= width header.
Hypothesis height_nonneg : 0 <= height header.
Hypothesis depth_nonneg : 0 <= depth header.

Let grid_size : Z := width header * height header * depth header.
Let G : nat := Z.to_nat grid_size.

Lemma grid_size_nonneg : 0 <= grid_size.
Proof. unfold grid_size. nia. Qed.

Lemma prod_block_shape :
  prod_shape [depth header; height header; width header] = grid_size.
Proof. unfold prod_shape, grid_size. cbn [fold_right]. ring. Qed.

(** The bytes of channel [c] as [read_frame] slices them. *)
Lemma channel_slice (data : list byte) (c : nat) :
  slice data (Z.of_nat c * grid_size * 4)
             (Z.of_nat c * grid_size * 4 + grid_size * 4) =
  firstn (4 * G) (skipn (4 * (c * G)) data).
Proof.
  pose proof grid_size_nonneg as Hg.
  unfold slice. f_equal.
  - unfold G. nia.
  - f_equal. unfold G. nia.
Qed.

(** A channel whose bytes are all there decodes to [G] floats. *)
Lemma channel_full (data : list byte) (c : nat) :
  (4 * ((c + 1) * G) <= length data)%nat ->
  np_frombuffer (slice data (Z.of_nat c * grid_size * 4)
                   (Z.of_nat c * grid_size * 4 + grid_size * 4)) =
  Ok (firstn G (skipn (c * G) (decode_f32s data))) /\
  length (firstn G (skipn (c * G) (decode_f32s data))) = G.
Proof.
  intros Hl. rewrite channel_slice. unfold np_frombuffer.
  rewrite length_firstn, length_skipn.
  replace (Nat.min (4 * G) (length data - 4 * (c * G))) with (4 * G)%nat
    by lia.
  replace (Z.of_nat (4 * G) mod 4) with 0
    by (rewrite Nat2Z.inj_mul, Z.mul_comm, Z.mod_mul by lia; reflexivity).
  cbn [Z.eqb]. rewrite decode_f32s_firstn, decode_f32s_skipn.
  split; [reflexivity |].
  rewrite length_firstn, length_skipn, length_decode_f32s.
  assert ((c + 1) * G <= length data / 4)%nat
    by (apply Nat.div_le_lower_bound; lia).
  lia.
Qed.

Lemma reshape_block (a : list Z) :
  length a = G ->
  np_reshape a [depth header; height header; width header] =
  Ok {| shape := [depth header; height header; width header]; buf := a |}.
Proof.
  intros Ha. unfold np_reshape. rewrite prod_block_shape, Ha.
  pose proof grid_size_nonneg.
  unfold G. rewrite Z2Nat.id by lia. rewrite Z.eqb_refl. reflexivity.
Qed.

(** The loop over the channels when the payload holds them all: channel
    blocks [c .. c+n-1] of the array are overwritten with the floats of the
    same blocks of the payload. *)
Lemma decode_channels_full (data : list byte) (n : nat) :
  forall (c : nat) (frame_data : ndarray),
  (4 * ((c + n) * G) <= length data)%nat ->
  ((c + n) * G <= length (buf frame_data))%nat ->
  Z.to_nat (prod_shape (tl (shape frame_data))) = G ->
  decode_channels n (Z.of_nat c) header data grid_size frame_data =
  Ok {| shape := shape frame_data;
        buf := firstn (c * G) (buf frame_data) ++
               firstn (n * G) (skipn (c * G) (decode_f32s data)) ++
               skipn ((c + n) * G) (buf frame_data) |}.
Proof.
  induction n as [| n IH]; intros c fd Hd Hb Hs.
  - cbn [decode_channels]. rewrite Nat.add_0_r. cbn [Nat.mul firstn app].
    rewrite firstn_skipn. destruct fd; reflexivity.
  - cbn [decode_channels].
    destruct (channel_full data c ltac:(lia)) as [Hf Hlen].
    rewrite Hf, (reshape_block _ Hlen).
    replace (Z.of_nat c + 1) with (Z.of_nat (S c)) by lia.
    set (D := decode_f32s data) in *.
    assert (HD : ((c + S n) * G <= length D)%nat).
    { unfold D. rewrite length_decode_f32s.
      apply Nat.div_le_lower_bound; lia. }
    rewrite IH.
    + unfold np_setitem. cbn [shape buf]. rewrite Hs.
      rewrite Nat2Z.id. f_equal. f_equal.
      set (B := buf fd) in *.
      set (blk := firstn G (skipn (c * G) D)) in *.
      assert (Hpre : length (firstn (c * G) B) = (c * G)%nat)
        by (rewrite length_firstn; lia).
      replace (S c * G)%nat with (c * G + G)%nat by lia.
      rewrite firstn_app, Hpre.
      rewrite (firstn_all2 (firstn (c * G) B)) by lia.
      replace (c * G + G - c * G)%nat with G by lia.
      rewrite firstn_app, Hlen, Nat.sub_diag. cbn [firstn].
      rewrite app_nil_r, (firstn_all2 blk) by lia.
      rewrite <- app_assoc. f_equal.
      replace ((S c + n) * G)%nat with (c * G + (G + (n * G)))%nat by lia.
      rewrite !skipn_app, Hpre, Hlen.
      rewrite (skipn_all2 (firstn (c * G) B)) by lia.
      rewrite (skipn_all2 blk) by lia.
      cbn [app].
      replace (c * G + (G + n * G) - c * G - G)%nat with (n * G)%nat by lia.
      rewrite skipn_skipn.
      replace (n * G + (c + 1) * G)%nat with ((c + S n) * G)%nat by lia.
      replace (c * G + (G + n * G))%nat with ((c + S n) * G)%nat by lia.
      rewrite app_assoc. f_equal.
      unfold blk.
      replace (S n * G)%nat with (G + n * G)%nat by lia.
      rewrite <- (firstn_skipn G (firstn (G + n * G) (skipn (c * G) D))).
      rewrite firstn_firstn, Nat.min_l by lia. f_equal.
      rewrite skipn_firstn_comm.
      replace (G + n * G - G)%nat with (n * G)%nat by lia.
      rewrite skipn_skipn. f_equal. f_equal. lia.
    + lia.
    + unfold np_setitem. cbn [buf shape]. rewrite Hs, Nat2Z.id.
      rewrite !length_app, length_firstn, length_skipn, Hlen. lia.
    + unfold np_setitem. cbn [shape]. exact Hs.
Qed.

Hypothesis channels_nonneg : 0 <= channels header.
Hypothesis codec_zero : compression header = 0.
Hypothesis zeros_ok : is_ok (np_zeros (frame_shape header)) = true.

Let C : nat := Z.to_nat (channels header).

Lemma expected_bytes :
  Z.to_nat (width header * height header * depth header * channels header * 4)
  = (4 * (C * G))%nat.
Proof. unfold C, G, grid_size. nia. Qed.

(** A payload that holds at least the expected number of bytes decodes to
    the floats of its first [4 * C * G] bytes. *)
Lemma decode_frame_enough (data : list byte) :
  (4 * (C * G) <= length data)%nat ->
  decode_frame header data =
  Ok {| shape := [channels header; depth header; height header; width header];
        buf := firstn (C * G) (decode_f32s data) |}.
Proof.
  intros Hl. unfold decode_frame. rewrite codec_zero. cbn [Z.eqb negb].
  fold grid_size. fold C.
  assert (Hz : Z.to_nat (prod_shape [channels header; depth header;
                                     height header; width header])
               = (C * G)%nat).
  { unfold prod_shape, C, G, grid_size. cbn [fold_right]. nia. }
  change [channels header; depth header; height header; width header]
    with (frame_shape header) at 1.
  rewrite (proj1 (np_zeros_ok_inv _ zeros_ok)). unfold frame_shape.
  change 0 with (Z.of_nat 0) at 1.
  rewrite (decode_channels_full data C 0).
  - cbn [shape buf]. rewrite Hz.
    cbn [Nat.mul Nat.add firstn skipn app].
    rewrite skipn_all2 by (rewrite repeat_length; lia).
    rewrite app_nil_r. reflexivity.
  - cbn [Nat.add]. exact Hl.
  - cbn [buf]. rewrite Hz, repeat_length. cbn [Nat.add]. lia.
  - cbn [shape tl].
    rewrite prod_block_shape. reflexivity.
Qed.

(** The loop over the channels when the payload ends inside one of the
    channels [c .. c+n-1]: numpy raises, either in [np.frombuffer] (a number
    of bytes that is no multiple of 4) or in [reshape] (too few floats). *)
Lemma decode_channels_short (data : list byte) (n : nat) :
  forall (c : nat) (frame_data : ndarray),
  (4 * (c * G) <= length data < 4 * ((c + n) * G))%nat ->
  exists e,
    decode_channels n (Z.of_nat c) header data grid_size frame_data = Raise e /\
    ((exists k, e = ValueError_BufferSize k) \/
     (exists k s, e = ValueError_Reshape k s)).
Proof.
  induction n as [| n IH]; intros c fd [Hlo Hhi].
  - lia.
  - cbn [decode_channels].
    destruct (Nat.le_gt_cases (4 * ((c + 1) * G)) (length data)) as [Hfull | Hcut].
    + destruct (channel_full data c Hfull) as [Hf Hlen].
      rewrite Hf, (reshape_block _ Hlen).
      replace (Z.of_nat c + 1) with (Z.of_nat (S c)) by lia.
      apply IH. lia.
    + rewrite channel_slice.
      set (part := firstn (4 * G) (skipn (4 * (c * G)) data)).
      assert (Hpart : (length part < 4 * G)%nat).
      { unfold part. rewrite length_firstn, length_skipn. lia. }
      unfold np_frombuffer.
      destruct (Z.eqb_spec (Z.of_nat (length part) mod 4) 0) as [Hm | Hm].
      * unfold np_reshape.
        rewrite prod_block_shape.
        destruct (Z.eqb_spec (Z.of_nat (length (decode_f32s part))) grid_size)
          as [E | _].
        -- exfalso. rewrite length_decode_f32s in E.
           assert (Hq : (length part / 4 < G)%nat)
             by (apply Nat.Div0.div_lt_upper_bound; lia).
           unfold G in Hq. lia.
        -- eexists. split; [reflexivity |]. right. eauto.
      * eexists. split; [reflexivity |]. left. eauto.
Qed.

(** A payload shorter than expected is rejected by numpy. *)
Lemma decode_frame_short (data : list byte) :
  (length data < 4 * (C * G))%nat ->
  exists e,
    decode_frame header data = Raise e /\
    ((exists k, e = ValueError_BufferSize k) \/
     (exists k s, e = ValueError_Reshape k s)).
Proof.
  intros Hl. unfold decode_frame. rewrite codec_zero. cbn [Z.eqb negb].
  fold grid_size. fold C.
  change [channels header; depth header; height header; width header]
    with (frame_shape header).
  rewrite (proj1 (np_zeros_ok_inv _ zeros_ok)).
  change 0 with (Z.of_nat 0) at 1.
  apply decode_channels_short. cbn [Nat.add Nat.mul]. lia.
Qed.

End DecodeFrame.

(** ** read_frame as a function of the file *)

(** The bytes that [read_frame] gets for an index entry. *)
(** [read_frame] is the seek and the read followed by the decoding of what
    was read. *)
Lemma read_frame_payload h idx f f1 data :
  read_payload idx f = (f1, Ok data) ->
  read_frame h idx f = (f1, decode_frame h data).
Proof.
  unfold read_payload, read_frame, bind.
  destruct (f_seek (offset idx) f) as [f0 [o | e]]; [| discriminate].
  intros ->. reflexivity.
Qed.

Lemma read_frame_payload_raise h idx f f1 e :
  read_payload idx f = (f1, Raise e) ->
  read_frame h idx f = (f1, Raise e).
Proof.
  unfold read_payload, read_frame, bind.
  destruct (f_seek (offset idx) f) as [f0 [o | e0]].
  - intros ->. reflexivity.
  - intros H. injection H as <- <-. reflexivity.
Qed.

(** The payload of an entry that the platform lets the program fetch. *)
Lemma read_payload_spec idx f :
  0 <= offset idx <= ssize_max ->
  offset idx <= Z.max fs_limit (file_len f) ->
  can_read (size idx) ->
  let data := slice (contents f) (offset idx) (offset idx + size idx) in
  read_payload idx f =
  ({| contents := contents f;
      pos := offset idx + Z.of_nat (length data);
      reads := reads f ++ [(offset idx, Z.of_nat (length data))] |},
   Ok data).
Proof.
  intros Ho Hl Hs data. unfold read_payload.
  rewrite (bind_step _ _ _ _ _ (f_seek_spec _ f Ho Hl)).
  rewrite (f_read_spec (size idx) _ Hs).
  cbv zeta. cbn [pos contents reads].
  replace (firstn (Z.to_nat (size idx))
             (skipn (Z.to_nat (offset idx)) (contents f))) with data
    by (unfold data, slice; f_equal; destruct Hs; lia).
  reflexivity.
Qed.

(** What a fetch that returns has fetched. *)
Lemma read_payload_ok_inv idx f f' data :
  read_payload idx f = (f', Ok data) -> 0 <= size idx ->
  (0 <= offset idx <= ssize_max /\
   offset idx <= Z.max fs_limit (file_len f) /\ can_read (size idx)) /\
  data = slice (contents f) (offset idx) (offset idx + size idx) /\
  f' = {| contents := contents f;
          pos := offset idx + Z.of_nat (length data);
          reads := reads f ++ [(offset idx, Z.of_nat (length data))] |}.
Proof.
  intros H Hs. unfold read_payload in H.
  apply bind_ok_inv in H. destruct H as (o & f1 & Hseek & Hread).
  apply f_seek_ok_inv in Hseek. destruct Hseek as (Ho & Hl & _ & ->).
  apply f_read_ok_inv in Hread; [| exact Hs].
  cbn [pos contents reads] in Hread. destruct Hread as (Hc & Ed & Ef).
  assert (E : data = slice (contents f) (offset idx) (offset idx + size idx)).
  { rewrite Ed. unfold slice. f_equal. lia. }
  split; [split; [exact Ho | split; [exact Hl | exact Hc]] |].
  split; [exact E | exact Ef].
Qed.

Lemma read_frame_spec h idx f :
  0 <= offset idx <= ssize_max ->
  offset idx <= Z.max fs_limit (file_len f) ->
  can_read (size idx) ->
  let data := slice (contents f) (offset idx) (offset idx + size idx) in
  read_frame h idx f =
  ({| contents := contents f;
      pos := offset idx + Z.of_nat (length data);
      reads := reads f ++ [(offset idx, Z.of_nat (length data))] |},
   decode_frame h data).
Proof.
  intros Ho Hl Hs data.
  apply read_frame_payload, read_payload_spec; assumption.
Qed.

(** [np.zeros] accepts no negative dimension. *)
Lemma frame_shape_nonneg h :
  is_ok (np_zeros (frame_shape h)) = true ->
  0 <= channels h /\ 0 <= depth h /\ 0 <= height h /\ 0 <= width h.
Proof.
  intros H. apply np_zeros_ok_inv in H. destruct H as (_ & HF & _).
  unfold frame_shape in HF.
  inversion HF as [| ? ? Hc HF1]; subst.
  inversion HF1 as [| ? ? Hd HF2]; subst.
  inversion HF2 as [| ? ? Hh HF3]; subst.
  inversion HF3 as [| ? ? Hw _]; subst.
  auto.
Qed.

(** ** C2: the layout of a raw frame *)

(** C2, as the code has it.  With codec id 0, when the seek to
    [index.offset] and [f.read(index.size)] return, the payload being what
    the read returned (the bytes of the file from [index.offset] on, at most
    [index.size] of them), and [np.zeros] returns the array of the frame
    (which it does not for every header): a payload of exactly
    [width * height * depth * channels * 4] bytes decodes to an array of
    shape [(channels, depth, height, width)] whose buffer is the payload
    read as little-endian float32 items, in order.  Channel [c] is the run of
    [depth * height * width] floats that starts at byte
    [c * depth * height * width * 4], and item [(c, z, y, x)] is the float at
    index [(z * height + y) * width + x] of that run: depth-major, then
    row-major.  The delta flag plays no role. *)
Theorem read_frame_raw_layout
    (h : AnimationHeader) (idx : FrameIndex) (f f' : File)
    (payload : list byte) :
  compression h = 0 ->
  read_payload idx f = (f', Ok payload) ->
  is_ok (np_zeros (frame_shape h)) = true ->
  let n := depth h * height h * width h in
  Z.of_nat (length payload) = width h * height h * depth h * channels h * 4 ->
  (0 <= size idx ->
   payload = slice (contents f) (offset idx) (offset idx + size idx)) /\
  exists frame,
    read_frame h idx f = (f', Ok frame) /\
    shape frame = [channels h; depth h; height h; width h] /\
    buf frame = decode_f32s payload /\
    (forall c, 0 <= c < channels h ->
       slice (buf frame) (c * n) (c * n + n) =
       decode_f32s (slice payload (c * n * 4) (c * n * 4 + n * 4))) /\
    (forall c z y x,
       0 <= c < channels h -> 0 <= z < depth h ->
       0 <= y < height h -> 0 <= x < width h ->
       let k := c * n + (z * height h + y) * width h + x in
       np_item4 frame c z y x =
       Some (le_decode (slice payload (k * 4) (k * 4 + 4)))).
Proof.
  intros Hcodec Hp Hz n Hlen.
  destruct (frame_shape_nonneg h Hz) as (Hc & Hd & Hh & Hw).
  split; [intros Hs; apply (read_payload_ok_inv _ _ _ _ Hp Hs) |].
  rewrite (read_frame_payload h idx f f' payload Hp).
  set (G := Z.to_nat (width h * height h * depth h)).
  set (C := Z.to_nat (channels h)).
  assert (Hn : Z.to_nat n = G) by (unfold n, G; f_equal; ring).
  assert (Hn0 : 0 <= n) by (unfold n; nia).
  assert (HL : length payload = (4 * (C * G))%nat).
  { pose proof (expected_bytes h Hc) as He. unfold C, G. lia. }
  assert (HD : length (decode_f32s payload) = (C * G)%nat).
  { rewrite length_decode_f32s, HL, Nat.mul_comm, Nat.div_mul by lia.
    reflexivity. }
  rewrite (decode_frame_enough h Hw Hh Hd Hc Hcodec Hz payload)
    by (fold C G; lia).
  fold C G. rewrite firstn_all2 by lia.
  eexists. split; [reflexivity |]. cbn [shape buf].
  split; [reflexivity |]. split; [reflexivity |]. split.
  - intros c Hcr. unfold slice.
    replace (Z.to_nat (c * n + n) - Z.to_nat (c * n))%nat with G by nia.
    replace (Z.to_nat (c * n * 4 + n * 4) - Z.to_nat (c * n * 4))%nat
      with (4 * G)%nat by nia.
    replace (Z.to_nat (c * n * 4)) with (4 * Z.to_nat (c * n))%nat by nia.
    rewrite decode_f32s_firstn, decode_f32s_skipn. reflexivity.
  - intros c z y x Hcr Hzr Hyr Hxr.
    set (k := c * n + (z * height h + y) * width h + x).
    unfold np_item4. cbn [shape buf].
    assert (Hidx : ((c * depth h + z) * height h + y) * width h + x = k)
      by (unfold k, n; ring).
    rewrite Hidx.
    assert (Hk0 : 0 <= k) by (unfold k; nia).
    assert (Hk1 : k + 1 <= channels h * n).
    { assert (H1 : (z * height h + y) + 1 <= depth h * height h) by nia.
      assert (H2 : (z * height h + y) * width h + x + 1 <= n).
      { unfold n.
        assert ((z * height h + y) * width h + width h
                <= depth h * height h * width h) by nia.
        lia. }
      assert (H3 : c * n + n <= channels h * n) by nia.
      unfold k. lia. }
    assert (HCn : Z.of_nat (C * G) = channels h * n).
    { unfold C. rewrite <- Hn. nia. }
    rewrite nth_decode_f32s by lia.
    unfold slice.
    replace (Z.to_nat (k * 4 + 4) - Z.to_nat (k * 4))%nat with 4%nat by lia.
    replace (Z.to_nat (k * 4)) with (4 * Z.to_nat k)%nat by lia.
    reflexivity.
Qed.

(** ** C5: the length of the payload *)

(** [np.zeros] comes before the loop over the channels: when it raises, so
    does the decoding, whatever the payload. *)
Lemma decode_frame_zeros_raise h data e :
  compression h = 0 ->
  np_zeros (frame_shape h) = Raise e ->
  decode_frame h data = Raise e.
Proof.
  intros Hcodec Hz. unfold decode_frame. rewrite Hcodec. cbn [Z.eqb negb].
  change [channels h; depth h; height h; width h] with (frame_shape h).
  rewrite Hz. reflexivity.
Qed.

(** C5, as the code has it.  [read_frame] has no check of the payload length
    of its own.  With codec id 0, once the seek and the read have returned a
    payload: when [np.zeros] raises (the array of a frame whose dimensions
    fit the 32 bits of the format is too big, or cannot be allocated),
    [read_frame] raises that error whatever the length of the payload; when
    it returns, a payload shorter than
    [width * height * depth * channels * 4] bytes makes numpy raise a
    ValueError, in [np.frombuffer] or in [reshape], and a payload at least
    that long is accepted: its first
    [width * height * depth * channels * 4] bytes are decoded and the rest
    is ignored. *)
Theorem read_frame_payload_length
    (h : AnimationHeader) (idx : FrameIndex) (f f' : File)
    (payload : list byte) :
  compression h = 0 ->
  read_payload idx f = (f', Ok payload) ->
  let expected := width h * height h * depth h * channels h * 4 in
  (Forall (fun d => 0 <= d < 2 ^ 32) (frame_shape h) ->
   forall e, np_zeros (frame_shape h) = Raise e ->
     read_frame h idx f = (f', Raise e)) /\
  (is_ok (np_zeros (frame_shape h)) = true ->
   (Z.of_nat (length payload) < expected ->
    exists e,
      read_frame h idx f = (f', Raise e) /\
      ((exists k, e = ValueError_BufferSize k) \/
       (exists k s, e = ValueError_Reshape k s))) /\
   (expected <= Z.of_nat (length payload) ->
    read_frame h idx f =
    (f', Ok {| shape := [channels h; depth h; height h; width h];
               buf := decode_f32s (slice payload 0 expected) |}))).
Proof.
  intros Hcodec Hp expected.
  rewrite (read_frame_payload h idx f f' payload Hp).
  split.
  - intros _ e Hz. rewrite (decode_frame_zeros_raise h payload e Hcodec Hz).
    reflexivity.
  - intros Hz. destruct (frame_shape_nonneg h Hz) as (Hc & Hd & Hh & Hw).
    pose proof (expected_bytes h Hc) as He. fold expected in He.
    split; intros Hlen.
    + destruct (decode_frame_short h Hw Hh Hd Hcodec Hz payload ltac:(lia))
        as (e & He' & Hkind).
      exists e. rewrite He'. split; [reflexivity | exact Hkind].
    + rewrite (decode_frame_enough h Hw Hh Hd Hc Hcodec Hz payload) by lia.
      unfold slice. change (Z.to_nat 0) with 0%nat.
      rewrite Nat.sub_0_r, He. cbn [skipn].
      rewrite decode_f32s_firstn. reflexivity.
Qed.

(** ** What earlier calls leave behind *)

Lemma oblivious_ret {A : Type} (a : A) : oblivious (ret a).
Proof. intros f f' H. split; [exact H | reflexivity]. Qed.

Lemma oblivious_raise {A : Type} e : oblivious (@raise A e).
Proof. intros f f' H. split; [exact H | reflexivity]. Qed.

Lemma oblivious_lift {A : Type} (r : Result A) : oblivious (lift r).
Proof. intros f f' H. split; [exact H | reflexivity]. Qed.

Lemma oblivious_bind {A B : Type} (c : M A) (k : A -> M B) :
  oblivious c -> (forall a, oblivious (k a)) -> oblivious (bind c k).
Proof.
  intros Hc Hk f f' H. unfold bind. destruct (Hc f f' H) as [Hs Hr].
  destruct (c f) as [f1 [a | e]], (c f') as [f1' [a' | e']];
    cbn [fst snd] in *; try discriminate Hr.
  - injection Hr as <-. apply Hk. exact Hs.
  - injection Hr as <-. split; [exact Hs | reflexivity].
Qed.

Lemma oblivious_read n : oblivious (f_read n).
Proof.
  intros f f' [Hc Hp]. unfold f_read, same_file. cbv zeta.
  rewrite Hc, Hp.
  repeat match goal with
         | |- context [if ?b then _ else _] => destruct b
         end; cbn [fst snd contents pos]; auto.
Qed.

Lemma oblivious_seek k : oblivious (f_seek k).
Proof.
  intros f f' [Hc Hp]. unfold f_seek, same_file, file_len.
  rewrite Hc.
  repeat match goal with
         | |- context [if ?b then _ else _] => destruct b
         end; cbn [fst snd contents pos]; auto.
Qed.

Lemma oblivious_seek_end : oblivious f_seek_end.
Proof.
  intros f f' [Hc Hp]. unfold f_seek_end, same_file, file_len.
  cbn [fst snd contents pos]. rewrite Hc. auto.
Qed.

Lemma oblivious_tell : oblivious f_tell.
Proof.
  intros f f' [Hc Hp]. unfold f_tell, same_file.
  cbn [fst snd]. rewrite Hp. auto.
Qed.

Create HintDb oblivious discriminated.
#[local] Hint Resolve oblivious_ret oblivious_raise oblivious_lift
  oblivious_read oblivious_seek oblivious_seek_end oblivious_tell : oblivious.

Ltac oblivious_tac :=
  repeat first
    [ apply oblivious_bind; [| intros ?]
    | match goal with |- oblivious (if ?b then _ else _) => destruct b end
    | solve [auto with oblivious] ].

Lemma oblivious_read_header : oblivious read_header.
Proof. unfold read_header. oblivious_tac. Qed.

Lemma oblivious_read_entries n acc : oblivious (read_entries n acc).
Proof.
  revert acc. induction n as [| n IH]; intros acc; cbn [read_entries].
  - apply oblivious_ret.
  - oblivious_tac.
Qed.

Lemma oblivious_read_frame h idx : oblivious (read_frame h idx).
Proof. unfold read_frame. oblivious_tac. Qed.

(** After an absolute seek only the bytes of the file matter. *)
Lemma seek_forgets_cursor {A : Type} (c : M A) k f f' :
  oblivious c -> contents f = contents f' ->
  snd ((f_seek k ;;; c) f) = snd ((f_seek k ;;; c) f').
Proof.
  intros Hc Hf. unfold bind, f_seek, file_len. rewrite Hf.
  destruct ((k >? ssize_max) || (k <? - ssize_max - 1)); [reflexivity |].
  destruct (k <? 0); [reflexivity |].
  destruct (k >? Z.max fs_limit (Z.of_nat (length (contents f'))));
    [reflexivity |].
  apply Hc. split; reflexivity.
Qed.

Lemma seek_end_forgets_cursor {A : Type} (c : M A) f f' :
  oblivious c -> contents f = contents f' ->
  snd ((f_seek_end ;;; c) f) = snd ((f_seek_end ;;; c) f').
Proof.
  intros Hc Hf. unfold bind, f_seek_end.
  apply Hc. split; cbn [contents pos]; [exact Hf |].
  unfold file_len. rewrite Hf. reflexivity.
Qed.

Lemma read_frame_contents_only h idx f f' :
  contents f = contents f' ->
  snd (read_frame h idx f) = snd (read_frame h idx f').
Proof.
  intros Hf. unfold read_frame. apply seek_forgets_cursor; [| exact Hf].
  oblivious_tac.
Qed.

Lemma read_frame_indices_contents_only h f f' :
  contents f = contents f' ->
  snd (read_frame_indices h f) = snd (read_frame_indices h f').
Proof.
  intros Hf. unfold read_frame_indices.
  apply seek_end_forgets_cursor; [| exact Hf].
  oblivious_tac. apply oblivious_read_entries.
Qed.

Lemma reread_header_contents_only f f' :
  contents f = contents f' ->
  snd (reread_header f) = snd (reread_header f').
Proof.
  intros Hf. unfold reread_header.
  apply seek_forgets_cursor; [apply oblivious_read_header | exact Hf].
Qed.

(** Each frame of the list that [main] loads is what [read_frame] returns for
    its own index entry. *)
Lemma read_frames_pointwise h idxs : forall f f' frames,
  read_frames h idxs f = (f', Ok frames) ->
  Forall2 (fun idx frame => snd (read_frame h idx f) = Ok frame) idxs frames.
Proof.
  induction idxs as [| idx rest IH]; intros f f' frames H.
  - cbn [read_frames] in H. unfold ret in H. injection H as _ <-. constructor.
  - cbn [read_frames] in H.
    apply bind_ok_inv in H. destruct H as (fr & f1 & H1 & H).
    apply bind_ok_inv in H. destruct H as (frs & f2 & H2 & H).
    unfold ret in H. injection H as _ <-.
    constructor.
    + rewrite H1. reflexivity.
    + pose proof (IH f1 f2 frs H2) as HF. revert HF.
      apply Forall2_impl. intros idx' fr' E. rewrite <- E.
      apply read_frame_contents_only.
      pose proof (keeps_read_frame h idx f) as K. rewrite H1 in K.
      symmetry. exact K.
Qed.

Lemma decode_channels_set_delta b n : forall c h data gs fd,
  decode_channels n c (set_delta h b) data gs fd =
  decode_channels n c h data gs fd.
Proof.
  induction n as [| n IH]; intros c h data gs fd; cbn [decode_channels].
  - reflexivity.
  - cbn [set_delta depth height width].
    destruct (np_frombuffer _) as [a | e]; [| reflexivity].
    destruct (np_reshape _ _) as [blk | e]; [| reflexivity].
    apply IH.
Qed.

Lemma decode_frame_set_delta h b data :
  decode_frame (set_delta h b) data = decode_frame h data.
Proof.
  unfold decode_frame.
  cbn [set_delta compression width height depth channels].
  destruct (negb (compression h =? 0)); [reflexivity |].
  destruct (np_zeros [channels h; depth h; height h; width h]);
    [apply decode_channels_set_delta | reflexivity].
Qed.

Lemma read_frame_set_delta h b idx f :
  read_frame (set_delta h b) idx f = read_frame h idx f.
Proof.
  unfold read_frame, bind.
  destruct (f_seek (offset idx) f) as [f1 [a | e]]; [| reflexivity].
  destruct (f_read (size idx) f1) as [f2 [data | e]]; [| reflexivity].
  unfold lift. rewrite decode_frame_set_delta. reflexivity.
Qed.

Lemma read_frames_set_delta h b idxs : forall f,
  read_frames (set_delta h b) idxs f = read_frames h idxs f.
Proof.
  induction idxs as [| idx rest IH]; intros f; cbn [read_frames].
  - reflexivity.
  - unfold bind. rewrite read_frame_set_delta.
    destruct (read_frame h idx f) as [f1 [fr | e]]; [| reflexivity].
    rewrite IH. reflexivity.
Qed.

(** [read_frame] serves at most one read, at the offset of the entry. *)
Lemma read_frame_reads h idx f :
  exists l,
    reads (fst (read_frame h idx f)) = reads f ++ l /\
    (length l <= 1)%nat /\
    forall p n, In (p, n) l -> p = offset idx.
Proof.
  unfold read_frame, bind, f_seek.
  destruct ((offset idx >? ssize_max) || (offset idx <? - ssize_max - 1)).
  { exists []. cbn. rewrite app_nil_r. repeat split; [lia | contradiction]. }
  destruct (offset idx <? 0).
  { exists []. cbn. rewrite app_nil_r. repeat split; [lia | contradiction]. }
  destruct (offset idx >? Z.max fs_limit (file_len f)).
  { exists []. cbn. rewrite app_nil_r. repeat split; [lia | contradiction]. }
  unfold f_read. cbn [pos contents reads].
  destruct (size idx >? ssize_max).
  { exists []. cbn. rewrite app_nil_r. repeat split; [lia | contradiction]. }
  destruct (size idx <? -1).
  { exists []. cbn. rewrite app_nil_r. repeat split; [lia | contradiction]. }
  cbv zeta.
  destruct (_ >? bytes_max).
  { exists []. cbn. rewrite app_nil_r. repeat split; [lia | contradiction]. }
  destruct (negb (alloc_ok _)).
  { exists []. cbn. rewrite app_nil_r. repeat split; [lia | contradiction]. }
  eexists [_]. cbn [fst lift reads]. repeat split.
  - cbn. lia.
  - intros p n [E | []]. injection E as <- _. reflexivity.
Qed.

(** ** C1: the delta flag *)

(** C1, as the code has it.  [read_frame] never looks at the delta flag and
    takes no reference frame: with the flag set or clear it returns the same
    thing, the stored grid of the entry decoded as absolute values, for frame
    0 and for every later frame alike.  Each frame of the list that [main]
    loads is what [read_frame] returns for its own index entry; nothing of
    frame i-1 enters frame i. *)
Theorem delta_flag_ignored (h : AnimationHeader) (f : File) :
  (forall b idx, read_frame (set_delta h b) idx f = read_frame h idx f) /\
  (forall b idxs, read_frames (set_delta h b) idxs f = read_frames h idxs f) /\
  (forall idxs f' frames,
     read_frames h idxs f = (f', Ok frames) ->
     Forall2 (fun idx frame => snd (read_frame h idx f) = Ok frame)
       idxs frames).
Proof.
  repeat split.
  - intros b idx. apply read_frame_set_delta.
  - intros b idxs. apply read_frames_set_delta.
  - intros idxs f' frames. apply read_frames_pointwise.
Qed.

(** ** C4: a codec id other than 0 *)

(** C4, as the code has it.  There is no codec registry, and the codec id
    is looked at only after the seek and the read of the frame.  For every
    header whose codec id is not 0: when the seek or the read raises,
    [read_frame] raises that error; when they return, [read_frame] raises one
    and the same ValueError ("Compression not supported in viewer (yet)",
    which does not carry the id), so the list of frames cannot be loaded.
    The failed call changes nothing but the cursor and the read log of the
    file: its bytes are the same, and any later [read_frame] returns what it
    would have returned without it.  With codec id 0 the bytes read are
    decoded as the raw float payload, as they are. *)
Theorem nonzero_codec_rejected
    (h : AnimationHeader) (idx : FrameIndex) (f : File) :
  compression h <> 0 ->
  (forall f' e,
     read_payload idx f = (f', Raise e) ->
     read_frame h idx f = (f', Raise e)) /\
  (forall f' payload,
     read_payload idx f = (f', Ok payload) ->
     read_frame h idx f = (f', Raise ValueError_CompressionNotSupported) /\
     (forall rest,
        read_frames h (idx :: rest) f =
        (f', Raise ValueError_CompressionNotSupported)) /\
     contents f' = contents f /\
     (forall h' idx',
        snd (read_frame h' idx' f') = snd (read_frame h' idx' f)) /\
     read_frame (set_compression h 0) idx f =
     (f', decode_frame (set_compression h 0) payload)).
Proof.
  intros Hc. split.
  - intros f' e Hp. apply read_frame_payload_raise. exact Hp.
  - intros f' payload Hp.
    assert (H1 : read_frame h idx f =
                 (f', Raise ValueError_CompressionNotSupported)).
    { rewrite (read_frame_payload h idx f f' payload Hp).
      unfold decode_frame.
      destruct (Z.eqb_spec (compression h) 0) as [E | _]; [contradiction |].
      reflexivity. }
    assert (Hk : contents f' = contents f).
    { pose proof (keeps_read_frame h idx f) as K. rewrite H1 in K.
      exact K. }
    split; [exact H1 |]. split.
    { intros rest. cbn [read_frames]. apply bind_raise. exact H1. }
    split; [exact Hk |]. split.
    { intros h' idx'. apply read_frame_contents_only. exact Hk. }
    apply read_frame_payload. exact Hp.
Qed.

(** ** C9: the header and the index are parsed once and stay as they are *)

(** C9. Decoding a frame, whether it succeeds or raises, leaves the bytes of
    the file as they are and serves at most one read, at the offset of the
    frame: the header and the index are not read again, and parsing them
    again afterwards would give what it gave before.  The same holds for
    decoding any list of frames.  The loading block of [main] parses the
    header and the index once, before any frame: the header and the index
    entries it ends with are the ones parsed when the container was opened. *)
Theorem decoding_leaves_header_and_index (h : AnimationHeader) (f : File) :
  (forall idx,
     let f' := fst (read_frame h idx f) in
     contents f' = contents f /\
     (exists l, reads f' = reads f ++ l /\ (length l <= 1)%nat /\
                forall p n, In (p, n) l -> p = offset idx) /\
     snd (reread_header f') = snd (reread_header f) /\
     forall h0, snd (read_frame_indices h0 f') = snd (read_frame_indices h0 f)) /\
  (forall idxs,
     let f' := fst (read_frames h idxs f) in
     contents f' = contents f /\
     snd (reread_header f') = snd (reread_header f) /\
     forall h0, snd (read_frame_indices h0 f') = snd (read_frame_indices h0 f)) /\
  (forall bs f' a,
     main_load bs = (f', Ok a) ->
     snd (open_container (open_rb bs)) = Ok (a_header a, a_indices a) /\
     contents f' = bs).
Proof.
  repeat split.
  - apply keeps_read_frame.
  - apply read_frame_reads.
  - apply reread_header_contents_only, keeps_read_frame.
  - intros h0. apply read_frame_indices_contents_only, keeps_read_frame.
  - apply keeps_read_frames.
  - apply reread_header_contents_only, keeps_read_frames.
  - intros h0. apply read_frame_indices_contents_only, keeps_read_frames.
  - unfold main_load, load_animation in H.
    apply bind_ok_inv in H. destruct H as (hd & f1 & H1 & H).
    apply bind_ok_inv in H. destruct H as (idxs & f2 & H2 & H).
    apply bind_ok_inv in H. destruct H as (frs & f3 & H3 & H).
    unfold ret in H. injection H as _ <-. cbn [a_header a_indices].
    unfold open_container.
    rewrite (bind_step _ _ _ _ _ H1), (bind_step _ _ _ _ _ H2).
    reflexivity.
  - unfold main_load, load_animation in H.
    apply bind_ok_inv in H. destruct H as (hd & f1 & H1 & H).
    apply bind_ok_inv in H. destruct H as (idxs & f2 & H2 & H).
    apply bind_ok_inv in H. destruct H as (frs & f3 & H3 & H).
    unfold ret in H. injection H as <- _.
    pose proof (keeps_read_header (open_rb bs)) as K1. rewrite H1 in K1.
    pose proof (keeps_read_frame_indices hd f1) as K2. rewrite H2 in K2.
    pose proof (keeps_read_frames hd idxs f2) as K3. rewrite H3 in K3.
    cbn [fst] in *. rewrite K3, K2, K1. reflexivity.
Qed.

(** * Properties of the rest of the reader and of the viewer *)

(** ** Little-endian encoding *)

Lemma byte_of_val x :
  0 <= x < 256 ->
  byte_val (match Byte.of_N (Z.to_N x) with Some b => b | None => x00 end) = x.
Proof.
  intros Hx. unfold byte_val.
  destruct (Byte.of_N (Z.to_N x)) as [b |] eqn:E.
  - apply Byte.to_of_N in E. rewrite E. lia.
  - apply Byte.of_N_None_iff in E. lia.
Qed.

Lemma le_encode_S n v :
  le_encode (S n) v =
  match Byte.of_N (Z.to_N (v mod 256)) with Some b => b | None => x00 end
  :: le_encode n (v / 256).
Proof.
  unfold le_encode. rewrite <- cons_seq, <- seq_shift. cbn [map].
  rewrite map_map. f_equal.
  - change (Z.of_nat 0) with 0. rewrite Z.pow_0_r, Z.div_1_r. reflexivity.
  - apply map_ext. intros i.
    rewrite Nat2Z.inj_succ, Z.pow_succ_r by lia.
    rewrite Z.div_div by lia. reflexivity.
Qed.

Lemma length_le_encode n v : length (le_encode n v) = n.
Proof. unfold le_encode. rewrite length_map, length_seq. reflexivity. Qed.

Lemma le_decode_encode n : forall v,
  0 <= v < 256 ^ Z.of_nat n -> le_decode (le_encode n v) = v.
Proof.
  induction n as [| n IH]; intros v Hv.
  - cbn in Hv. cbn. lia.
  - rewrite le_encode_S. cbn [le_decode].
    rewrite byte_of_val by (apply Z.mod_pos_bound; lia).
    rewrite Nat2Z.inj_succ, Z.pow_succ_r in Hv by lia.
    rewrite IH.
    + pose proof (Z.div_mod v 256 ltac:(lia)). lia.
    + split.
      * apply Z.div_pos; lia.
      * apply Z.div_lt_upper_bound; lia.
Qed.

Lemma land_flags c (d : bool) rb :
  0 <= c < 16 -> 0 <= rb ->
  Z.land (flags_of c d rb) 15 = c /\
  negb (Z.land (flags_of c d rb) 16 =? 0) = d.
Proof.
  intros Hc Hrb. unfold flags_of. split.
  - change 15 with (Z.ones 4). rewrite Z.land_ones by lia.
    replace (c + (if d then 16 else 0) + 32 * rb)
      with (c + ((if d then 1 else 0) + 2 * rb) * 2 ^ 4)
      by (destruct d; lia).
    rewrite Z.mod_add by lia. apply Z.mod_small. lia.
  - rewrite land_16_testbit, Z.testbit_odd, Z.shiftr_div_pow2 by lia.
    replace (c + (if d then 16 else 0) + 32 * rb)
      with (c + ((if d then 1 else 0) + 2 * rb) * 2 ^ 4)
      by (destruct d; lia).
    rewrite Z.div_add, Z.div_small by lia. cbn [Z.add].
    destruct d.
    + replace (1 + 2 * rb) with (2 * rb + 1) by lia. apply Z.odd_odd.
    + replace (0 + 2 * rb) with (2 * rb) by lia. apply Z.odd_even.
Qed.

(** The header bytes parse back, whatever follows them. *)
Lemma read_header_encoded
    (h : AnimationHeader) (reserved_bits : Z) (rest : list byte) :
  header_in_range h -> dt_quiet h -> 0 <= reserved_bits < 2 ^ 11 ->
  exists f1,
    read_header (open_rb (encode_header h reserved_bits ++ rest)) =
      (f1, Ok h) /\
    contents f1 = encode_header h reserved_bits ++ rest /\
    pos f1 = 36 + Z.min 16 (Z.of_nat (length rest)).
Proof.
  intros (Hw & Hh & Hd & Hc & Hn & Ht & Hk) Hq Hrb.
  set (bs := encode_header h reserved_bits ++ rest).
  assert (Hlen : Z.of_nat (length bs) = 36 + Z.of_nat (length rest)).
  { unfold bs. rewrite length_app.
    change (length (encode_header h reserved_bits)) with 36%nat. lia. }
  assert (Hfl : 0 <= flags_of (compression h) (delta_encoding h) reserved_bits
                < 256 ^ Z.of_nat 2).
  { unfold flags_of. destruct (delta_encoding h); lia. }
  rewrite (read_header_ok bs).
  - cbv zeta. eexists. split; [| split].
    + f_equal. unfold bs.
      change (slice (encode_header h reserved_bits ++ rest) 8 12)
        with (le_encode 4 (width h)).
      change (slice (encode_header h reserved_bits ++ rest) 12 16)
        with (le_encode 4 (height h)).
      change (slice (encode_header h reserved_bits ++ rest) 16 20)
        with (le_encode 4 (depth h)).
      change (slice (encode_header h reserved_bits ++ rest) 20 24)
        with (le_encode 4 (channels h)).
      change (slice (encode_header h reserved_bits ++ rest) 24 32)
        with (le_encode 8 (frame_count h)).
      change (slice (encode_header h reserved_bits ++ rest) 32 36)
        with (le_encode 4 (dt h)).
      change (slice (encode_header h reserved_bits ++ rest) 6 8)
        with (le_encode 2 (flags_of (compression h) (delta_encoding h)
                             reserved_bits)).
      rewrite !le_decode_encode by (try exact Hfl; simpl; lia).
      destruct (land_flags (compression h) (delta_encoding h) reserved_bits
                  Hk ltac:(lia)) as [-> ->].
      rewrite Hq. destruct h; reflexivity.
    + reflexivity.
    + cbn [pos]. unfold bs.
      change (skipn 36 (encode_header h reserved_bits ++ rest)) with rest.
      rewrite length_firstn. lia.
  - reflexivity.
  - unfold bs.
    change (slice (encode_header h reserved_bits ++ rest) 4 6)
      with (le_encode 2 1).
    reflexivity.
  - lia.
Qed.

(** X1. Round trip of the header.  For every header whose fields fit the
    widths of the format and whose [dt] is not a signalling NaN (unpacking
    would quiet it), and every value of the reserved flag bits, the 36
    bytes laid out as magic, version 1, flags, width, height, depth,
    channels, frame_count, dt (little-endian) parse back to that header,
    whatever follows them; the cursor ends after the reserved region, at 52
    when the file has it whole. *)
Theorem read_header_roundtrip
    (h : AnimationHeader) (reserved_bits : Z) (rest : list byte) :
  header_in_range h -> dt_quiet h -> 0 <= reserved_bits < 2 ^ 11 ->
  snd (read_header (open_rb (encode_header h reserved_bits ++ rest))) = Ok h /\
  pos (fst (read_header (open_rb (encode_header h reserved_bits ++ rest)))) =
  36 + Z.min 16 (Z.of_nat (length rest)).
Proof.
  intros Hh Hq Hrb.
  destruct (read_header_encoded h reserved_bits rest Hh Hq Hrb)
    as (f1 & E & _ & Hp).
  rewrite E. split; [reflexivity | exact Hp].
Qed.

(** X2. A file that starts with the magic tag and whose version field is not
    1 is rejected with the unsupported-version ValueError, which carries the
    version read; six bytes have been read by then, in two reads, and the
    loading block of [main] fails in the same way. *)
Theorem read_header_unsupported_version (bs : list byte) :
  firstn 4 bs = FLWA ->
  6 <= Z.of_nat (length bs) ->
  le_decode (slice bs 4 6) <> 1 ->
  read_header (open_rb bs) =
    ({| contents := bs; pos := 6; reads := [(0, 4); (4, 2)] |},
     Raise (ValueError_UnsupportedVersion (le_decode (slice bs 4 6)))) /\
  main_load bs =
    ({| contents := bs; pos := 6; reads := [(0, 4); (4, 2)] |},
     Raise (ValueError_UnsupportedVersion (le_decode (slice bs 4 6)))).
Proof.
  intros Hmagic Hlen Hversion.
  assert (H : read_header (open_rb bs) =
    ({| contents := bs; pos := 6; reads := [(0, 4); (4, 2)] |},
     Raise (ValueError_UnsupportedVersion (le_decode (slice bs 4 6))))).
  { rewrite read_header_unfold.
    rewrite (bind_step _ _ _ _ _ (read_magic bs)).
    destruct (list_eq_dec byte_eq_dec (firstn 4 bs) FLWA) as [_ | N];
      [| contradiction].
    unfold after_magic_read, unpack_H.
    replace (Nat.min 4 (length bs)) with 4%nat by lia.
    change (Z.of_nat 4) with 4.
    erewrite bind_step by (apply read_unpack_at; lia).
    change (4 + 2) with 6.
    destruct (Z.eqb_spec (le_decode (slice bs 4 6)) 1) as [E | _];
      [contradiction |].
    reflexivity. }
  split; [exact H |].
  unfold main_load, load_animation. apply bind_raise. exact H.
Qed.

(** A header that was parsed had its 36 bytes of fields. *)
Lemma read_header_ok_length bs f' h :
  read_header (open_rb bs) = (f', Ok h) -> 36 <= Z.of_nat (length bs).
Proof.
  intros H. rewrite read_header_unfold in H.
  rewrite (bind_step _ _ _ _ _ (read_magic bs)) in H.
  destruct (list_eq_dec byte_eq_dec (firstn 4 bs) FLWA) as [_ | _];
    [| discriminate H].
  unfold unpack_H in H.
  apply bind_ok_inv in H. destruct H as (version & f1 & Hv & H).
  apply read_unpack_inv in Hv; [| lia]. destruct Hv as (_ & _ & ->).
  destruct (version =? 1); [| discriminate H].
  apply bind_ok_inv in H. destruct H as (flags & f2 & Hf & H).
  apply read_unpack_inv in Hf; [| lia]. destruct Hf as (_ & _ & ->).
  unfold read_header_fields, unpack_I, unpack_Q in H.
  apply bind_ok_inv in H. destruct H as (w & f3 & Hw & H).
  apply read_unpack_inv in Hw; [| lia]. destruct Hw as (_ & _ & ->).
  apply bind_ok_inv in H. destruct H as (hh & f4 & Hh & H).
  apply read_unpack_inv in Hh; [| lia]. destruct Hh as (_ & _ & ->).
  apply bind_ok_inv in H. destruct H as (d & f5 & Hd & H).
  apply read_unpack_inv in Hd; [| lia]. destruct Hd as (_ & _ & ->).
  apply bind_ok_inv in H. destruct H as (c & f6 & Hc & H).
  apply read_unpack_inv in Hc; [| lia]. destruct Hc as (_ & _ & ->).
  apply bind_ok_inv in H. destruct H as (n & f7 & Hn & H).
  apply read_unpack_inv in Hn; [| lia]. destruct Hn as (_ & _ & ->).
  apply bind_ok_inv in H. destruct H as (t & f8 & Ht & _).
  apply read_unpack_f_inv in Ht. destruct Ht as (Hl & _ & _).
  cbn [pos contents after_magic_read] in Hl.
  rewrite length_firstn, length_skipn in Hl. lia.
Qed.

(** After the magic tag and the version, [read_header] raises nothing but
    [struct.error]. *)
Lemma read_header_fields_errors c d :
  raises_only (fun e => exists a b, e = StructError a b)
    (read_header_fields c d).
Proof.
  unfold read_header_fields.
  repeat first
    [ apply raises_only_bind; [| intros ?]
    | apply raises_only_unpack; intros; eauto
    | apply raises_only_unpack_f; intros; eauto
    | apply raises_only_read; apply small_size; lia
    | apply raises_only_ret ].
Qed.

(** X3. [read_header] accepts a file exactly when it starts with the magic
    tag, has version 1 and holds at least the 36 bytes of the fields: the
    16 reserved bytes that follow are read but need not be there, and no
    field value is ever rejected.  A file with the right magic tag and
    version that is shorter than 36 bytes fails with [struct.error]. *)
Theorem read_header_ok_iff (bs : list byte) :
  (is_ok (snd (read_header (open_rb bs))) = true <->
   firstn 4 bs = FLWA /\ le_decode (slice bs 4 6) = 1 /\
   36 <= Z.of_nat (length bs)) /\
  (firstn 4 bs = FLWA -> le_decode (slice bs 4 6) = 1 ->
   6 <= Z.of_nat (length bs) < 36 ->
   exists a b, snd (read_header (open_rb bs)) = Raise (StructError a b)).
Proof.
  split; [split |].
  - intros Hok.
    destruct (read_header (open_rb bs)) as [f' [h | e]] eqn:E;
      [| discriminate Hok].
    pose proof (read_header_ok_length bs f' h E) as Hlen.
    apply read_header_inv in E. cbv zeta in E.
    destruct E as (Hm & Hv & _).
    repeat split; [exact Hm | exact Hv | exact Hlen].
  - intros (Hm & Hv & Hlen). rewrite (read_header_ok bs Hm Hv Hlen).
    reflexivity.
  - intros Hm Hv Hlen.
    destruct (read_header (open_rb bs)) as [f' [h | e]] eqn:E.
    + apply read_header_ok_length in E. lia.
    + cbn [snd]. rewrite read_header_unfold in E.
      rewrite (bind_step _ _ _ _ _ (read_magic bs)) in E.
      destruct (list_eq_dec byte_eq_dec (firstn 4 bs) FLWA) as [_ | N];
        [| contradiction].
      unfold after_magic_read, unpack_H in E.
      replace (Nat.min 4 (length bs)) with 4%nat in E by lia.
      change (Z.of_nat 4) with 4 in E.
      erewrite bind_step in E by (apply read_unpack_at; lia).
      change (4 + 2) with 6 in E. rewrite Hv in E. cbn [Z.eqb Pos.eqb] in E.
      match type of E with ?c ?f = _ =>
        assert (R : raises_only (fun e => exists a b, e = StructError a b) c);
        [| specialize (R f e) ]
      end.
      { apply raises_only_bind.
        - apply raises_only_bind.
          + apply raises_only_read, small_size. lia.
          + intros b. apply raises_only_unpack. intros; eauto.
        - intros flags. apply read_header_fields_errors. }
      rewrite E in R. destruct (R eq_refl) as (a & b & ->). eauto.
Qed.

(** Quieting a NaN keeps a pattern within 32 bits. *)
Lemma quiet_nan32_range p : 0 <= p < 2 ^ 32 -> 0 <= quiet_nan32 p < 2 ^ 32.
Proof.
  intros Hp. unfold quiet_nan32. destruct (is_nan32 p); [| exact Hp].
  split.
  - apply Z.lor_nonneg. lia.
  - destruct (Z.eq_dec p 0) as [-> | Hnz]; [reflexivity |].
    apply Z.log2_lt_pow2.
    + assert (0 <= Z.lor p (2 ^ 22)) by (apply Z.lor_nonneg; lia).
      assert (Z.lor p (2 ^ 22) <> 0).
      { intros E. apply Z.lor_eq_0_iff in E. lia. }
      lia.
    + rewrite Z.log2_lor by lia.
      apply Z.max_lub_lt.
      * apply Z.log2_lt_pow2; lia.
      * reflexivity.
Qed.

(** X4. Every header that [read_header] returns has fields within the
    unsigned widths of the format: 32 bits for the four dimensions and for
    [dt], 64 bits for [frame_count], 4 bits for the codec id.  Zero is a
    value like any other: no dimension is checked to be positive. *)
Theorem parsed_header_in_range (f f' : File) (h : AnimationHeader) :
  read_header f = (f', Ok h) -> header_in_range h.
Proof.
  intros H. pose proof (read_header_ranges f f' h H)
    as (Hw & Hh & Hd & Hc & Hn & Hk).
  apply read_header_inv in H. cbv zeta in H.
  destruct H as (_ & _ & _ & _ & _ & _ & _ & _ & _ & Ht).
  pose proof (quiet_nan32_range _
                (le_decode_firstn_range 4
                   (skipn (Z.to_nat (pos f + 32)) (contents f)))) as Hq.
  rewrite <- Ht in Hq.
  unfold header_in_range. repeat split; lia.
Qed.

(** ** Slices of concatenations *)

Lemma slice_mid {A : Type} (pre x post : list A) :
  slice (pre ++ x ++ post) (Z.of_nat (length pre))
        (Z.of_nat (length pre) + Z.of_nat (length x)) = x.
Proof.
  unfold slice.
  replace (Z.to_nat (Z.of_nat (length pre) + Z.of_nat (length x))
           - Z.to_nat (Z.of_nat (length pre)))%nat with (length x) by lia.
  rewrite Nat2Z.id, skipn_app, skipn_all, Nat.sub_diag. cbn [app skipn].
  rewrite firstn_app, firstn_all, Nat.sub_diag. cbn [firstn].
  apply app_nil_r.
Qed.

Lemma slice_mid' {A : Type} (pre x post : list A) a b :
  a = Z.of_nat (length pre) -> b = a + Z.of_nat (length x) ->
  slice (pre ++ x ++ post) a b = x.
Proof. intros -> ->. apply slice_mid. Qed.

(** ** Round trip of the index table *)

Lemma length_encode_index es :
  length (encode_index es) = (16 * length es)%nat.
Proof.
  induction es as [| e es IH]; cbn [encode_index flat_map length].
  - reflexivity.
  - rewrite !length_app, !length_le_encode. fold (encode_index es).
    rewrite IH. lia.
Qed.

Lemma entries_from_encoded es : forall pre post,
  Forall (fun e => u64 (offset e) /\ u64 (size e)) es ->
  entries_from (pre ++ encode_index es ++ post) (Z.of_nat (length pre))
    (length es) = es.
Proof.
  induction es as [| e es IH]; intros pre post Hes.
  - reflexivity.
  - inversion Hes as [| e' es' [Ho Hs] Hes' ]; subst.
    cbn [length]. rewrite entries_from_S. cbn [encode_index flat_map].
    fold (encode_index es). rewrite <- !app_assoc. f_equal.
    + unfold entry_at.
      rewrite (slice_mid' pre (le_encode 8 (offset e)))
        by (rewrite ?length_le_encode; lia).
      replace (pre ++ le_encode 8 (offset e) ++ le_encode 8 (size e) ++
               encode_index es ++ post)
        with ((pre ++ le_encode 8 (offset e)) ++ le_encode 8 (size e) ++
              encode_index es ++ post) by (rewrite <- app_assoc; reflexivity).
      rewrite (slice_mid' (pre ++ le_encode 8 (offset e))
                 (le_encode 8 (size e)))
        by (rewrite ?length_app, ?length_le_encode; lia).
      rewrite !le_decode_encode by (unfold u64 in *; simpl; lia).
      destruct e; reflexivity.
    + replace (pre ++ le_encode 8 (offset e) ++ le_encode 8 (size e) ++
               encode_index es ++ post)
        with ((pre ++ le_encode 8 (offset e) ++ le_encode 8 (size e)) ++
              encode_index es ++ post)
        by (rewrite <- !app_assoc; reflexivity).
      replace (Z.of_nat (length pre) + 16)
        with (Z.of_nat (length (pre ++ le_encode 8 (offset e) ++
                                le_encode 8 (size e))))
        by (rewrite !length_app, !length_le_encode; lia).
      apply IH. exact Hes'.
Qed.

(** The index table at the end of a file parses back. *)
Lemma read_frame_indices_encoded h f pre es :
  contents f = pre ++ encode_index es ->
  frame_count h = Z.of_nat (length es) ->
  Forall (fun e => u64 (offset e) /\ u64 (size e)) es ->
  file_len f <= ssize_max ->
  read_frame_indices h f =
  ({| contents := contents f; pos := file_len f;
      reads := reads f ++ entry_reads (Z.of_nat (length pre)) (length es) |},
   Ok es).
Proof.
  intros Hc Hn Hes Hm.
  assert (Hl : file_len f = Z.of_nat (length pre) + 16 * Z.of_nat (length es)).
  { unfold file_len. rewrite Hc, length_app, length_encode_index. lia. }
  assert (Hs : index_start h f = Z.of_nat (length pre))
    by (unfold index_start; lia).
  rewrite read_frame_indices_inside by lia.
  rewrite Hs, Hn, Nat2Z.id. f_equal. f_equal.
  rewrite Hc.
  rewrite <- (app_nil_r (encode_index es)) at 1.
  apply entries_from_encoded. exact Hes.
Qed.

(** X5. Round trip of opening a container.  A file made of the bytes of a
    header (with [frame_count] entries announced, and a [dt] that is not a
    signalling NaN), any bytes at all for the reserved region and for the
    place where the frames go, and an index table of that many entries at
    its end, opens to that header and those entries, in order: the position
    of the table is found from the file length alone. *)
Theorem open_container_roundtrip
    (h : AnimationHeader) (reserved_bits : Z)
    (reserved body : list byte) (entries : list FrameIndex) :
  header_in_range h -> dt_quiet h -> 0 <= reserved_bits < 2 ^ 11 ->
  frame_count h = Z.of_nat (length entries) ->
  Forall (fun e => u64 (offset e) /\ u64 (size e)) entries ->
  let bs := encode_header h reserved_bits ++ reserved ++ body ++
            encode_index entries in
  Z.of_nat (length bs) <= ssize_max ->
  snd (open_container (open_rb bs)) = Ok (h, entries).
Proof.
  intros Hh Hq Hrb Hn Hes bs Hm.
  destruct (read_header_encoded h reserved_bits
              (reserved ++ body ++ encode_index entries) Hh Hq Hrb)
    as (f1 & E & Hc & _).
  fold bs in E, Hc.
  unfold open_container. rewrite (bind_step _ _ _ _ _ E).
  assert (Hc' : contents f1 =
                (encode_header h reserved_bits ++ reserved ++ body) ++
                encode_index entries).
  { rewrite Hc. unfold bs. rewrite <- !app_assoc. reflexivity. }
  rewrite (bind_step _ _ _ _ _
             (read_frame_indices_encoded h f1 _ entries Hc' Hn Hes
                ltac:(unfold file_len; rewrite Hc; exact Hm))).
  reflexivity.
Qed.

(** ** Loading the list of frames *)

Lemma read_frames_all_ok h idxs : forall f frs,
  Forall2 (fun idx fr => snd (read_frame h idx f) = Ok fr) idxs frs ->
  snd (read_frames h idxs f) = Ok frs.
Proof.
  induction idxs as [| idx rest IH]; intros f frs H.
  - inversion H; subst. reflexivity.
  - inversion H as [| idx' fr rest' frs' Hhd Htl]; subst.
    cbn [read_frames]. unfold bind.
    destruct (read_frame h idx f) as [f1 [fr1 | e]] eqn:E;
      cbn [snd] in Hhd; [| discriminate Hhd].
    injection Hhd as ->.
    assert (Hc : contents f1 = contents f).
    { pose proof (keeps_read_frame h idx f) as K. rewrite E in K. exact K. }
    assert (Htl' : Forall2 (fun idx fr => snd (read_frame h idx f1) = Ok fr)
                     rest frs').
    { revert Htl. apply Forall2_impl. intros i x Hx. rewrite <- Hx.
      apply read_frame_contents_only. exact Hc. }
    specialize (IH f1 frs' Htl').
    destruct (read_frames h rest f1) as [f2 [frs2 | e]]; cbn [snd] in IH.
    + injection IH as ->. reflexivity.
    + discriminate IH.
Qed.

(** X6. The list comprehension of [main] succeeds exactly when [read_frame]
    succeeds on every index entry, and then frame [i] of the list is what
    [read_frame] returns for entry [i] read on its own: the order of the
    reads and the place where the cursor was left do not matter, and there
    are as many frames as entries. *)
Theorem read_frames_ok_iff
    (h : AnimationHeader) (idxs : list FrameIndex) (f : File)
    (frames : list ndarray) :
  (snd (read_frames h idxs f) = Ok frames <->
   Forall2 (fun idx frame => snd (read_frame h idx f) = Ok frame)
     idxs frames) /\
  (snd (read_frames h idxs f) = Ok frames -> length frames = length idxs).
Proof.
  assert (Hfwd : snd (read_frames h idxs f) = Ok frames ->
    Forall2 (fun idx frame => snd (read_frame h idx f) = Ok frame)
      idxs frames).
  { intros H. destruct (read_frames h idxs f) as [f' r] eqn:E.
    cbn [snd] in H. subst r.
    exact (read_frames_pointwise h idxs f f' frames E). }
  split; [split |].
  - exact Hfwd.
  - apply read_frames_all_ok.
  - intros H. symmetry. exact (Forall2_length (Hfwd H)).
Qed.

(** X7. Loading stops at the first index entry that [read_frame] rejects:
    the exception of that entry is what the list comprehension raises,
    whatever the entries after it are, and the frames decoded before it are
    not returned. *)
Theorem read_frames_first_error
    (h : AnimationHeader) (good : list FrameIndex) (bad : FrameIndex)
    (rest : list FrameIndex) (f : File) (e : PyError) :
  Forall (fun idx => is_ok (snd (read_frame h idx f)) = true) good ->
  snd (read_frame h bad f) = Raise e ->
  snd (read_frames h (good ++ bad :: rest) f) = Raise e.
Proof.
  revert f bad rest e.
  induction good as [| idx good IH]; intros f bad rest e Hgood Hbad.
  - cbn [app read_frames]. unfold bind.
    destruct (read_frame h bad f) as [f1 [fr | e1]]; cbn [snd] in *.
    + discriminate Hbad.
    + injection Hbad as ->. reflexivity.
  - inversion Hgood as [| idx' good' Hhd Htl]; subst.
    cbn [app read_frames]. unfold bind.
    destruct (read_frame h idx f) as [f1 [fr | e1]] eqn:E;
      cbn [snd is_ok] in Hhd; [| discriminate Hhd].
    assert (Hc : contents f1 = contents f).
    { pose proof (keeps_read_frame h idx f) as K. rewrite E in K. exact K. }
    assert (H1 : snd (read_frames h (good ++ bad :: rest) f1) = Raise e).
    { apply IH.
      - revert Htl. apply Forall_impl. intros i Hi. rewrite <- Hi.
        f_equal. apply read_frame_contents_only. exact Hc.
      - rewrite <- Hbad. apply read_frame_contents_only. exact Hc. }
    destruct (read_frames h (good ++ bad :: rest) f1) as [f2 [frs | e2]];
      cbn [snd] in H1.
    + discriminate H1.
    + injection H1 as ->. reflexivity.
Qed.

(** ** Round trip of a whole container *)

Lemma length_encode_frame fr :
  length (encode_frame fr) = (4 * length fr)%nat.
Proof.
  induction fr as [| v fr IH]; cbn [encode_frame flat_map length].
  - reflexivity.
  - rewrite length_app, length_le_encode. fold (encode_frame fr).
    rewrite IH. lia.
Qed.

Lemma decode_encode_frame fr :
  Forall (fun v => 0 <= v < 2 ^ 32) fr -> decode_f32s (encode_frame fr) = fr.
Proof.
  induction 1 as [| v fr Hv Hfr IH]; cbn [encode_frame flat_map].
  - reflexivity.
  - fold (encode_frame fr).
    pose proof (le_decode_encode 4 v ltac:(simpl; lia)) as Hd.
    pose proof (length_le_encode 4 v) as Hl.
    destruct (le_encode 4 v) as [| b0 [| b1 [| b2 [| b3 [| ? ?]]]]];
      try discriminate Hl.
    cbn [app decode_f32s]. rewrite Hd, IH. reflexivity.
Qed.

Lemma frame_entries_S start k n :
  frame_entries start k (S n) =
  {| offset := start; size := k |} :: frame_entries (start + k) k n.
Proof.
  unfold frame_entries. rewrite <- cons_seq, <- seq_shift. cbn [map].
  rewrite map_map. f_equal.
  - f_equal. change (Z.of_nat 0) with 0. lia.
  - apply map_ext. intros i. f_equal. lia.
Qed.

Lemma Forall2_map_right {A B C : Type} (R : A -> C -> Prop) (g : B -> C) :
  forall l l', Forall2 (fun a b => R a (g b)) l l' -> Forall2 R l (map g l').
Proof. induction 1; cbn [map]; constructor; assumption. Qed.

(** Each frame stored back to back decodes to its floats. *)
Lemma read_frame_encoded_all h f :
  is_ok (np_zeros (frame_shape h)) = true ->
  compression h = 0 ->
  forall frames pre post,
  (frames <> [] -> can_read (frame_size h)) ->
  contents f = pre ++ flat_map encode_frame frames ++ post ->
  Forall (frame_ok h) frames ->
  Z.of_nat (length pre) + Z.of_nat (length frames) * frame_size h
    <= ssize_max ->
  Forall2 (fun idx fr => snd (read_frame h idx f) = Ok (frame_array h fr))
    (frame_entries (Z.of_nat (length pre)) (frame_size h) (length frames))
    frames.
Proof.
  intros Hz Hcodec.
  destruct (frame_shape_nonneg h Hz) as (Hc & Hd & Hh & Hw).
  assert (Hfs : 0 <= frame_size h) by (unfold frame_size; nia).
  induction frames as [| fr frames IH]; intros pre post Hread Hcont Hok Hmax.
  - constructor.
  - inversion Hok as [| fr' frames' [Hlen Hval] Hok']; subst.
    assert (Hbytes : Z.of_nat (length (encode_frame fr)) = frame_size h).
    { rewrite length_encode_frame. unfold frame_size. lia. }
    assert (Hcan : can_read (frame_size h)) by (apply Hread; discriminate).
    cbn [length] in *. rewrite frame_entries_S. constructor.
    + rewrite read_frame_spec;
        [| cbn [offset size]; nia
         | cbn [offset size]; unfold file_len; rewrite Hcont, length_app; lia
         | cbn [offset size]; exact Hcan].
      cbv zeta. cbn [snd offset size].
      cbn [flat_map] in Hcont. rewrite <- app_assoc in Hcont.
      rewrite Hcont.
      rewrite (slice_mid' pre (encode_frame fr)) by lia.
      rewrite (decode_frame_enough h Hw Hh Hd Hc Hcodec Hz).
      * unfold frame_array. f_equal. f_equal.
        rewrite decode_encode_frame by exact Hval.
        apply firstn_all2.
        pose proof (expected_bytes h Hc) as He. fold (frame_size h) in He.
        lia.
      * pose proof (expected_bytes h Hc) as He. fold (frame_size h) in He.
        lia.
    + replace (Z.of_nat (length pre) + frame_size h)
        with (Z.of_nat (length (pre ++ encode_frame fr)))
        by (rewrite length_app; lia).
      apply (IH (pre ++ encode_frame fr) post).
      * intros _. exact Hcan.
      * rewrite Hcont. cbn [flat_map]. rewrite <- !app_assoc. reflexivity.
      * exact Hok'.
      * rewrite length_app. nia.
Qed.

Lemma length_flat_encode_frame h frames :
  Forall (frame_ok h) frames ->
  Z.of_nat (length (flat_map encode_frame frames)) =
  Z.of_nat (length frames) * frame_size h.
Proof.
  induction 1 as [| fr frames [Hlen _] _ IH]; cbn [flat_map length].
  - lia.
  - rewrite length_app, length_encode_frame. unfold frame_size in *. lia.
Qed.

Lemma length_frame_entries start k n :
  length (frame_entries start k n) = n.
Proof. unfold frame_entries. rewrite length_map, length_seq. reflexivity. Qed.

Lemma frame_entries_u64 start k n :
  0 <= start -> 0 <= k -> start + Z.of_nat n * k < 2 ^ 64 ->
  Forall (fun e => u64 (offset e) /\ u64 (size e)) (frame_entries start k n).
Proof.
  intros Hs Hk Hmax. apply Forall_forall. intros e He.
  unfold frame_entries in He. apply in_map_iff in He.
  destruct He as (i & <- & Hi). apply in_seq in Hi.
  cbn [offset size]. unfold u64. nia.
Qed.

(** The loading block of [main] on a container laid out as the reader
    expects. *)
Lemma main_load_encoded
    (h : AnimationHeader) (reserved_bits : Z) (reserved : list byte)
    (frames : list (list Z)) :
  header_in_range h -> dt_quiet h -> compression h = 0 ->
  is_ok (np_zeros (frame_shape h)) = true ->
  0 <= reserved_bits < 2 ^ 11 ->
  length reserved = 16%nat ->
  frame_count h = Z.of_nat (length frames) ->
  Forall (frame_ok h) frames ->
  Z.of_nat (length (encode_container h reserved_bits reserved frames))
    <= ssize_max ->
  snd (main_load (encode_container h reserved_bits reserved frames)) =
  Ok {| a_header := h;
        a_indices := frame_entries 52 (frame_size h) (length frames);
        a_frames := map (frame_array h) frames |}.
Proof.
  intros Hrange Hq Hcodec Hz Hrb Hres Hn Hok Hmax.
  pose proof Hrange as (Hw & Hh & Hd & Hc & _).
  assert (Hfs : 0 <= frame_size h) by (unfold frame_size; nia).
  set (entries := frame_entries 52 (frame_size h) (length frames)) in *.
  set (bs := encode_container h reserved_bits reserved frames) in *.
  pose proof (length_flat_encode_frame h frames Hok) as Hpay.
  assert (Hlen : Z.of_nat (length bs) =
                 52 + Z.of_nat (length frames) * frame_size h +
                 16 * Z.of_nat (length frames)).
  { unfold bs, encode_container.
    rewrite !length_app, length_encode_index.
    change (length (encode_header h reserved_bits)) with 36%nat.
    fold entries. unfold entries at 1. rewrite length_frame_entries. lia. }
  destruct (read_header_encoded h reserved_bits
              (reserved ++ flat_map encode_frame frames ++
               encode_index entries) Hrange Hq Hrb)
    as (f1 & E1 & Hc1 & _).
  change (encode_header h reserved_bits ++ reserved ++
          flat_map encode_frame frames ++ encode_index entries)
    with bs in E1, Hc1.
  unfold main_load, load_animation.
  rewrite (bind_step _ _ _ _ _ E1).
  assert (Hc1' : contents f1 =
                 (encode_header h reserved_bits ++ reserved ++
                  flat_map encode_frame frames) ++ encode_index entries).
  { rewrite Hc1. unfold bs, encode_container. fold entries.
    rewrite <- !app_assoc. reflexivity. }
  assert (Hu : Forall (fun e => u64 (offset e) /\ u64 (size e)) entries).
  { apply frame_entries_u64; try lia. unfold ssize_max in Hmax. lia. }
  assert (Hne : frame_count h = Z.of_nat (length entries))
    by (unfold entries; rewrite length_frame_entries; exact Hn).
  rewrite (bind_step _ _ _ _ _
             (read_frame_indices_encoded h f1 _ entries Hc1' Hne Hu
                ltac:(unfold file_len; rewrite Hc1; exact Hmax))).
  match goal with |- snd (bind _ _ ?f2) = _ => set (g := f2) end.
  assert (Hg : contents g =
               (encode_header h reserved_bits ++ reserved) ++
               flat_map encode_frame frames ++ encode_index entries).
  { unfold g. cbn [contents]. rewrite Hc1'. rewrite <- !app_assoc.
    reflexivity. }
  assert (H52 : Z.of_nat (length (encode_header h reserved_bits ++ reserved))
                = 52).
  { rewrite length_app, Hres.
    change (length (encode_header h reserved_bits)) with 36%nat.
    reflexivity. }
  assert (Hread : frames <> [] -> can_read (frame_size h)).
  { intros Hsome. split.
    - assert (1 <= Z.of_nat (length frames))
        by (destruct frames; [contradiction | cbn [length]; lia]).
      unfold bytes_max. split; [exact Hfs | nia].
    - pose proof (np_zeros_ok_inv _ Hz) as (_ & _ & _ & Ha).
      replace (frame_size h) with (4 * prod_shape (frame_shape h));
        [exact Ha |].
      unfold frame_size, frame_shape, prod_shape. cbn [fold_right]. ring. }
  pose proof (read_frame_encoded_all h g Hz Hcodec frames _ _ Hread Hg Hok
                ltac:(rewrite H52; lia)) as HF.
  rewrite H52 in HF. fold entries in HF.
  apply (Forall2_map_right
           (fun idx fr => snd (read_frame h idx g) = Ok fr)
           (frame_array h)) in HF.
  apply read_frames_all_ok in HF.
  unfold bind. destruct (read_frames h entries g) as [f3 [frs | e]];
    cbn [snd] in HF.
  - injection HF as ->. reflexivity.
  - discriminate HF.
Qed.

(** X8. Round trip of a whole container.  Take a header with codec id 0
    whose fields fit the format, whose [dt] is not a signalling NaN and for
    whose frame shape [np.zeros] returns an array; a reserved region of 16
    bytes; and as many frames as the header announces, each with one 32-bit
    float pattern per cell of the grid.  Lay them out as the reader expects: header, reserved
    region, the raw frames back to back from byte 52 on, and the index table
    of their offsets and sizes at the end.  Then the loading block of [main]
    returns that header, those index entries and, for every frame, the array
    of shape (channels, depth, height, width) holding exactly its floats. *)
Theorem container_roundtrip
    (h : AnimationHeader) (reserved_bits : Z) (reserved : list byte)
    (frames : list (list Z)) :
  header_in_range h -> dt_quiet h -> compression h = 0 ->
  is_ok (np_zeros (frame_shape h)) = true ->
  0 <= reserved_bits < 2 ^ 11 ->
  length reserved = 16%nat ->
  frame_count h = Z.of_nat (length frames) ->
  Forall (frame_ok h) frames ->
  Z.of_nat (length (encode_container h reserved_bits reserved frames))
    <= ssize_max ->
  snd (main_load (encode_container h reserved_bits reserved frames)) =
  Ok {| a_header := h;
        a_indices := frame_entries 52 (frame_size h) (length frames);
        a_frames := map (frame_array h) frames |}.
Proof. apply main_load_encoded. Qed.

(** ** Ranges and slices *)

Lemma nth_error_slice {A : Type} (l : list A) s e i :
  0 <= s -> (i < Z.to_nat e - Z.to_nat s)%nat ->
  nth_error (slice l s e) i = nth_error l (Z.to_nat s + i).
Proof.
  intros Hs Hi. unfold slice. rewrite nth_error_firstn.
  replace (i <? Z.to_nat e - Z.to_nat s)%nat with true
    by (symmetry; apply Nat.ltb_lt; exact Hi).
  apply nth_error_skipn.
Qed.

Lemma length_slice {A : Type} (l : list A) s e :
  0 <= s <= e -> e <= Z.of_nat (length l) ->
  Z.of_nat (length (slice l s e)) = e - s.
Proof.
  intros Hs He. unfold slice. rewrite length_firstn, length_skipn. lia.
Qed.

Lemma length_py_range n : length (py_range n) = Z.to_nat n.
Proof. unfold py_range. rewrite length_map, length_seq. reflexivity. Qed.

Lemma nth_error_py_range n i :
  (i < Z.to_nat n)%nat -> nth_error (py_range n) i = Some (Z.of_nat i).
Proof.
  intros Hi. unfold py_range.
  rewrite nth_error_map, (nth_error_nth' _ 0%nat)
    by (rewrite length_seq; exact Hi).
  rewrite seq_nth by exact Hi. reflexivity.
Qed.

Lemma length_py_range_step n step :
  length (py_range_step n step) = Z.to_nat ((n + step - 1) / step).
Proof. unfold py_range_step. rewrite length_map, length_seq. reflexivity. Qed.

Lemma nth_error_py_range_step n step i :
  (i < Z.to_nat ((n + step - 1) / step))%nat ->
  nth_error (py_range_step n step) i = Some (Z.of_nat i * step).
Proof.
  intros Hi. unfold py_range_step.
  rewrite nth_error_map, (nth_error_nth' _ 0%nat)
    by (rewrite length_seq; exact Hi).
  rewrite seq_nth by exact Hi. reflexivity.
Qed.

(** The flat index of item (c, z, y, x) lies inside the buffer. *)
Lemma flat_index_bound nc nd nh nw c z y x :
  0 <= c < nc -> 0 <= z < nd -> 0 <= y < nh -> 0 <= x < nw ->
  0 <= ((c * nd + z) * nh + y) * nw + x < nc * nd * nh * nw.
Proof.
  intros Hc Hz Hy Hx.
  assert (H1 : 0 <= c * nd + z /\ c * nd + z + 1 <= nc * nd) by nia.
  assert (H2 : 0 <= (c * nd + z) * nh + y /\
               (c * nd + z) * nh + y + 1 <= nc * nd * nh) by nia.
  nia.
Qed.

Lemma row_bound nc nd nh nw c z y :
  0 <= c < nc -> 0 <= z < nd -> 0 <= y < nh -> 0 <= nw ->
  0 <= ((c * nd + z) * nh + y) * nw /\
  ((c * nd + z) * nh + y) * nw + nw <= nc * nd * nh * nw.
Proof.
  intros Hc Hz Hy Hw.
  assert (H1 : 0 <= c * nd + z /\ c * nd + z + 1 <= nc * nd) by nia.
  assert (H2 : 0 <= (c * nd + z) * nh + y /\
               (c * nd + z) * nh + y + 1 <= nc * nd * nh) by nia.
  nia.
Qed.

Lemma np_axis_index_inside i n :
  0 <= i < n -> np_axis_index i n = Done i.
Proof.
  intros Hi. unfold np_axis_index.
  replace ((0 <=? i) && (i <? n)) with true; [reflexivity |].
  symmetry. apply andb_true_intro. split; [apply Z.leb_le | apply Z.ltb_lt];
    lia.
Qed.

Lemma np_axis_index_outside i n :
  0 <= n -> i < - n \/ n <= i -> np_axis_index i n = Failed IndexError.
Proof.
  intros Hn Hi. unfold np_axis_index.
  replace ((0 <=? i) && (i <? n)) with false.
  - replace ((- n <=? i) && (i <? 0)) with false; [reflexivity |].
    symmetry. apply andb_false_iff.
    destruct Hi; [left; apply Z.leb_gt | right; apply Z.ltb_ge]; lia.
  - symmetry. apply andb_false_iff.
    destruct Hi; [left; apply Z.leb_gt | right; apply Z.ltb_ge]; lia.
Qed.

(** ** create_2d_figure *)

(** The rows of the heatmap. *)
Lemma create_2d_figure_rows (frame : ndarray) (nc nd nh nw channel : Z) :
  shape frame = [nc; nd; nh; nw] ->
  Z.of_nat (length (buf frame)) = nc * nd * nh * nw ->
  0 <= nh -> 0 <= nw -> 0 <= channel < nc -> 0 < nd ->
  exists rows,
    create_2d_figure frame channel = Done rows /\
    Z.of_nat (length rows) = nh /\
    forall y, 0 <= y < nh ->
      exists row,
        nth_error rows (Z.to_nat y) = Some row /\
        Z.of_nat (length row) = nw /\
        forall x, 0 <= x < nw ->
          nth_error row (Z.to_nat x) = np_item4 frame channel (nd / 2) y x.
Proof.
  intros Hshape Hbuf Hnh Hnw Hc Hd.
  assert (Hz : 0 <= nd / 2 < nd).
  { split; [apply Z.div_pos; lia | apply Z.div_lt_upper_bound; lia]. }
  unfold create_2d_figure. rewrite Hshape.
  rewrite (np_axis_index_inside channel nc Hc).
  rewrite (np_axis_index_inside (nd / 2) nd Hz).
  eexists. split; [reflexivity |]. split.
  - rewrite length_map, length_py_range. lia.
  - intros y Hy.
    pose proof (row_bound nc nd nh nw channel (nd / 2) y Hc Hz Hy Hnw)
      as [Hr0 Hr1].
    eexists. split; [| split].
    + rewrite nth_error_map, nth_error_py_range by lia.
      rewrite Z2Nat.id by lia. reflexivity.
    + cbv zeta. rewrite length_slice; lia.
    + intros x Hx. cbv zeta.
      rewrite nth_error_slice by lia.
      unfold np_item4. rewrite Hshape. f_equal. lia.
Qed.

(** X9. For a frame of shape (channels, depth, height, width) with at least
    one depth slice and a channel within range, the heatmap of
    [create_2d_figure] has [height] rows of [width] values and shows depth
    slice [depth // 2]: entry (y, x) is item (channel, depth // 2, y, x) of
    the frame.  For a 2D grid (depth 1) that is slice 0; for an even depth it
    is the upper of the two middle slices.  A frame without depth slices, or
    a channel outside [-channels, channels), is an IndexError. *)
Theorem create_2d_figure_middle_slice
    (frame : ndarray) (nc nd nh nw channel : Z) :
  shape frame = [nc; nd; nh; nw] ->
  Z.of_nat (length (buf frame)) = nc * nd * nh * nw ->
  0 <= nc -> 0 <= nd -> 0 <= nh -> 0 <= nw ->
  (0 <= channel < nc -> 0 < nd ->
   exists rows,
     create_2d_figure frame channel = Done rows /\
     Z.of_nat (length rows) = nh /\
     forall y, 0 <= y < nh ->
       exists row,
         nth_error rows (Z.to_nat y) = Some row /\
         Z.of_nat (length row) = nw /\
         forall x, 0 <= x < nw ->
           nth_error row (Z.to_nat x) = np_item4 frame channel (nd / 2) y x) /\
  (nd = 0 \/ channel < - nc \/ nc <= channel ->
   create_2d_figure frame channel = Failed IndexError).
Proof.
  intros Hshape Hbuf Hnc Hnd Hnh Hnw. split.
  - intros Hc Hd.
    apply (create_2d_figure_rows frame nc nd nh nw channel); assumption.
  - intros Hbad. unfold create_2d_figure. rewrite Hshape.
    destruct (np_axis_index channel nc) as [c | e] eqn:Ec.
    + destruct Hbad as [Hd | Hch].
      * subst nd. rewrite np_axis_index_outside by (cbn; lia). reflexivity.
      * rewrite np_axis_index_outside in Ec by lia. discriminate Ec.
    + unfold np_axis_index in Ec.
      destruct ((0 <=? channel) && (channel <? nc)); [discriminate Ec |].
      destruct ((- nc <=? channel) && (channel <? 0)); [discriminate Ec |].
      injection Ec as <-. reflexivity.
Qed.

(** ** Grids built by nested loops *)

Lemma length_flat_map_const {A B : Type} (f : A -> list B) (k : nat) l :
  (forall a, In a l -> length (f a) = k) ->
  length (flat_map f l) = (length l * k)%nat.
Proof.
  induction l as [| a l IH]; intros Hk; cbn [flat_map length].
  - reflexivity.
  - rewrite length_app, Hk by (left; reflexivity).
    rewrite IH by (intros b Hb; apply Hk; right; exact Hb). lia.
Qed.

Lemma nth_error_flat_map_const {A B : Type} (f : A -> list B) (k : nat) l :
  (forall a, In a l -> length (f a) = k) ->
  forall i j a, nth_error l i = Some a -> (j < k)%nat ->
  nth_error (flat_map f l) (i * k + j) = nth_error (f a) j.
Proof.
  induction l as [| a0 l IH]; intros Hk i j a Hi Hj.
  - destruct i; discriminate Hi.
  - cbn [flat_map]. destruct i as [| i].
    + cbn in Hi. injection Hi as ->. cbn [Nat.mul Nat.add].
      apply nth_error_app1. rewrite Hk by (left; reflexivity). exact Hj.
    + cbn [nth_error] in Hi.
      rewrite nth_error_app2 by (rewrite Hk by (left; reflexivity); lia).
      rewrite Hk by (left; reflexivity).
      replace (S i * k + j - k)%nat with (i * k + j)%nat by lia.
      apply IH; [| exact Hi | exact Hj].
      intros b Hb. apply Hk. right. exact Hb.
Qed.

Section Grid.

Context {A : Type} (f : Z -> Z -> Z -> A) (l1 l2 l3 : list Z).

Let grid : list A :=
  flat_map (fun a => flat_map (fun b => map (fun c => f a b c) l3) l2) l1.

Lemma length_grid :
  length grid = (length l1 * (length l2 * length l3))%nat.
Proof.
  unfold grid. apply length_flat_map_const. intros a _.
  apply length_flat_map_const. intros b _. apply length_map.
Qed.

Lemma nth_error_grid i j k a b c :
  nth_error l1 i = Some a -> nth_error l2 j = Some b ->
  nth_error l3 k = Some c ->
  nth_error grid ((i * length l2 + j) * length l3 + k) = Some (f a b c).
Proof.
  intros Ha Hb Hc.
  assert (Hj : (j < length l2)%nat)
    by (apply nth_error_Some; rewrite Hb; discriminate).
  assert (Hk : (k < length l3)%nat)
    by (apply nth_error_Some; rewrite Hc; discriminate).
  unfold grid.
  replace ((i * length l2 + j) * length l3 + k)%nat
    with (i * (length l2 * length l3) + (j * length l3 + k))%nat by lia.
  rewrite (nth_error_flat_map_const _ (length l2 * length l3) l1) with (a := a).
  - rewrite (nth_error_flat_map_const _ (length l3) l2) with (a := b).
    + rewrite nth_error_map, Hc. reflexivity.
    + intros b' _. apply length_map.
    + exact Hb.
    + exact Hk.
  - intros a' _. apply length_flat_map_const. intros b' _. apply length_map.
  - exact Ha.
  - nia.
Qed.

End Grid.

(** ** The sampling step *)

(** With a step of [max(1, n // k)], at most [2k - 1] samples are taken out
    of [n], and out of anything smaller. *)
Lemma strided_count_bound k n m :
  0 < k -> 0 <= m <= n ->
  let step := Z.max 1 (n / k) in
  1 <= step /\ 0 <= (m + step - 1) / step <= 2 * k - 1.
Proof.
  intros Hk Hm step.
  assert (Hq : 0 <= n / k) by (apply Z.div_pos; lia).
  assert (Hs : 1 <= step) by (unfold step; lia).
  split; [exact Hs |]. split.
  - apply Z.div_pos; lia.
  - apply Z.lt_succ_r. apply Z.div_lt_upper_bound; [lia |].
    assert (Hn : n < k * (n / k) + k).
    { pose proof (Z.div_mod n k ltac:(lia)).
      pose proof (Z.mod_pos_bound n k Hk). lia. }
    destruct (Z.max_spec 1 (n / k)) as [[Hlt Hmax] | [Hge Hmax]];
      fold step in Hmax; rewrite Hmax; nia.
Qed.

(** The samples of a strided range lie inside it. *)
Lemma strided_index_inside n step i :
  0 < step -> 0 <= i < (n + step - 1) / step -> 0 <= i * step < n.
Proof.
  intros Hs Hi.
  pose proof (Z.mul_div_le (n + step - 1) step Hs). nia.
Qed.

(** ** create_3d_figure *)

Lemma to_nat_index3 a m b n c :
  0 <= a -> 0 <= m -> 0 <= b -> 0 <= n -> 0 <= c ->
  Z.to_nat ((a * m + b) * n + c) =
  ((Z.to_nat a * Z.to_nat m + Z.to_nat b) * Z.to_nat n + Z.to_nat c)%nat.
Proof.
  intros Ha Hm Hb Hn Hc. apply Nat2Z.inj.
  rewrite Z2Nat.id by nia.
  rewrite Nat2Z.inj_add, Nat2Z.inj_mul, Nat2Z.inj_add, Nat2Z.inj_mul.
  rewrite !Z2Nat.id by lia. reflexivity.
Qed.

Lemma step_bounds nd nh nw :
  0 <= nd -> 0 <= nh -> 0 <= nw ->
  let step := downsample_step nd nh nw in
  1 <= step /\ 0 <= strided_count nd step <= 63 /\
  0 <= strided_count nh step <= 63 /\ 0 <= strided_count nw step <= 63.
Proof.
  intros Hnd Hnh Hnw. unfold strided_count, downsample_step.
  set (m := Z.max nd (Z.max nh nw)).
  destruct (strided_count_bound 32 m nd ltac:(lia) ltac:(lia)) as [H1 Hd].
  destruct (strided_count_bound 32 m nh ltac:(lia) ltac:(lia)) as [_ Hh].
  destruct (strided_count_bound 32 m nw ltac:(lia) ltac:(lia)) as [_ Hw].
  cbv zeta in H1, Hd, Hh, Hw. cbv zeta. lia.
Qed.

(** The coordinates of point [(i * w + j) * d + k] of a flattened grid of
    shape (h, w, d). *)
Lemma meshgrid_point (f : Z -> Z -> Z -> Z) d h w i j k :
  0 <= i < h -> 0 <= j < w -> 0 <= k < d ->
  nth_error (flat_map (fun i => flat_map (fun j =>
               map (fun k => f i j k) (py_range d)) (py_range w))
               (py_range h))
            (Z.to_nat ((i * w + j) * d + k)) = Some (f i j k).
Proof.
  intros Hi Hj Hk.
  rewrite to_nat_index3 by lia.
  replace (Z.to_nat w) with (length (py_range w)) by apply length_py_range.
  replace (Z.to_nat d) with (length (py_range d)) by apply length_py_range.
  apply nth_error_grid.
  - rewrite nth_error_py_range by lia. rewrite Z2Nat.id by lia. reflexivity.
  - rewrite nth_error_py_range by lia. rewrite Z2Nat.id by lia. reflexivity.
  - rewrite nth_error_py_range by lia. rewrite Z2Nat.id by lia. reflexivity.
Qed.

Lemma length_meshgrid (f : Z -> Z -> Z -> Z) d h w :
  0 <= d -> 0 <= h -> 0 <= w ->
  Z.of_nat (length (flat_map (fun i => flat_map (fun j =>
               map (fun k => f i j k) (py_range d)) (py_range w))
               (py_range h))) = d * h * w.
Proof.
  intros Hd Hh Hw. rewrite length_grid, !length_py_range. nia.
Qed.

Section Volume3D.

Variables (frame : ndarray) (nc nd nh nw channel : Z).
Hypothesis Hshape : shape frame = [nc; nd; nh; nw].
Hypothesis Hbuf : Z.of_nat (length (buf frame)) = nc * nd * nh * nw.
Hypothesis Hnd : 0 <= nd.
Hypothesis Hnh : 0 <= nh.
Hypothesis Hnw : 0 <= nw.
Hypothesis Hchannel : 0 <= channel < nc.

Let n3 : Z := prod_shape [nd; nh; nw].
Let data : ndarray :=
  {| shape := [nd; nh; nw];
     buf := slice (buf frame) (channel * n3) (channel * n3 + n3) |}.
Let step : Z := downsample_step nd nh nw.
Let data' : ndarray := if step >? 1 then np_stride3 data step else data.
Let d' : Z := strided_count nd step.
Let h' : Z := strided_count nh step.
Let w' : Z := strided_count nw step.

Lemma n3_eq : n3 = nd * nh * nw.
Proof. unfold n3, prod_shape. cbn [fold_right]. ring. Qed.

Lemma getitem_channel : np_getitem frame channel = Done data.
Proof.
  unfold np_getitem. rewrite Hshape.
  rewrite (np_axis_index_inside channel nc Hchannel). reflexivity.
Qed.

Lemma length_data : Z.of_nat (length (buf data)) = nd * nh * nw.
Proof.
  pose proof n3_eq as E. unfold data. cbn [buf].
  assert (0 <= n3) by (rewrite E; nia).
  rewrite length_slice; nia.
Qed.

Lemma data_item z y x :
  0 <= z < nd -> 0 <= y < nh -> 0 <= x < nw ->
  nth_error (buf data) (Z.to_nat ((z * nh + y) * nw + x)) =
  np_item4 frame channel z y x.
Proof.
  intros Hz Hy Hx. pose proof n3_eq as E.
  pose proof (flat_index_bound 1 nd nh nw 0 z y x ltac:(lia) Hz Hy Hx) as Hi.
  unfold data. cbn [buf].
  rewrite nth_error_slice by nia.
  unfold np_item4. rewrite Hshape. f_equal. nia.
Qed.

Lemma unit_step_counts : step = 1 -> d' = nd /\ h' = nh /\ w' = nw.
Proof.
  intros E. unfold d', h', w', strided_count. rewrite E.
  replace (nd + 1 - 1) with nd by lia.
  replace (nh + 1 - 1) with nh by lia.
  replace (nw + 1 - 1) with nw by lia.
  rewrite !Z.div_1_r. auto.
Qed.

(** The array that is plotted: its shape, its size, its items. *)
Lemma downsampled :
  shape data' = [d'; h'; w'] /\
  Z.of_nat (length (buf data')) = d' * h' * w' /\
  forall z y x, 0 <= z < d' -> 0 <= y < h' -> 0 <= x < w' ->
    nth_error (buf data') (Z.to_nat ((z * h' + y) * w' + x)) =
    np_item4 frame channel (z * step) (y * step) (x * step).
Proof.
  pose proof (step_bounds nd nh nw Hnd Hnh Hnw) as (Hs & Hd & Hh & Hw).
  fold step in Hs, Hd, Hh, Hw. fold d' in Hd. fold h' in Hh. fold w' in Hw.
  unfold data'. destruct (Z.gtb_spec step 1) as [Hgt | Hle].
  - (* strided *)
    unfold np_stride3. cbn [shape data buf].
    rewrite !length_py_range_step. fold (strided_count nd step).
    fold (strided_count nh step). fold (strided_count nw step).
    fold d' h' w'. rewrite !Z2Nat.id by lia.
    split; [reflexivity |]. split.
    + rewrite length_grid, !length_py_range_step.
      fold (strided_count nd step). fold (strided_count nh step).
      fold (strided_count nw step). fold d' h' w'. nia.
    + intros z y x Hz Hy Hx.
      rewrite to_nat_index3 by lia.
      pose proof (strided_index_inside nd step z ltac:(lia) Hz) as Hzi.
      pose proof (strided_index_inside nh step y ltac:(lia) Hy) as Hyi.
      pose proof (strided_index_inside nw step x ltac:(lia) Hx) as Hxi.
      replace (Z.to_nat h') with (length (py_range_step nh step))
        by (rewrite length_py_range_step; reflexivity).
      replace (Z.to_nat w') with (length (py_range_step nw step))
        by (rewrite length_py_range_step; reflexivity).
      rewrite (nth_error_grid _ _ _ _ _ _ _ (z * step) (y * step) (x * step)).
      * pose proof (flat_index_bound 1 nd nh nw 0 (z * step) (y * step)
                      (x * step) ltac:(lia) Hzi Hyi Hxi) as Hi.
        rewrite <- data_item by assumption.
        symmetry. apply nth_error_nth'.
        pose proof length_data. cbn [buf data] in *. lia.
      * rewrite nth_error_py_range_step by (unfold d', strided_count in Hz; lia).
        rewrite Z2Nat.id by lia. reflexivity.
      * rewrite nth_error_py_range_step by (unfold h', strided_count in Hy; lia).
        rewrite Z2Nat.id by lia. reflexivity.
      * rewrite nth_error_py_range_step by (unfold w', strided_count in Hx; lia).
        rewrite Z2Nat.id by lia. reflexivity.
  - (* not strided *)
    assert (E : step = 1) by lia.
    destruct (unit_step_counts E) as (Ed & Eh & Ew). rewrite Ed, Eh, Ew.
    split; [reflexivity |]. split; [apply length_data |].
    intros z y x Hz Hy Hx. rewrite E, !Z.mul_1_r. apply data_item; assumption.
Qed.

(** What [create_3d_figure] hands to the volume plot. *)
Lemma create_3d_figure_spec :
  create_3d_figure frame channel =
  Done {| vol_x := flat_map (fun i => flat_map (fun j =>
                     map (fun k => j) (py_range d')) (py_range w'))
                     (py_range h');
          vol_y := flat_map (fun i => flat_map (fun j =>
                     map (fun k => i) (py_range d')) (py_range w'))
                     (py_range h');
          vol_z := flat_map (fun i => flat_map (fun j =>
                     map (fun k => k) (py_range d')) (py_range w'))
                     (py_range h');
          vol_value := buf data' |}.
Proof.
  unfold create_3d_figure. rewrite getitem_channel. cbn [shape data].
  fold data. fold step. fold data'.
  destruct downsampled as (Hs & _). rewrite Hs.
  reflexivity.
Qed.

End Volume3D.

(** X10. The size of the volume plot.  [create_3d_figure] samples every
    [step]-th cell along each axis, with
    [step = max(1, max(depth, height, width) // 32)]; the step is 1 exactly
    when no axis has 64 cells or more.  The plotted grid has
    [ceil(n / step)] cells along an axis of [n] cells, which is at most 63
    (not 32, the [max_size] of the source), and the four sequences handed to
    the plot (x, y, z, value) all have one entry per plotted cell. *)
Theorem create_3d_figure_size
    (frame : ndarray) (nc nd nh nw channel : Z) :
  shape frame = [nc; nd; nh; nw] ->
  Z.of_nat (length (buf frame)) = nc * nd * nh * nw ->
  0 <= nd -> 0 <= nh -> 0 <= nw -> 0 <= channel < nc ->
  let step := downsample_step nd nh nw in
  let d' := strided_count nd step in
  let h' := strided_count nh step in
  let w' := strided_count nw step in
  1 <= step /\
  (step = 1 <-> Z.max nd (Z.max nh nw) < 64) /\
  0 <= d' <= 63 /\ 0 <= h' <= 63 /\ 0 <= w' <= 63 /\
  exists v,
    create_3d_figure frame channel = Done v /\
    Z.of_nat (length (vol_x v)) = d' * h' * w' /\
    Z.of_nat (length (vol_y v)) = d' * h' * w' /\
    Z.of_nat (length (vol_z v)) = d' * h' * w' /\
    Z.of_nat (length (vol_value v)) = d' * h' * w'.
Proof.
  intros Hshape Hbuf Hnd Hnh Hnw Hc step d' h' w'.
  pose proof (step_bounds nd nh nw Hnd Hnh Hnw) as (Hs & Hd & Hh & Hw).
  cbv zeta in Hs, Hd, Hh, Hw.
  fold step in Hs, Hd, Hh, Hw. fold d' in Hd. fold h' in Hh. fold w' in Hw.
  split; [exact Hs |]. split.
  - unfold step, downsample_step.
    set (m := Z.max nd (Z.max nh nw)).
    assert (Hm : 0 <= m) by (unfold m; lia).
    split; intros H.
    + assert (m / 32 <= 1) by lia.
      destruct (Z.lt_ge_cases m 64) as [Hlt | Hge]; [exact Hlt |].
      assert (2 <= m / 32) by (apply Z.div_le_lower_bound; lia). lia.
    + assert (m / 32 < 2) by (apply Z.div_lt_upper_bound; lia). lia.
  - repeat (split; [lia |]).
    rewrite (create_3d_figure_spec frame nc nd nh nw channel
               Hshape Hbuf Hnd Hnh Hnw Hc).
    eexists. split; [reflexivity |]. cbn [vol_x vol_y vol_z vol_value].
    fold step. fold d' h' w'.
    repeat split.
    + apply length_meshgrid; lia.
    + apply length_meshgrid; lia.
    + apply length_meshgrid; lia.
    + apply (downsampled frame nc nd nh nw channel
               Hshape Hbuf Hnd Hnh Hnw Hc).
Qed.

(** X11. The points of the volume plot.  With (d', h', w') the plotted grid
    and [step] the sampling step, entry [(i * w' + j) * d' + k] of the
    coordinate sequences is the point x = j, y = i, z = k (the order in which
    [np.meshgrid(..., indexing="xy")] flattens), while entry
    [(z * h' + y) * w' + x] of the value sequence is the item
    (channel, z * step, y * step, x * step) of the frame (the order in which
    the array flattens).  The two orders are not the same one. *)
Theorem create_3d_figure_points
    (frame : ndarray) (nc nd nh nw channel : Z) :
  shape frame = [nc; nd; nh; nw] ->
  Z.of_nat (length (buf frame)) = nc * nd * nh * nw ->
  0 <= nd -> 0 <= nh -> 0 <= nw -> 0 <= channel < nc ->
  let step := downsample_step nd nh nw in
  let d' := strided_count nd step in
  let h' := strided_count nh step in
  let w' := strided_count nw step in
  exists v,
    create_3d_figure frame channel = Done v /\
    (forall i j k, 0 <= i < h' -> 0 <= j < w' -> 0 <= k < d' ->
       let n := Z.to_nat ((i * w' + j) * d' + k) in
       nth_error (vol_x v) n = Some j /\
       nth_error (vol_y v) n = Some i /\
       nth_error (vol_z v) n = Some k) /\
    (forall z y x, 0 <= z < d' -> 0 <= y < h' -> 0 <= x < w' ->
       nth_error (vol_value v) (Z.to_nat ((z * h' + y) * w' + x)) =
       np_item4 frame channel (z * step) (y * step) (x * step)).
Proof.
  intros Hshape Hbuf Hnd Hnh Hnw Hc step d' h' w'.
  rewrite (create_3d_figure_spec frame nc nd nh nw channel
             Hshape Hbuf Hnd Hnh Hnw Hc).
  eexists. split; [reflexivity |]. cbn [vol_x vol_y vol_z vol_value].
  fold step. fold d' h' w'. split.
  - intros i j k Hi Hj Hk. cbv zeta. repeat split.
    + apply (meshgrid_point (fun i j k => j) d' h' w' i j k Hi Hj Hk).
    + apply (meshgrid_point (fun i j k => i) d' h' w' i j k Hi Hj Hk).
    + apply (meshgrid_point (fun i j k => k) d' h' w' i j k Hi Hj Hk).
  - apply (downsampled frame nc nd nh nw channel Hshape Hbuf Hnd Hnh Hnw Hc).
Qed.

(** X12. The axes of the volume plot.  For a cubic grid (depth = height =
    width), the value drawn at the point with coordinates (x, y, z) is item
    (channel, y * step, x * step, z * step) of the frame: the depth index of
    the array runs along the plot's y axis, the height index along its
    x axis and the width index along its z axis. *)
Theorem create_3d_figure_cube_axes
    (frame : ndarray) (nc s channel : Z) :
  shape frame = [nc; s; s; s] ->
  Z.of_nat (length (buf frame)) = nc * s * s * s ->
  0 <= s -> 0 <= channel < nc ->
  let step := downsample_step s s s in
  let s' := strided_count s step in
  exists v,
    create_3d_figure frame channel = Done v /\
    forall x y z, 0 <= x < s' -> 0 <= y < s' -> 0 <= z < s' ->
      let n := Z.to_nat ((y * s' + x) * s' + z) in
      nth_error (vol_x v) n = Some x /\
      nth_error (vol_y v) n = Some y /\
      nth_error (vol_z v) n = Some z /\
      nth_error (vol_value v) n =
      np_item4 frame channel (y * step) (x * step) (z * step).
Proof.
  intros Hshape Hbuf Hs Hc step s'.
  rewrite (create_3d_figure_spec frame nc s s s channel
             Hshape Hbuf Hs Hs Hs Hc).
  eexists. split; [reflexivity |]. cbn [vol_x vol_y vol_z vol_value].
  fold step. fold s'.
  intros x y z Hx Hy Hz. cbv zeta. repeat split.
  - apply (meshgrid_point (fun i j k => j) s' s' s' y x z Hy Hx Hz).
  - apply (meshgrid_point (fun i j k => i) s' s' s' y x z Hy Hx Hz).
  - apply (meshgrid_point (fun i j k => k) s' s' s' y x z Hy Hx Hz).
  - apply (proj2 (proj2 (downsampled frame nc s s s channel
                           Hshape Hbuf Hs Hs Hs Hc)) y x z Hy Hx Hz).
Qed.

(** ** The callbacks of main *)

Lemma play_spec n : 0 < n -> forall k c,
  (0 < k)%nat -> play k c n = Done ((c + Z.of_nat k) mod n).
Proof.
  intros Hn. induction k as [| k IH]; intros c Hk; [lia |].
  cbn [play]. unfold advance_frame.
  destruct (Z.eqb_spec n 0) as [E | _]; [lia |].
  destruct k as [| k'].
  - reflexivity.
  - rewrite IH by lia.
    rewrite Z.add_mod_idemp_l by lia. do 2 f_equal. lia.
Qed.

(** X13. Playback.  With at least one frame, every tick of the interval
    moves the slider to the next frame and wraps from the last frame to
    frame 0: after [k >= 1] ticks from frame [c] the slider is at
    [(c + k) mod n], always a valid frame index, and after [n] ticks from a
    valid frame it is back where it started.  A callback not triggered by
    the interval leaves the frame alone.  With no frame at all (a container
    with [frame_count] = 0 does load) the first tick raises
    ZeroDivisionError. *)
Theorem playback_cycle (n c : Z) :
  (0 < n ->
   (forall k, (0 < k)%nat ->
      play k c n = Done ((c + Z.of_nat k) mod n) /\
      0 <= (c + Z.of_nat k) mod n < n) /\
   (0 <= c < n -> play (Z.to_nat n) c n = Done c)) /\
  advance_frame false c n = Done c /\
  (forall k, (0 < k)%nat -> play k c 0 = Failed ZeroDivisionError).
Proof.
  split; [| split].
  - intros Hn. split.
    + intros k Hk. split.
      * apply play_spec; assumption.
      * apply Z.mod_pos_bound. exact Hn.
    + intros Hc. rewrite play_spec by lia.
      rewrite Z2Nat.id by lia. f_equal.
      replace (c + n) with (c + 1 * n) by lia.
      rewrite Z.mod_add by lia. apply Z.mod_small. exact Hc.
  - reflexivity.
  - intros k Hk. destruct k as [| k]; [lia |]. reflexivity.
Qed.

(** X14. The marks of the frame slider.  For any number of frames the slider
    gets at most 19 marks; every mark is a valid frame index and a multiple
    of [max(1, n // 10)], and frame 0 is marked whenever there is a frame. *)
Theorem slider_marks_bound (n : Z) :
  0 <= n ->
  (length (slider_marks n) <= 19)%nat /\
  (forall m, In m (slider_marks n) ->
     0 <= m < n /\ exists i, m = i * Z.max 1 (n / 10)) /\
  (0 < n -> nth_error (slider_marks n) 0 = Some 0).
Proof.
  intros Hn. unfold slider_marks.
  destruct (strided_count_bound 10 n n ltac:(lia) ltac:(lia)) as [Hs Hc].
  cbv zeta in Hs, Hc.
  set (step := Z.max 1 (n / 10)) in *.
  split; [| split].
  - rewrite length_py_range_step. lia.
  - intros m Hm. unfold py_range_step in Hm. apply in_map_iff in Hm.
    destruct Hm as (i & <- & Hi). apply in_seq in Hi. split.
    + apply strided_index_inside; lia.
    + exists (Z.of_nat i). reflexivity.
  - intros Hpos. rewrite nth_error_py_range_step.
    + reflexivity.
    + assert (1 <= (n + step - 1) / step)
        by (apply Z.div_le_lower_bound; lia).
      lia.
Qed.

(** ** From the bytes of the file to the picture *)

(** X15. What is on screen is what is in the file.  For a 2D container
    (depth 1) laid out as the reader expects, with a [dt] that is not a
    signalling NaN and a frame shape for which [np.zeros] returns an array,
    frame [i] of the list that [main] loads, drawn by [create_2d_figure] for channel [c], is a heatmap
    of [height] rows whose entry (y, x) is float number
    [(c * height + y) * width + x] of the stored frame [i]. *)
Theorem loaded_frame_heatmap
    (h : AnimationHeader) (reserved_bits : Z) (reserved : list byte)
    (frames : list (list Z)) (i : nat) (values : list Z) (c : Z) :
  header_in_range h -> dt_quiet h -> compression h = 0 -> depth h = 1 ->
  is_ok (np_zeros (frame_shape h)) = true ->
  0 <= reserved_bits < 2 ^ 11 ->
  length reserved = 16%nat ->
  frame_count h = Z.of_nat (length frames) ->
  Forall (frame_ok h) frames ->
  Z.of_nat (length (encode_container h reserved_bits reserved frames))
    <= ssize_max ->
  nth_error frames i = Some values ->
  0 <= c < channels h ->
  exists a frame rows,
    snd (main_load (encode_container h reserved_bits reserved frames)) = Ok a /\
    nth_error (a_frames a) i = Some frame /\
    create_2d_figure frame c = Done rows /\
    Z.of_nat (length rows) = height h /\
    forall y x, 0 <= y < height h -> 0 <= x < width h ->
      exists row,
        nth_error rows (Z.to_nat y) = Some row /\
        nth_error row (Z.to_nat x) =
        nth_error values (Z.to_nat ((c * height h + y) * width h + x)).
Proof.
  intros Hrange Hq Hcodec Hdepth Hz Hrb Hres Hn Hok Hmax Hi Hc.
  pose proof Hrange as (Hw & Hh & _).
  assert (Hval : frame_ok h values).
  { apply (proj1 (Forall_forall _ _) Hok). eapply nth_error_In. exact Hi. }
  destruct Hval as [Hlen _].
  destruct (create_2d_figure_rows (frame_array h values)
              (channels h) (depth h) (height h) (width h) c)
    as (rows & Hrows & Hcount & Hitems).
  - reflexivity.
  - cbn [frame_array buf]. rewrite Hlen, Hdepth. ring.
  - lia.
  - lia.
  - exact Hc.
  - lia.
  - eexists. exists (frame_array h values), rows.
    split; [| split; [| split; [| split]]].
    + apply main_load_encoded; assumption.
    + cbn [a_frames]. rewrite nth_error_map, Hi. reflexivity.
    + exact Hrows.
    + exact Hcount.
    + intros y x Hy Hx.
      destruct (Hitems y Hy) as (row & Hrow & _ & Hcell).
      exists row. split; [exact Hrow |].
      rewrite (Hcell x Hx). unfold np_item4. cbn [frame_array shape buf].
      rewrite Hdepth. f_equal. change (1 / 2) with 0. f_equal. ring.
Qed.

(** ** An index entry that reaches past the end of the file *)

Lemma length_slice_clamped {A : Type} (l : list A) s e :
  0 <= s <= e ->
  Z.of_nat (length (slice l s e)) =
  Z.min e (Z.of_nat (length l)) - Z.min s (Z.of_nat (length l)).
Proof.
  intros Hs. unfold slice. rewrite length_firstn, length_skipn. lia.
Qed.

(** X16. A short read is silent.  With codec id 0, when the seek and the
    read return and [np.zeros] returns the array of the frame, [read_frame]
    has got the bytes of the file from [offset] on, [size] of them or as many
    as the file still has, in one read, and does not complain about a frame
    that reaches past the end of the file: the frame is decoded exactly when
    the bytes actually available are at least
    [width * height * depth * channels * 4]. *)
Theorem read_frame_ok_iff_available
    (h : AnimationHeader) (idx : FrameIndex) (f f' : File)
    (payload : list byte) :
  compression h = 0 -> 0 <= size idx ->
  read_payload idx f = (f', Ok payload) ->
  is_ok (np_zeros (frame_shape h)) = true ->
  let available := Z.min (size idx) (Z.max 0 (file_len f - offset idx)) in
  Z.of_nat (length payload) = available /\
  reads (fst (read_frame h idx f)) = reads f ++ [(offset idx, available)] /\
  (is_ok (snd (read_frame h idx f)) = true <-> frame_size h <= available).
Proof.
  intros Hcodec Hs Hp Hz available.
  destruct (frame_shape_nonneg h Hz) as (Hc & Hd & Hh & Hw).
  rewrite (read_frame_payload h idx f f' payload Hp). cbn [fst snd].
  destruct (read_payload_ok_inv idx f f' payload Hp Hs)
    as ((Ho & _ & _) & Epay & Ef).
  assert (Hlen : Z.of_nat (length payload) = available).
  { rewrite Epay. unfold available, file_len.
    rewrite length_slice_clamped by lia. lia. }
  split; [exact Hlen |]. split.
  { rewrite Ef. cbn [reads]. rewrite Hlen. reflexivity. }
  pose proof (expected_bytes h Hc) as He. fold (frame_size h) in He.
  assert (Hfs : 0 <= frame_size h) by (unfold frame_size; nia).
  split.
  - intros Hok.
    destruct (Z.le_gt_cases (frame_size h) available) as [Hle | Hgt];
      [exact Hle |].
    destruct (decode_frame_short h Hw Hh Hd Hcodec Hz payload ltac:(lia))
      as (e & E & _).
    rewrite E in Hok. discriminate Hok.
  - intros Hle.
    rewrite (decode_frame_enough h Hw Hh Hd Hc Hcodec Hz payload) by lia.
    reflexivity.
Qed.

End Reader.

(** * Examples

    Runs on [example_platform]: inputs on which the program departs from its
    specification, and each theorem applied at a concrete input. *)

#[local] Existing Instance example_platform.

Lemma read_header_magic_witness :
  (read_header (open_rb [x46; x4c; x57; x42; x01]) =
     (after_magic_read [x46; x4c; x57; x42; x01],
      Raise (ValueError_InvalidMagic [x46; x4c; x57; x42])) /\
   main_load [x46; x4c; x57; x42; x01] =
     (after_magic_read [x46; x4c; x57; x42; x01],
      Raise (ValueError_InvalidMagic [x46; x4c; x57; x42]))) /\
  (forall m, snd (read_header (open_rb (header_bytes 0 1 1 1 1 0))) <>
             Raise (ValueError_InvalidMagic m)).
Proof.
  split.
  - apply (proj1 (read_header_magic [x46; x4c; x57; x42; x01])).
    vm_compute. discriminate.
  - apply (proj2 (read_header_magic (header_bytes 0 1 1 1 1 0))).
    reflexivity.
Defined.

Lemma read_frame_indices_table_witness :
  exists f' indices,
    read_frame_indices (mkHeader 2 1 1 1 2 0 0 false)
      (open_rb (two_frame_file 0 f32_one f32_one f32_half f32_neg_half))
    = (f', Ok indices) /\
    contents f' = two_frame_file 0 f32_one f32_one f32_half f32_neg_half /\
    reads f' = [(68, 8); (76, 8); (84, 8); (92, 8)] /\
    length indices = 2%nat /\
    nth_error indices 0 = Some {| offset := 52; size := 8 |} /\
    nth_error indices 1 = Some {| offset := 60; size := 8 |}.
Proof.
  destruct (read_frame_indices_table (mkHeader 2 1 1 1 2 0 0 false)
              (open_rb (two_frame_file 0 f32_one f32_one f32_half f32_neg_half)))
    as (f' & indices & H & Hc & Hr & Hn & Hi).
  - simpl. lia.
  - vm_compute. discriminate.
  - vm_compute. discriminate.
  - exists f', indices. repeat split.
    + exact H.
    + exact Hc.
    + exact Hr.
    + exact Hn.
    + exact (Hi 0%nat ltac:(vm_compute; lia)).
    + exact (Hi 1%nat ltac:(vm_compute; lia)).
Defined.

(** C6, counterexample.  A file that is nothing but a 52-byte header declaring
    one frame has its index start at 52 - 16 = 36, inside the header region:
    the index is parsed all the same, from the reserved bytes.  And the valid
    two-frame file cut short by one byte is parsed too: the start offset moves
    one byte down and the entries are read across the payload boundary. *)
Lemma truncated_index_not_detected :
  Z.of_nat (length (header_bytes 0 1 1 1 1 1)) - 1 * 16 = 36 /\
  snd (open_container (open_rb (header_bytes 0 1 1 1 1 1))) =
    Ok (mkHeader 1 1 1 1 1 0 0 false, [{| offset := 0; size := 0 |}]) /\
  snd (open_container
         (open_rb (two_frame_file 0 f32_one f32_one f32_half f32_neg_half))) =
    Ok (mkHeader 2 1 1 1 2 0 0 false,
        [{| offset := 52; size := 8 |}; {| offset := 60; size := 8 |}]) /\
  snd (open_container
         (open_rb (removelast
            (two_frame_file 0 f32_one f32_one f32_half f32_neg_half)))) =
    Ok (mkHeader 2 1 1 1 2 0 0 false,
        [{| offset := 13503; size := 2048 |};
         {| offset := 15360; size := 2048 |}]).
Proof. vm_compute. repeat split; reflexivity. Qed.

Lemma read_frame_indices_fails_iff_negative_start_witness :
  read_frame_indices (mkHeader 1 1 1 1 4 0 0 false)
    (open_rb (header_bytes 0 1 1 1 1 4)) =
  ({| contents := header_bytes 0 1 1 1 1 4; pos := 52; reads := [] |},
   Raise OSError_InvalidArgument) /\
  is_ok (snd (read_frame_indices (mkHeader 1 1 1 1 3 0 0 false)
                (open_rb (header_bytes 0 1 1 1 1 3)))) = true.
Proof.
  split.
  - apply (proj1 (read_frame_indices_fails_iff_negative_start
                    (mkHeader 1 1 1 1 4 0 0 false)
                    (open_rb (header_bytes 0 1 1 1 1 4))
                    ltac:(simpl; lia) ltac:(vm_compute; discriminate))).
    vm_compute. reflexivity.
  - apply (proj2 (read_frame_indices_fails_iff_negative_start
                    (mkHeader 1 1 1 1 3 0 0 false)
                    (open_rb (header_bytes 0 1 1 1 1 3))
                    ltac:(simpl; lia) ltac:(vm_compute; discriminate))).
    vm_compute. discriminate.
Defined.

Lemma zero_frames_accepted_witness :
  read_frame_indices (mkHeader 1 1 1 1 0 0 0 false)
    (open_rb (header_bytes 0 1 1 1 1 0)) =
  ({| contents := header_bytes 0 1 1 1 1 0; pos := 52; reads := [] |}, Ok []) /\
  snd (main_load (header_bytes 0 1 1 1 1 0)) =
  Ok {| a_header := mkHeader 1 1 1 1 0 0 0 false;
        a_indices := []; a_frames := [] |}.
Proof.
  split.
  - apply (proj1 zero_frames_accepted (mkHeader 1 1 1 1 0 0 0 false)
             (open_rb (header_bytes 0 1 1 1 1 0))).
    + reflexivity.
    + vm_compute. discriminate.
  - rewrite (proj2 zero_frames_accepted (header_bytes 0 1 1 1 1 0)
               (fst (read_header (open_rb (header_bytes 0 1 1 1 1 0))))
               (mkHeader 1 1 1 1 0 0 0 false)).
    + reflexivity.
    + vm_compute. discriminate.
    + vm_compute. reflexivity.
    + reflexivity.
Defined.

Lemma read_header_flags_witness :
  (compression (mkHeader 2 1 1 1 2 0 7 true) = Z.land 0x17 15 /\
   compression (mkHeader 2 1 1 1 2 0 7 true) = 0x17 mod 16 /\
   delta_encoding (mkHeader 2 1 1 1 2 0 7 true) = Z.testbit 0x17 4) /\
  snd (read_header (open_rb (firstn 6 (header_bytes 0 2 1 1 1 2) ++
                             [x17; x00] ++
                             skipn 8 (header_bytes 0 2 1 1 1 2)))) =
  snd (read_header (open_rb (firstn 6 (header_bytes 0 2 1 1 1 2) ++
                             [xf7; xff] ++
                             skipn 8 (header_bytes 0 2 1 1 1 2)))) /\
  exists h,
    snd (read_header (open_rb (firstn 6 (header_bytes 0 2 1 1 1 2) ++
                               [x17; x00] ++
                               skipn 8 (header_bytes 0 2 1 1 1 2)))) = Ok h /\
    snd (read_header (open_rb (firstn 6 (header_bytes 0 2 1 1 1 2) ++
                               [xf7; xff] ++
                               skipn 8 (header_bytes 0 2 1 1 1 2)))) = Ok h /\
    compression h = 7 /\ delta_encoding h = true.
Proof.
  split; [| split].
  - apply (proj1 read_header_flags (header_bytes 0x17 2 1 1 1 2)
             (fst (read_header (open_rb (header_bytes 0x17 2 1 1 1 2))))
             (mkHeader 2 1 1 1 2 0 7 true)).
    vm_compute. reflexivity.
  - apply (proj1 (proj2 read_header_flags)
             (firstn 6 (header_bytes 0 2 1 1 1 2))
             [x17; x00] [xf7; xff] (skipn 8 (header_bytes 0 2 1 1 1 2)));
      reflexivity.
  - apply (proj2 (proj2 read_header_flags)
             (firstn 6 (header_bytes 0 2 1 1 1 2))
             [x17; x00] [xf7; xff] (skipn 8 (header_bytes 0 2 1 1 1 2)));
      try reflexivity.
    vm_compute. lia.
Defined.

(** C2, counterexample.  The header has width 0 and height = depth =
    2^32 - 1, one channel and one frame; the frame's index entry gives it 0
    bytes, which is exactly [width * height * depth * channels * 4].  The
    file opens and the payload is read, but [np.zeros] refuses the shape
    (the size in bytes is computed over the dimensions that are not zero),
    so no grid is returned and the loading block of [main] fails. *)
Lemma zero_size_frame_rejected :
  let bs := header_bytes 0 0 (2 ^ 32 - 1) (2 ^ 32 - 1) 1 1 ++
            le_encode 8 52 ++ le_encode 8 0 in
  let h := mkHeader 0 (2 ^ 32 - 1) (2 ^ 32 - 1) 1 1 0 0 false in
  let idx := {| offset := 52; size := 0 |} in
  snd (open_container (open_rb bs)) = Ok (h, [idx]) /\
  snd (read_payload idx (open_rb bs)) = Ok [] /\
  0 = width h * height h * depth h * channels h * 4 /\
  snd (read_frame h idx (open_rb bs)) = Raise ValueError_ArrayTooBig /\
  snd (main_load bs) = Raise ValueError_ArrayTooBig.
Proof. vm_compute. repeat split; reflexivity. Qed.

Lemma read_frame_raw_layout_witness :
  exists f' frame,
    read_frame (mkHeader 2 1 1 1 2 0 0 false) {| offset := 60; size := 8 |}
      (open_rb (two_frame_file 0 f32_one f32_one f32_half f32_neg_half))
    = (f', Ok frame) /\
    shape frame = [1; 1; 1; 2] /\
    buf frame = [f32_half; f32_neg_half] /\
    np_item4 frame 0 0 0 1 = Some f32_neg_half.
Proof.
  destruct (read_frame_raw_layout (mkHeader 2 1 1 1 2 0 0 false)
              {| offset := 60; size := 8 |}
              (open_rb (two_frame_file 0 f32_one f32_one f32_half f32_neg_half))
              {| contents :=
                   two_frame_file 0 f32_one f32_one f32_half f32_neg_half;
                 pos := 68; reads := [(60, 8)] |}
              (le_encode 4 f32_half ++ le_encode 4 f32_neg_half))
    as (_ & frame & H & Hshape & Hbuf & _ & Hitem).
  - reflexivity.
  - vm_compute. reflexivity.
  - vm_compute. reflexivity.
  - vm_compute. reflexivity.
  - eexists. exists frame. repeat split.
    + exact H.
    + exact Hshape.
    + exact Hbuf.
    + exact (Hitem 0 0 0 1 ltac:(simpl; lia) ltac:(simpl; lia)
               ltac:(simpl; lia) ltac:(simpl; lia)).
Defined.

(** C5, counterexample.  The index entry of the only frame gives it 8 bytes
    where [width * height * depth * channels * 4] is 4: the frame is decoded
    from the first 4 bytes and the loading block of [main] succeeds. *)
Lemma oversized_payload_accepted :
  snd (main_load oversized_frame_file) =
  Ok {| a_header := mkHeader 1 1 1 1 1 0 0 false;
        a_indices := [{| offset := 52; size := 8 |}];
        a_frames := [{| shape := [1; 1; 1; 1]; buf := [f32_one] |}] |} /\
  Z.of_nat (length (slice oversized_frame_file 52 (52 + 8))) = 8 /\
  8 <> 1 * 1 * 1 * 1 * 4.
Proof. vm_compute. repeat split; try reflexivity. discriminate. Qed.

Lemma read_frame_payload_length_witness :
  (exists e,
     snd (read_frame (mkHeader 2 1 1 1 2 0 0 false)
            {| offset := 60; size := 6 |}
            (open_rb (two_frame_file 0 f32_one f32_one f32_half f32_neg_half)))
     = Raise e /\
     ((exists k, e = ValueError_BufferSize k) \/
      (exists k s, e = ValueError_Reshape k s))) /\
  snd (read_frame (mkHeader 1 1 1 1 1 0 0 false) {| offset := 52; size := 8 |}
         (open_rb oversized_frame_file)) =
  Ok {| shape := [1; 1; 1; 1]; buf := [f32_one] |} /\
  snd (read_frame (mkHeader 0 (2 ^ 32 - 1) (2 ^ 32 - 1) 1 1 0 0 false)
         {| offset := 52; size := 0 |} (open_rb oversized_frame_file)) =
  Raise ValueError_ArrayTooBig.
Proof.
  split; [| split].
  - destruct (proj1 (proj2 (read_frame_payload_length (plat := example_platform)
                (mkHeader 2 1 1 1 2 0 0 false)
                {| offset := 60; size := 6 |}
                (open_rb (two_frame_file 0 f32_one f32_one f32_half
                            f32_neg_half))
                {| contents :=
                     two_frame_file 0 f32_one f32_one f32_half f32_neg_half;
                   pos := 66; reads := [(60, 6)] |}
                (le_encode 4 f32_half ++ [x00; x00])
                eq_refl ltac:(vm_compute; reflexivity))
              ltac:(vm_compute; reflexivity))
              ltac:(vm_compute; reflexivity)) as (e & He & Hkind).
    exists e. rewrite He. split; [reflexivity | exact Hkind].
  - rewrite (proj2 (proj2 (read_frame_payload_length (plat := example_platform)
                (mkHeader 1 1 1 1 1 0 0 false)
                {| offset := 52; size := 8 |}
                (open_rb oversized_frame_file)
                {| contents := oversized_frame_file;
                   pos := 60; reads := [(52, 8)] |}
                (le_encode 4 f32_one ++ le_encode 4 f32_half)
                eq_refl ltac:(vm_compute; reflexivity))
              ltac:(vm_compute; reflexivity))
              ltac:(vm_compute; discriminate)).
    vm_compute. reflexivity.
  - rewrite (proj1 (read_frame_payload_length (plat := example_platform)
                (mkHeader 0 (2 ^ 32 - 1) (2 ^ 32 - 1) 1 1 0 0 false)
                {| offset := 52; size := 0 |}
                (open_rb oversized_frame_file)
                {| contents := oversized_frame_file;
                   pos := 52; reads := [(52, 0)] |}
                []
                eq_refl ltac:(vm_compute; reflexivity))
              ltac:(repeat constructor; simpl; lia)
              ValueError_ArrayTooBig ltac:(vm_compute; reflexivity)).
    reflexivity.
Defined.

(** C1, counterexample.  The file has the delta flag set (flags = 0x10),
    frame 0 = [1.0, 1.0] and the stored grid of frame 1 = [0.5, -0.5].  The
    frames that [main] loads are the stored grids as they are: frame 1 is
    [0.5, -0.5], where the reconstruction of the specification gives
    [1.5, 0.5]. *)
Lemma delta_not_reconstructed :
  snd (main_load (two_frame_file 16 f32_one f32_one f32_half f32_neg_half)) =
  Ok {| a_header := mkHeader 2 1 1 1 2 0 0 true;
        a_indices := [{| offset := 52; size := 8 |};
                      {| offset := 60; size := 8 |}];
        a_frames := [{| shape := [1; 1; 1; 2]; buf := [f32_one; f32_one] |};
                     {| shape := [1; 1; 1; 2];
                        buf := [f32_half; f32_neg_half] |}] |} /\
  spec_frames true [[f32_one; f32_one]; [f32_half; f32_neg_half]] =
  [map binary32_decode [f32_one; f32_one];
   map binary32_decode [f32_one_half; f32_half]] /\
  map binary32_decode [f32_half; f32_neg_half] <>
  map binary32_decode [f32_one_half; f32_half].
Proof. vm_compute. repeat split; try reflexivity. discriminate. Qed.

Lemma delta_flag_ignored_witness :
  Forall2
    (fun idx frame =>
       snd (read_frame (mkHeader 2 1 1 1 2 0 0 true) idx
              (open_rb (two_frame_file 16 f32_one f32_one f32_half
                          f32_neg_half))) = Ok frame)
    [{| offset := 52; size := 8 |}; {| offset := 60; size := 8 |}]
    [{| shape := [1; 1; 1; 2]; buf := [f32_one; f32_one] |};
     {| shape := [1; 1; 1; 2]; buf := [f32_half; f32_neg_half] |}].
Proof.
  apply (proj2 (proj2 (delta_flag_ignored (mkHeader 2 1 1 1 2 0 0 true)
                  (open_rb (two_frame_file 16 f32_one f32_one f32_half
                              f32_neg_half))))
           [{| offset := 52; size := 8 |}; {| offset := 60; size := 8 |}]
           (fst (read_frames (mkHeader 2 1 1 1 2 0 0 true)
                   [{| offset := 52; size := 8 |};
                    {| offset := 60; size := 8 |}]
                   (open_rb (two_frame_file 16 f32_one f32_one f32_half
                               f32_neg_half))))).
  vm_compute. reflexivity.
Defined.

(** C4, counterexample.  The header of the file has codec id 7 and both
    frames hold raw floats.  The codec id belongs to the header, so it is the
    same for every frame of the container: frame 0 fails and so does frame 1,
    also when read after the failure of frame 0, and the loading block of
    [main] fails as a whole.  The error is the same value for codec id 3: it
    does not carry the id.  Under codec id 0 the same bytes decode. *)
Lemma unsupported_codec_fails_every_frame :
  let bs := two_frame_file 7 f32_one f32_one f32_half f32_neg_half in
  let h7 := mkHeader 2 1 1 1 2 0 7 false in
  let idx0 := {| offset := 52; size := 8 |} in
  let idx1 := {| offset := 60; size := 8 |} in
  snd (open_container (open_rb bs)) = Ok (h7, [idx0; idx1]) /\
  snd (read_frame h7 idx0 (open_rb bs)) =
    Raise ValueError_CompressionNotSupported /\
  snd (read_frame h7 idx1 (open_rb bs)) =
    Raise ValueError_CompressionNotSupported /\
  snd (read_frame h7 idx1 (fst (read_frame h7 idx0 (open_rb bs)))) =
    Raise ValueError_CompressionNotSupported /\
  snd (main_load bs) = Raise ValueError_CompressionNotSupported /\
  snd (read_frame (set_compression h7 3) idx0 (open_rb bs)) =
    snd (read_frame h7 idx0 (open_rb bs)) /\
  snd (read_frame (set_compression h7 0) idx1 (open_rb bs)) =
    Ok {| shape := [1; 1; 1; 2]; buf := [f32_half; f32_neg_half] |}.
Proof. vm_compute. repeat split; reflexivity. Qed.

Lemma nonzero_codec_rejected_witness :
  snd (read_frame (mkHeader 2 1 1 1 2 0 7 false) {| offset := 52; size := 8 |}
         (open_rb (two_frame_file 7 f32_one f32_one f32_half f32_neg_half))) =
  Raise ValueError_CompressionNotSupported /\
  snd (read_frame (mkHeader 2 1 1 1 2 0 7 false)
         {| offset := 2 ^ 41; size := 8 |}
         (open_rb (two_frame_file 7 f32_one f32_one f32_half f32_neg_half))) =
  Raise OSError_InvalidArgument.
Proof.
  split.
  - rewrite (proj1 (proj2 (nonzero_codec_rejected (plat := example_platform)
                (mkHeader 2 1 1 1 2 0 7 false)
                {| offset := 52; size := 8 |}
                (open_rb (two_frame_file 7 f32_one f32_one f32_half
                            f32_neg_half))
                ltac:(simpl; discriminate))
              {| contents :=
                   two_frame_file 7 f32_one f32_one f32_half f32_neg_half;
                 pos := 60; reads := [(52, 8)] |}
              (le_encode 4 f32_one ++ le_encode 4 f32_one)
              ltac:(vm_compute; reflexivity))).
    reflexivity.
  - rewrite (proj1 (nonzero_codec_rejected (plat := example_platform)
                (mkHeader 2 1 1 1 2 0 7 false)
                {| offset := 2 ^ 41; size := 8 |}
                (open_rb (two_frame_file 7 f32_one f32_one f32_half
                            f32_neg_half))
                ltac:(simpl; discriminate))
              (open_rb (two_frame_file 7 f32_one f32_one f32_half
                          f32_neg_half))
              OSError_InvalidArgument
              ltac:(vm_compute; reflexivity)).
    reflexivity.
Defined.

Lemma decoding_leaves_header_and_index_witness :
  snd (open_container
         (open_rb (two_frame_file 0 f32_one f32_one f32_half f32_neg_half))) =
  Ok (mkHeader 2 1 1 1 2 0 0 false,
      [{| offset := 52; size := 8 |}; {| offset := 60; size := 8 |}]) /\
  contents (fst (main_load
                   (two_frame_file 0 f32_one f32_one f32_half f32_neg_half))) =
  two_frame_file 0 f32_one f32_one f32_half f32_neg_half.
Proof.
  apply (proj2 (proj2 (decoding_leaves_header_and_index
                         (mkHeader 2 1 1 1 2 0 0 false) (open_rb [])))
           (two_frame_file 0 f32_one f32_one f32_half f32_neg_half)
           (fst (main_load
                   (two_frame_file 0 f32_one f32_one f32_half f32_neg_half)))
           {| a_header := mkHeader 2 1 1 1 2 0 0 false;
              a_indices := [{| offset := 52; size := 8 |};
                            {| offset := 60; size := 8 |}];
              a_frames := [{| shape := [1; 1; 1; 2];
                              buf := [f32_one; f32_one] |};
                           {| shape := [1; 1; 1; 2];
                              buf := [f32_half; f32_neg_half] |}] |}).
  vm_compute. reflexivity.
Defined.

Lemma read_header_roundtrip_witness :
  snd (read_header
         (open_rb (encode_header (mkHeader 640 480 3 2 100 1065353216 0 true)
                     5 ++ repeat x00 16))) =
  Ok (mkHeader 640 480 3 2 100 1065353216 0 true) /\
  pos (fst (read_header
         (open_rb (encode_header (mkHeader 640 480 3 2 100 1065353216 0 true)
                     5 ++ repeat x00 16)))) = 36 + Z.min 16 16.
Proof.
  apply (read_header_roundtrip (mkHeader 640 480 3 2 100 1065353216 0 true) 5
           (repeat x00 16)).
  - unfold header_in_range. simpl. lia.
  - reflexivity.
  - lia.
Defined.

Lemma read_header_unsupported_version_witness :
  read_header (open_rb (FLWA ++ le_encode 2 2 ++ repeat x00 46)) =
    ({| contents := FLWA ++ le_encode 2 2 ++ repeat x00 46; pos := 6;
        reads := [(0, 4); (4, 2)] |},
     Raise (ValueError_UnsupportedVersion
              (le_decode (slice (FLWA ++ le_encode 2 2 ++ repeat x00 46) 4 6))))
  /\
  main_load (FLWA ++ le_encode 2 2 ++ repeat x00 46) =
    ({| contents := FLWA ++ le_encode 2 2 ++ repeat x00 46; pos := 6;
        reads := [(0, 4); (4, 2)] |},
     Raise (ValueError_UnsupportedVersion
              (le_decode (slice (FLWA ++ le_encode 2 2 ++ repeat x00 46) 4 6)))).
Proof.
  apply (read_header_unsupported_version
           (FLWA ++ le_encode 2 2 ++ repeat x00 46)).
  - reflexivity.
  - vm_compute. discriminate.
  - vm_compute. discriminate.
Defined.

Lemma read_header_ok_iff_witness :
  (is_ok (snd (read_header (open_rb (firstn 40 (header_bytes 0 2 1 1 1 2)))))
   = true) /\
  (exists a b,
     snd (read_header (open_rb (firstn 35 (header_bytes 0 2 1 1 1 2)))) =
     Raise (StructError a b)).
Proof.
  split.
  - apply (proj2 (proj1 (read_header_ok_iff
                           (firstn 40 (header_bytes 0 2 1 1 1 2))))).
    repeat split.
    vm_compute. discriminate.
  - apply (proj2 (read_header_ok_iff (firstn 35 (header_bytes 0 2 1 1 1 2)))).
    + reflexivity.
    + reflexivity.
    + vm_compute. split; [discriminate | reflexivity].
Defined.

Lemma parsed_header_in_range_witness :
  header_in_range (mkHeader 2 1 1 1 2 0 7 true).
Proof.
  apply (parsed_header_in_range (open_rb (header_bytes 0x17 2 1 1 1 2))
           (fst (read_header (open_rb (header_bytes 0x17 2 1 1 1 2))))).
  vm_compute. reflexivity.
Defined.

Lemma open_container_roundtrip_witness :
  snd (open_container
         (open_rb (encode_header (mkHeader 2 1 1 1 2 0 3 true) 0 ++
                   repeat x00 16 ++ [x01; x02; x03] ++
                   encode_index [{| offset := 52; size := 1 |};
                                 {| offset := 53; size := 2 |}]))) =
  Ok (mkHeader 2 1 1 1 2 0 3 true,
      [{| offset := 52; size := 1 |}; {| offset := 53; size := 2 |}]).
Proof.
  apply (open_container_roundtrip (mkHeader 2 1 1 1 2 0 3 true) 0
           (repeat x00 16) [x01; x02; x03]
           [{| offset := 52; size := 1 |}; {| offset := 53; size := 2 |}]).
  - unfold header_in_range. simpl. lia.
  - reflexivity.
  - lia.
  - reflexivity.
  - repeat constructor; unfold u64; simpl; lia.
  - vm_compute. discriminate.
Defined.

Lemma read_frames_ok_iff_witness :
  snd (read_frames (mkHeader 2 1 1 1 2 0 0 false)
         [{| offset := 60; size := 8 |}; {| offset := 52; size := 8 |}]
         (open_rb (two_frame_file 0 f32_one f32_one f32_half f32_neg_half))) =
  Ok [{| shape := [1; 1; 1; 2]; buf := [f32_half; f32_neg_half] |};
      {| shape := [1; 1; 1; 2]; buf := [f32_one; f32_one] |}].
Proof.
  apply (proj2 (proj1 (read_frames_ok_iff (mkHeader 2 1 1 1 2 0 0 false)
           [{| offset := 60; size := 8 |}; {| offset := 52; size := 8 |}]
           (open_rb (two_frame_file 0 f32_one f32_one f32_half f32_neg_half))
           [{| shape := [1; 1; 1; 2]; buf := [f32_half; f32_neg_half] |};
            {| shape := [1; 1; 1; 2]; buf := [f32_one; f32_one] |}]))).
  repeat constructor.
Defined.

Lemma read_frames_first_error_witness :
  snd (read_frames (mkHeader 2 1 1 1 2 0 0 false)
         ([{| offset := 52; size := 8 |}] ++
          {| offset := 60; size := 6 |} :: [{| offset := 60; size := 8 |}])
         (open_rb (two_frame_file 0 f32_one f32_one f32_half f32_neg_half))) =
  Raise (ValueError_BufferSize 6).
Proof.
  apply (read_frames_first_error (mkHeader 2 1 1 1 2 0 0 false)
           [{| offset := 52; size := 8 |}] {| offset := 60; size := 6 |}
           [{| offset := 60; size := 8 |}]
           (open_rb (two_frame_file 0 f32_one f32_one f32_half f32_neg_half))).
  - repeat constructor.
  - reflexivity.
Defined.

Lemma container_roundtrip_witness :
  snd (main_load
         (encode_container (mkHeader 2 1 1 1 2 0 0 true) 0 (repeat x00 16)
            [[f32_one; f32_one]; [f32_half; f32_neg_half]])) =
  Ok {| a_header := mkHeader 2 1 1 1 2 0 0 true;
        a_indices := [{| offset := 52; size := 8 |};
                      {| offset := 60; size := 8 |}];
        a_frames := [{| shape := [1; 1; 1; 2]; buf := [f32_one; f32_one] |};
                     {| shape := [1; 1; 1; 2];
                        buf := [f32_half; f32_neg_half] |}] |}.
Proof.
  apply (container_roundtrip (mkHeader 2 1 1 1 2 0 0 true) 0 (repeat x00 16)
           [[f32_one; f32_one]; [f32_half; f32_neg_half]]).
  - unfold header_in_range. simpl. lia.
  - reflexivity.
  - reflexivity.
  - vm_compute. reflexivity.
  - lia.
  - reflexivity.
  - reflexivity.
  - repeat constructor; simpl; unfold f32_one, f32_half, f32_neg_half; lia.
  - vm_compute. discriminate.
Defined.

Lemma create_2d_figure_middle_slice_witness :
  (exists rows,
     create_2d_figure
       {| shape := [1; 3; 2; 2]; buf := map Z.of_nat (seq 0 12) |} 0
     = Done rows /\
     Z.of_nat (length rows) = 2 /\
     forall y, 0 <= y < 2 ->
       exists row,
         nth_error rows (Z.to_nat y) = Some row /\
         Z.of_nat (length row) = 2 /\
         forall x, 0 <= x < 2 ->
           nth_error row (Z.to_nat x) =
           np_item4 {| shape := [1; 3; 2; 2]; buf := map Z.of_nat (seq 0 12) |}
             0 (3 / 2) y x) /\
  create_2d_figure {| shape := [1; 0; 2; 2]; buf := [] |} 0 =
  Failed IndexError.
Proof.
  split.
  - apply (proj1 (create_2d_figure_middle_slice
                    {| shape := [1; 3; 2; 2]; buf := map Z.of_nat (seq 0 12) |}
                    1 3 2 2 0 eq_refl eq_refl ltac:(lia) ltac:(lia)
                    ltac:(lia) ltac:(lia))); lia.
  - apply (proj2 (create_2d_figure_middle_slice
                    {| shape := [1; 0; 2; 2]; buf := [] |}
                    1 0 2 2 0 eq_refl eq_refl ltac:(lia) ltac:(lia)
                    ltac:(lia) ltac:(lia))).
    left. reflexivity.
Defined.

Lemma create_3d_figure_size_witness :
  1 <= downsample_step 2 2 3 /\
  (downsample_step 2 2 3 = 1 <-> Z.max 2 (Z.max 2 3) < 64) /\
  0 <= strided_count 2 (downsample_step 2 2 3) <= 63 /\
  0 <= strided_count 2 (downsample_step 2 2 3) <= 63 /\
  0 <= strided_count 3 (downsample_step 2 2 3) <= 63 /\
  exists v,
    create_3d_figure
      {| shape := [1; 2; 2; 3]; buf := map Z.of_nat (seq 0 12) |} 0 = Done v /\
    Z.of_nat (length (vol_x v)) =
      strided_count 2 (downsample_step 2 2 3) *
      strided_count 2 (downsample_step 2 2 3) *
      strided_count 3 (downsample_step 2 2 3) /\
    Z.of_nat (length (vol_y v)) =
      strided_count 2 (downsample_step 2 2 3) *
      strided_count 2 (downsample_step 2 2 3) *
      strided_count 3 (downsample_step 2 2 3) /\
    Z.of_nat (length (vol_z v)) =
      strided_count 2 (downsample_step 2 2 3) *
      strided_count 2 (downsample_step 2 2 3) *
      strided_count 3 (downsample_step 2 2 3) /\
    Z.of_nat (length (vol_value v)) =
      strided_count 2 (downsample_step 2 2 3) *
      strided_count 2 (downsample_step 2 2 3) *
      strided_count 3 (downsample_step 2 2 3).
Proof.
  apply (create_3d_figure_size
           {| shape := [1; 2; 2; 3]; buf := map Z.of_nat (seq 0 12) |}
           1 2 2 3 0 eq_refl eq_refl); lia.
Defined.

Lemma create_3d_figure_points_witness :
  exists v,
    create_3d_figure
      {| shape := [1; 2; 2; 3]; buf := map Z.of_nat (seq 0 12) |} 0 = Done v /\
    (nth_error (vol_x v) 1 = Some 0 /\
     nth_error (vol_y v) 1 = Some 0 /\
     nth_error (vol_z v) 1 = Some 1) /\
    nth_error (vol_value v) 1 =
    np_item4 {| shape := [1; 2; 2; 3]; buf := map Z.of_nat (seq 0 12) |}
      0 0 0 1.
Proof.
  destruct (create_3d_figure_points
              {| shape := [1; 2; 2; 3]; buf := map Z.of_nat (seq 0 12) |}
              1 2 2 3 0 eq_refl eq_refl ltac:(lia) ltac:(lia) ltac:(lia)
              ltac:(lia)) as (v & E & Hxyz & Hval).
  exists v. split; [exact E |]. split.
  - exact (Hxyz 0 0 1 ltac:(vm_compute; split; [discriminate | reflexivity])
             ltac:(vm_compute; split; [discriminate | reflexivity])
             ltac:(vm_compute; split; [discriminate | reflexivity])).
  - exact (Hval 0 0 1 ltac:(vm_compute; split; [discriminate | reflexivity])
             ltac:(vm_compute; split; [discriminate | reflexivity])
             ltac:(vm_compute; split; [discriminate | reflexivity])).
Defined.

Lemma create_3d_figure_cube_axes_witness :
  exists v,
    create_3d_figure
      {| shape := [1; 2; 2; 2]; buf := map Z.of_nat (seq 0 8) |} 0 = Done v /\
    nth_error (vol_x v) 2 = Some 1 /\
    nth_error (vol_y v) 2 = Some 0 /\
    nth_error (vol_z v) 2 = Some 0 /\
    nth_error (vol_value v) 2 =
    np_item4 {| shape := [1; 2; 2; 2]; buf := map Z.of_nat (seq 0 8) |}
      0 0 1 0.
Proof.
  destruct (create_3d_figure_cube_axes
              {| shape := [1; 2; 2; 2]; buf := map Z.of_nat (seq 0 8) |}
              1 2 0 eq_refl eq_refl ltac:(lia) ltac:(lia)) as (v & E & H).
  exists v. split; [exact E |].
  exact (H 1 0 0 ltac:(vm_compute; split; [discriminate | reflexivity])
           ltac:(vm_compute; split; [discriminate | reflexivity])
           ltac:(vm_compute; split; [discriminate | reflexivity])).
Defined.

Lemma playback_cycle_witness :
  (play 5 1 3 = Done ((1 + Z.of_nat 5) mod 3) /\
   0 <= (1 + Z.of_nat 5) mod 3 < 3) /\
  play (Z.to_nat 3) 1 3 = Done 1.
Proof.
  destruct (proj1 (playback_cycle 3 1) ltac:(lia)) as [Hk Hn].
  split.
  - apply Hk. lia.
  - apply Hn. lia.
Defined.

Lemma slider_marks_bound_witness :
  (length (slider_marks 19) <= 19)%nat /\
  (forall m, In m (slider_marks 19) ->
     0 <= m < 19 /\ exists i, m = i * Z.max 1 (19 / 10)) /\
  (0 < 19 -> nth_error (slider_marks 19) 0 = Some 0).
Proof. apply (slider_marks_bound 19). lia. Defined.

Lemma loaded_frame_heatmap_witness :
  exists a frame rows,
    snd (main_load
           (encode_container (mkHeader 2 1 1 1 2 0 0 false) 0 (repeat x00 16)
              [[f32_one; f32_one]; [f32_half; f32_neg_half]])) = Ok a /\
    nth_error (a_frames a) 1 = Some frame /\
    create_2d_figure frame 0 = Done rows /\
    Z.of_nat (length rows) = 1 /\
    forall y x, 0 <= y < 1 -> 0 <= x < 2 ->
      exists row,
        nth_error rows (Z.to_nat y) = Some row /\
        nth_error row (Z.to_nat x) =
        nth_error [f32_half; f32_neg_half] (Z.to_nat ((0 * 1 + y) * 2 + x)).
Proof.
  apply (loaded_frame_heatmap (mkHeader 2 1 1 1 2 0 0 false) 0 (repeat x00 16)
           [[f32_one; f32_one]; [f32_half; f32_neg_half]] 1
           [f32_half; f32_neg_half] 0).
  - unfold header_in_range. simpl. lia.
  - reflexivity.
  - reflexivity.
  - reflexivity.
  - vm_compute. reflexivity.
  - lia.
  - reflexivity.
  - reflexivity.
  - repeat constructor; simpl; unfold f32_one, f32_half, f32_neg_half; lia.
  - vm_compute. discriminate.
  - reflexivity.
  - simpl. lia.
Defined.

Lemma read_frame_ok_iff_available_witness :
  Z.of_nat (length (skipn 60 (two_frame_file 0 f32_one f32_one f32_half
                                f32_neg_half))) =
    Z.min 1000 (Z.max 0 (100 - 60)) /\
  reads (fst (read_frame (mkHeader 2 1 1 1 2 0 0 false)
                {| offset := 60; size := 1000 |}
                (open_rb (two_frame_file 0 f32_one f32_one f32_half
                            f32_neg_half)))) =
    [] ++ [(60, Z.min 1000 (Z.max 0 (100 - 60)))] /\
  (is_ok (snd (read_frame (mkHeader 2 1 1 1 2 0 0 false)
                 {| offset := 60; size := 1000 |}
                 (open_rb (two_frame_file 0 f32_one f32_one f32_half
                             f32_neg_half)))) = true <->
   frame_size (mkHeader 2 1 1 1 2 0 0 false)
     <= Z.min 1000 (Z.max 0 (100 - 60))).
Proof.
  apply (read_frame_ok_iff_available (mkHeader 2 1 1 1 2 0 0 false)
           {| offset := 60; size := 1000 |}
           (open_rb (two_frame_file 0 f32_one f32_one f32_half f32_neg_half))
           {| contents :=
                two_frame_file 0 f32_one f32_one f32_half f32_neg_half;
              pos := 100; reads := [(60, 40)] |}
           (skipn 60 (two_frame_file 0 f32_one f32_one f32_half
                        f32_neg_half))).
  - reflexivity.
  - simpl. lia.
  - vm_compute. reflexivity.
  - vm_compute. reflexivity.
Defined.
